(** * docflu: content transformation and incremental synchronisation

    A shallow embedding of the parts of docflu that decide the properties
    stated below:

    - [Js]         the JavaScript string and truthiness idioms the sources use;
    - [Dom]        the DOM view the Turndown rules of
                   [lib/core/html-to-markdown-parser.js] work on;
    - [Reverse]    the custom Turndown rules and the macro preprocessing of
                   the same file;
    - [Sync]       the Confluence client ([lib/core/confluence-client.js]) and
                   the sync commands ([lib/commands/sync.js]) in a state and
                   exception monad over an abstract remote backend;
    - [MemWiki]    an in-memory wiki used as the remote backend in examples;
    - [RefIndex]   the reference index, whose source file is not available;
    - [Markdown]   the blank lines of [postprocessMarkdown];
    - [Attachments] the attachment endpoints of the client;
    - [Cli]        the blog command and the action of [docflu sync]
                   ([bin/docflu.js]);
    - [Parser]     the conversion of a page and its image passes.

    The properties follow the embedding, one module of facts for each part:
    [ReverseFacts], [SyncFacts], [MemWikiFacts], [PullFacts],
    [AttachmentFacts] and [RefIndexFacts]; then [TextFacts], [ClientFacts],
    [CommandFacts], [ParserFacts], [RuleFacts], [WikiFacts] and
    [RerunFacts]. *)

From Stdlib Require Import String Ascii List ZArith Bool Lia DecimalString DecimalNat
  DecimalFacts.
From stdpp Require Import base option list gmap strings fin_maps.

#[local] Open Scope Z_scope.

(** ** JavaScript idioms *)

Module Js.

(** The line feed written [\n] in the sources. *)
Definition nl : string := String (ascii_of_nat 10) EmptyString.

(** [!!s] for a string: only the empty string is falsy. *)
Definition truthy (s : string) : bool := negb (String.eqb s "").

(** [!!x] for a value that is a string, [null] or [undefined]. *)
Definition truthy_opt (o : option string) : bool :=
  match o with
  | Some s => truthy s
  | None => false
  end.

(** [x || ''] and [a || b] on nullable strings. *)
Definition or_else (o : option string) (d : string) : string :=
  match o with
  | Some s => if truthy s then s else d
  | None => d
  end.

(** [n || 1] for a number that may be [undefined]: [0] is falsy. *)
Definition or1 (o : option Z) : Z :=
  match o with
  | Some n => if n =? 0 then 1 else n
  | None => 1
  end.

(** [s.startsWith(p)] *)
Fixpoint startsWith (p s : string) : bool :=
  match p, s with
  | EmptyString, _ => true
  | String a p', String b s' => Ascii.eqb a b && startsWith p' s'
  | String _ _, EmptyString => false
  end.

(** [s.includes(p)] *)
Fixpoint includes (p s : string) : bool :=
  startsWith p s ||
  match s with
  | EmptyString => false
  | String _ s' => includes p s'
  end.

(** [s.split(c)] for a one-character separator. *)
Fixpoint split_acc (c : ascii) (cur : string) (s : string) : list string :=
  match s with
  | EmptyString => [cur]
  | String a s' =>
      if Ascii.eqb a c then cur :: split_acc c EmptyString s'
      else split_acc c (cur +:+ String a EmptyString) s'
  end.

Definition split (c : ascii) (s : string) : list string :=
  split_acc c EmptyString s.

(** [xs.filter(Boolean)] on an array of strings. *)
Definition filter_Boolean (xs : list string) : list string :=
  List.filter truthy xs.

(** [s.replace(/x/g, y)] for single characters [x] and [y]. *)
Fixpoint replace_char (x y : ascii) (s : string) : string :=
  match s with
  | EmptyString => EmptyString
  | String a s' => String (if Ascii.eqb a x then y else a) (replace_char x y s')
  end.

Definition between (lo hi a : ascii) : bool :=
  (nat_of_ascii lo <=? nat_of_ascii a)%nat && (nat_of_ascii a <=? nat_of_ascii hi)%nat.

Definition is_lower (a : ascii) : bool := between "a" "z" a.
Definition is_upper (a : ascii) : bool := between "A" "Z" a.
Definition is_digit (a : ascii) : bool := between "0" "9" a.

(** The class [\w] of a regular expression without the [u] flag. *)
Definition is_word (a : ascii) : bool :=
  is_lower a || is_upper a || is_digit a || Ascii.eqb a "_".

(** [c.toUpperCase()] on one character of the class [\w]. *)
Definition toUpperCase_char (a : ascii) : ascii :=
  if is_lower a then ascii_of_nat (nat_of_ascii a - 32) else a.

(** [s.replace(/\b\w/g, c => c.toUpperCase())]: a word character is at a
    boundary when the character before it (if any) is not a word character. *)
Fixpoint upper_at_boundaries (prev_word : bool) (s : string) : string :=
  match s with
  | EmptyString => EmptyString
  | String a s' =>
      String (if is_word a && negb prev_word then toUpperCase_char a else a)
             (upper_at_boundaries (is_word a) s')
  end.

(** White space of [String.prototype.trim], restricted to one-byte characters. *)
Definition is_space (a : ascii) : bool :=
  let n := nat_of_ascii a in
  (n =? 32)%nat || ((9 <=? n)%nat && (n <=? 13)%nat).

Fixpoint trimStart (s : string) : string :=
  match s with
  | EmptyString => EmptyString
  | String a s' => if is_space a then trimStart s' else s
  end.

Fixpoint trimEnd (s : string) : string :=
  match s with
  | EmptyString => EmptyString
  | String a s' =>
      match trimEnd s' with
      | EmptyString => if is_space a then EmptyString else String a EmptyString
      | t => String a t
      end
  end.

Definition trim (s : string) : string := trimEnd (trimStart s).

(** [s.split(/\s+/)] without the empty pieces: the tokens of a [class]
    attribute as [classList] sees them. *)
Fixpoint tokens_acc (cur : string) (s : string) : list string :=
  match s with
  | EmptyString => if truthy cur then [cur] else []
  | String a s' =>
      if is_space a
      then (if truthy cur then cur :: tokens_acc EmptyString s' else tokens_acc EmptyString s')
      else tokens_acc (cur +:+ String a EmptyString) s'
  end.

Definition tokens (s : string) : list string := tokens_acc EmptyString s.

(** [xs.join(sep)] *)
Definition join (sep : string) (xs : list string) : string := String.concat sep xs.

(** The characters of the class [\s] that take two or three bytes in the
    UTF-8 encoding of a text: U+00A0; U+1680, U+2000 to U+200A, U+2028,
    U+2029, U+202F, U+205F, U+3000 and U+FEFF. *)
Definition is_space2 (a b : ascii) : bool :=
  (nat_of_ascii a =? 194)%nat && (nat_of_ascii b =? 160)%nat.

Definition is_space3 (a b c : ascii) : bool :=
  let x := nat_of_ascii a in
  let y := nat_of_ascii b in
  let z := nat_of_ascii c in
  ((x =? 225) && (y =? 154) && (z =? 128)
   || (x =? 226) && (y =? 128)
      && ((128 <=? z) && (z <=? 138) || (z =? 168) || (z =? 169) || (z =? 175))
   || (x =? 226) && (y =? 129) && (z =? 159)
   || (x =? 227) && (y =? 128) && (z =? 128)
   || (x =? 239) && (y =? 187) && (z =? 191))%nat.

(** [/^\s*$/.test(s)]: the text is white space only. *)
Fixpoint is_blank (s : string) : bool :=
  match s with
  | EmptyString => true
  | String a s1 =>
      if is_space a then is_blank s1
      else
        match s1 with
        | String b s2 =>
            if is_space2 a b then is_blank s2
            else
              match s2 with
              | String c s3 => is_space3 a b c && is_blank s3
              | EmptyString => false
              end
        | EmptyString => false
        end
  end.

(** [xs.includes(x)] on an array of strings. *)
Definition array_includes (xs : list string) (x : string) : bool :=
  existsb (String.eqb x) xs.

End Js.

(** ** The DOM as the Turndown rules read it *)

Module Dom.

(** A parsed HTML tree.  [nodeName] is upper case for HTML elements, as the
    DOM reports it ([DIV], [IMG], [TR]). *)
#[warnings="-register-all"]
Inductive Node : Type :=
| Text (data : string)
| Element (nodeName : string) (attributes : list (string * string)) (childNodes : list Node).

Definition nodeName (n : Node) : string :=
  match n with
  | Text _ => "#text"
  | Element name _ _ => name
  end.

Definition attributes (n : Node) : list (string * string) :=
  match n with
  | Text _ => []
  | Element _ attrs _ => attrs
  end.

(** [node.getAttribute(name)]: [null] when the attribute is absent. *)
Definition getAttribute (name : string) (n : Node) : option string :=
  snd <$> List.find (fun kv => String.eqb (fst kv) name) (attributes n).

(** [node.classList.contains(c)] *)
Definition classList_contains (c : string) (n : Node) : bool :=
  match getAttribute "class" n with
  | Some v => Js.array_includes (Js.tokens v) c
  | None => false
  end.

(** The descendants of a node in document order, the node itself excluded:
    the candidates of [querySelector] and [querySelectorAll]. *)
Fixpoint descendants (n : Node) : list Node :=
  match n with
  | Text _ => []
  | Element _ _ kids =>
      (fix go (ks : list Node) : list Node :=
         match ks with
         | [] => []
         | k :: ks' => k :: descendants k ++ go ks'
         end) kids
  end.

(** [node.textContent] *)
Fixpoint textContent (n : Node) : string :=
  match n with
  | Text s => s
  | Element _ _ kids =>
      (fix go (ks : list Node) : string :=
         match ks with
         | [] => EmptyString
         | k :: ks' => textContent k +:+ go ks'
         end) kids
  end.

Definition is_element (n : Node) : bool :=
  match n with
  | Text _ => false
  | Element _ _ _ => true
  end.

(** [node.querySelectorAll(tag)] for a type selector; [tag] is given in the
    upper case of [nodeName]. *)
Definition querySelectorAll (tag : string) (n : Node) : list Node :=
  List.filter (fun d => is_element d && String.eqb (nodeName d) tag) (descendants n).

(** [node.querySelector(tag)] for a type selector. *)
Definition querySelector (tag : string) (n : Node) : option Node :=
  head (querySelectorAll tag n).

(** [node.querySelector('.' + c)] for a class selector. *)
Definition querySelector_class (c : string) (n : Node) : option Node :=
  List.find (fun d => is_element d && classList_contains c d) (descendants n).

End Dom.

(** ** The reverse transformer: [lib/core/html-to-markdown-parser.js] *)

Module Reverse.
Import Dom.

(** *** Macro preprocessing ([preprocessConfluenceHtml])

    The callback of the first [replace] reads the macro name, the [title]
    parameter and the rich-text body out of the matched text and returns the
    text of an HTML fragment, which Turndown parses later.  The record holds
    what the [match] calls capture, as texts (a capture that fails is the
    empty string); the rich-text body is held as the parser reads it. *)
Record Macro := {
  macroName : string;
  language : string;
  code : string;
  title : string;
  body : list Node
}.

Section Preprocessing.

(** The HTML parser behind [turndown], which is not part of the sources:
    [readFragment name text] is the list of child nodes it makes of [text]
    pasted, as it is, inside an element [name] (entities decoded, tags read
    as elements, white space collapsed outside [pre]); [readAttribute text]
    is the value it reads for an attribute whose quotes hold [text].  The
    captured texts are taken to close the elements they open, so that they
    stay inside the element they are pasted in. *)
Variable readFragment : string -> string -> list Node.
Variable readAttribute : string -> string.

(** The fragment returned for a [code] macro (line 228), as parsed. *)
Definition codeMacroHtml (m : Macro) : Node :=
  Element "DIV" [("class", "code"); ("data-language", readAttribute (language m))]
    [Element "PRE" [] (readFragment "PRE" (code m))].

(** The fragment returned for a [note], [info] or [warning] macro, as
    parsed: the template literal of lines 240-243.  The white space of the
    template is kept as text; Turndown only shortens or drops it. *)
Definition admonitionMacroHtml (m : Macro) : Node :=
  let indent := Js.nl +:+ "          " in
  Element "DIV" [("class", "confluence-" +:+ macroName m +:+ "-macro")]
    ([Text indent] ++
     (if Js.truthy (title m)
      then [Element "DIV" [("class", "confluence-information-macro-title")]
              (readFragment "DIV" (title m))]
      else []) ++
     [Text indent;
      Element "DIV" [("class", "confluence-information-macro-body")] (body m);
      Text (Js.nl +:+ "        ")]).

(** The callback: [None] stands for [return match], the macro left as it is. *)
Definition preprocessMacro (m : Macro) : option Node :=
  if String.eqb (macroName m) "code" then Some (codeMacroHtml m)
  else if Js.array_includes ["note"; "info"; "warning"] (macroName m)
  then Some (admonitionMacroHtml m)
  else None.

End Preprocessing.

(** A parser that reads a text as one text node and an attribute as it is
    written: what the HTML parser does with a text that holds no markup, no
    entity and no white space to collapse. *)
Definition plainFragment (name text : string) : list Node := [Text text].
Definition plainAttribute (text : string) : string := text.

(** *** Blank nodes

    Turndown is a library that the parser requires.  Its [Rules.forNode]
    hands a blank node to the library's blank rule before it looks at the
    rules that were added; [isBlank] is the test of the library (Turndown
    7, [node.js]). *)
Definition voidElements : list string :=
  ["AREA"; "BASE"; "BR"; "COL"; "COMMAND"; "EMBED"; "HR"; "IMG"; "INPUT"; "KEYGEN";
   "LINK"; "META"; "PARAM"; "SOURCE"; "TRACK"; "WBR"].

Definition meaningfulWhenBlankElements : list string :=
  ["A"; "TABLE"; "THEAD"; "TBODY"; "TFOOT"; "TH"; "TD"; "IFRAME"; "SCRIPT"; "AUDIO"; "VIDEO"].

(** [tagNames.indexOf(node.nodeName) >= 0] *)
Definition isOneOf (tagNames : list string) (node : Node) : bool :=
  Js.array_includes tagNames (nodeName node).

(** [tagNames.some(tagName => node.getElementsByTagName(tagName).length)] *)
Definition hasOneOf (tagNames : list string) (node : Node) : bool :=
  existsb (fun d => is_element d && isOneOf tagNames d) (descendants node).

Definition isBlank (node : Node) : bool :=
  negb (isOneOf voidElements node) &&
  negb (isOneOf meaningfulWhenBlankElements node) &&
  Js.is_blank (textContent node) &&
  negb (hasOneOf voidElements node) &&
  negb (hasOneOf meaningfulWhenBlankElements node).

(** *** The custom Turndown rules ([setupTurndownRules]) *)

Inductive Rule :=
| confluenceCodeBlock
| confluenceAdmonitions
| confluenceTables
| confluenceImages
| mermaidDiagrams
| confluenceLinks.

(** The rules in the order of the [addRule] calls. *)
Definition addRule_calls : list Rule :=
  [confluenceCodeBlock; confluenceAdmonitions; confluenceTables;
   confluenceImages; mermaidDiagrams; confluenceLinks].

Definition confluenceCodeBlock_filter (node : Node) : bool :=
  String.eqb (nodeName node) "DIV" &&
  classList_contains "code" node &&
  bool_decide (is_Some (querySelector "PRE" node)).

Definition confluenceAdmonitions_filter (node : Node) : bool :=
  String.eqb (nodeName node) "DIV" &&
  (classList_contains "confluence-information-macro" node ||
   classList_contains "confluence-warning-macro" node ||
   classList_contains "confluence-note-macro" node).

Definition confluenceTables_filter (node : Node) : bool :=
  String.eqb (nodeName node) "TABLE".

Definition confluenceImages_filter (node : Node) : bool :=
  String.eqb (nodeName node) "IMG".

Definition mermaidDiagrams_filter (node : Node) : bool :=
  String.eqb (nodeName node) "IMG" &&
  match getAttribute "alt" node with
  | Some alt => Js.truthy alt && Js.includes "mermaid-diagram" alt
  | None => false
  end.

Definition confluenceLinks_filter (node : Node) : bool :=
  String.eqb (nodeName node) "A".

Definition rule_filter (r : Rule) : Node -> bool :=
  match r with
  | confluenceCodeBlock => confluenceCodeBlock_filter
  | confluenceAdmonitions => confluenceAdmonitions_filter
  | confluenceTables => confluenceTables_filter
  | confluenceImages => confluenceImages_filter
  | mermaidDiagrams => mermaidDiagrams_filter
  | confluenceLinks => confluenceLinks_filter
  end.

(** Turndown's [Rules.add] puts a rule in front of the rules added before
    it, and [Rules.forNode] takes, for a node that is not blank, the first
    rule of that array whose filter accepts the node; [None] stands for the
    rules of the library: its blank rule for a blank node, its built-in rules
    for a node that no added rule accepts. *)
Definition rules_array : list Rule := rev addRule_calls.

Definition forNode (node : Node) : option Rule :=
  if isBlank node then None
  else List.find (fun r => rule_filter r node) rules_array.

Section Replacements.

(** [this.turndownService.turndown(element)] and
    [this.turndownService.turndown(cell.innerHTML)]: the library's
    conversion of a subtree, which the rules call back into. *)
Variable turndown : Node -> string.
Variable turndown_innerHTML : Node -> string.

Definition fence : string := "```".

Definition confluenceCodeBlock_replacement (node : Node) : string :=
  let language := Js.or_else (getAttribute "data-language" node) "" in
  let codeContent := from_option textContent "" (querySelector "PRE" node) in
  Js.nl +:+ fence +:+ language +:+ Js.nl +:+ codeContent +:+ Js.nl +:+ fence +:+ Js.nl +:+ Js.nl.

Definition confluenceAdmonitions_replacement (node : Node) : string :=
  let type :=
    if classList_contains "confluence-warning-macro" node then "warning"
    else if classList_contains "confluence-note-macro" node then "note"
    else "info" in
  let title :=
    from_option textContent "" (querySelector_class "confluence-information-macro-title" node) in
  let body :=
    from_option turndown "" (querySelector_class "confluence-information-macro-body" node) in
  Js.nl +:+ ":::" +:+ type +:+ (if Js.truthy title then " " +:+ title else "") +:+ Js.nl +:+
  body +:+ Js.nl +:+ ":::" +:+ Js.nl +:+ Js.nl.

(** One line of a table: [| c1 | c2 |] and a line feed. *)
Definition tableLine (cells : list string) : string :=
  "| " +:+ Js.join " | " cells +:+ " |" +:+ Js.nl.

Definition cellText (cell : Node) : string := Js.trim (turndown_innerHTML cell).

(** The body of the loop over the data rows: a row with no [td] adds nothing. *)
Definition appendDataRow (markdown : string) (row : Node) : string :=
  let cells := querySelectorAll "TD" row in
  if (0 <? length cells)%nat
  then markdown +:+ tableLine (map cellText cells)
  else markdown.

Definition confluenceTables_replacement (node : Node) : string :=
  let rows := querySelectorAll "TR" node in
  match rows with
  | [] => ""
  | row0 :: _ =>
      let markdown := Js.nl in
      let headerCells := querySelectorAll "TH" row0 in
      let markdown :=
        if (0 <? length headerCells)%nat
        then markdown +:+ tableLine (map cellText headerCells)
                      +:+ tableLine (map (fun _ => "---") headerCells)
        else markdown in
      let start := if (0 <? length headerCells)%nat then 1%nat else 0%nat in
      let markdown := fold_left appendDataRow (drop start rows) markdown in
      markdown +:+ Js.nl
  end.

Definition confluenceImages_replacement (node : Node) : string :=
  let alt := Js.or_else (getAttribute "alt" node) "" in
  let src := Js.or_else (getAttribute "src" node) "" in
  let image target := "![" +:+ alt +:+ "](" +:+ target +:+ ")" in
  if negb (Js.startsWith "http" src) && negb (Js.startsWith "data:" src)
  then image src
  else if Js.includes "/download/attachments/" src
  then
    let filename :=
      List.hd "" (Js.split "?" (List.last (Js.split "/" src) "")) in
    image filename
  else image src.

(** The placeholder of lines 142-146. *)
Definition mermaidPlaceholder : string :=
  Js.nl +:+ fence +:+ "mermaid" +:+ Js.nl +:+
  "// Original Mermaid diagram was here" +:+ Js.nl +:+
  "// Automatic conversion back to Mermaid code is not supported" +:+ Js.nl +:+
  fence +:+ Js.nl +:+ Js.nl.

Definition mermaidDiagrams_replacement (content : string) (node : Node) : string :=
  mermaidPlaceholder.

Definition confluenceLinks_replacement (content : string) (node : Node) : string :=
  match getAttribute "href" node with
  | Some href =>
      if Js.truthy href
      then "[" +:+ content +:+ "](" +:+ href +:+ ")"
      else content
  | None => content
  end.

Definition rule_replacement (r : Rule) (content : string) (node : Node) : string :=
  match r with
  | confluenceCodeBlock => confluenceCodeBlock_replacement node
  | confluenceAdmonitions => confluenceAdmonitions_replacement node
  | confluenceTables => confluenceTables_replacement node
  | confluenceImages => confluenceImages_replacement node
  | mermaidDiagrams => mermaidDiagrams_replacement content node
  | confluenceLinks => confluenceLinks_replacement content node
  end.

(** What the custom rules make of a node; [None] when none of them applies
    and Turndown's built-in rules convert it. *)
Definition customReplacement (content : string) (node : Node) : option string :=
  (fun r => rule_replacement r content node) <$> forNode node.

(** The table rule as the specification words it for a table whose first
    row has no header cell: every row is a data row of the output. *)
Definition tableAllRowsAsData (node : Node) : string :=
  Js.nl +:+
  String.concat "" (map (fun row => tableLine (map cellText (querySelectorAll "TD" row)))
                        (querySelectorAll "TR" node)) +:+
  Js.nl.

End Replacements.

End Reverse.

(** ** The sync engine: [lib/core/confluence-client.js] and [lib/commands/sync.js] *)

Module Sync.

(** *** Data *)

(** The outcome of a call that may throw. *)
Inductive result (A : Type) : Type :=
| Ok (a : A)
| Throw (message : string).
Arguments Ok {A} a.
Arguments Throw {A} message.

(** A page as the REST API returns it ([response.data]); [page_version] is
    [page.version?.number]. *)
Record Page := {
  page_id : string;
  page_title : string;
  page_version : option Z;
  page_body : option string
}.

(** The requests the client sends, as they are logged in the world. *)
Inductive Call :=
| GET_space
| GET_content_search (title : string)
| GET_content (pageId : string) (expand : string)
| GET_child_page (pageId : string)
| POST_content (title content : string) (parent : option string)
| PUT_content (pageId title content : string) (version : Z)
| GET_download (url : string).

(** A record of the sync state ([state.pages[path]]); a field the writer
    left out is [None]. *)
Record PageInfo := {
  confluenceId : option string;
  title : string;
  category : option string;
  slug : option string;
  lastModified : string;
  version : option Z;
  parentId : option string;
  spaceKey : option string
}.

(** A [Date]: its time value in milliseconds, [None] for an invalid date. *)
Definition JsDate : Type := option Z.

(** A document as the scanner yields it. *)
Record Document := {
  relativePath : string;
  filePath : string;
  doc_title : string;
  doc_category : string;
  doc_slug : option string;
  content : string;
  frontmatter : list (string * (string + string));
  doc_lastModified : JsDate;
  hasImages : bool;
  hasMermaid : bool
}.

Record Config := {
  baseUrl : string;
  cfg_spaceKey : string;
  rootPageTitle : option string
}.

(** What the Markdown parser returns. *)
Record Parsed := {
  parsed_title : string;
  parsed_content : string;
  htmlContent : string;
  originalMarkdown : string;
  parsed_frontmatter : list (string * (string + string));
  mermaidStats_processed : option Z
}.

Record Stats := {
  processed : nat;
  created : nat;
  updated : nat;
  skipped : nat;
  failed : nat
}.

Definition Stats_zero : Stats :=
  {| processed := 0; created := 0; updated := 0; skipped := 0; failed := 0 |}.

(** A local file: modification time and content. *)
Record File := {
  mtime : Z;
  data : string
}.

(** *** The world the commands run in

    [server] is everything behind the external collaborators (the remote
    wiki first of all); the other fields are the process's own: the log of
    requests sent, the in-memory sync state, the state manager's counters,
    the command's [stats] object, the local files and the log of
    [fs.writeFile] calls. *)
Record World (S : Type) := {
  server : S;
  calls : list Call;
  pages : gmap string PageInfo;
  sm_stats : Stats;
  stats : Stats;
  files : gmap string File;
  writes : list (string * string)
}.
Arguments server {S} _.
Arguments calls {S} _.
Arguments pages {S} _.
Arguments sm_stats {S} _.
Arguments stats {S} _.
Arguments files {S} _.
Arguments writes {S} _.

(** An external call: it may change the external state and may throw. *)
Definition Ext (S A : Type) : Type := S -> S * result A.

(** A collaborator that also works on the local files: from the external
    state and the files it gives the external state and the files it leaves,
    the [fs.writeFile] calls it made, and its result. *)
Definition FsExt (S A : Type) : Type :=
  S -> gmap string File -> (S * gmap string File * list (string * string)) * result A.

(** The REST endpoints the client uses ([this.api.get/post/put]). *)
Record Api (S : Type) := {
  api_space : Ext S string;
  api_search : string -> Ext S (list Page);
  api_children : string -> Ext S (list Page);
  api_get : string -> string -> Ext S (option Page);
  api_post : string -> string -> option string -> Ext S Page;
  api_put : string -> string -> string -> Z -> Ext S Page;
  api_download : string -> Ext S string
}.
Arguments api_space {S} _.
Arguments api_search {S} _.
Arguments api_children {S} _.
Arguments api_get {S} _.
Arguments api_post {S} _.
Arguments api_put {S} _.
Arguments api_download {S} _.

(** The collaborators of the commands: the configuration loader, the
    scanner, the Markdown parser, the image processor, the persistence of
    the sync state, the pure helpers of Node's [path], [Date] and
    [gray-matter] (which throws on malformed front matter), and the paths
    the local file system lets the process write.

    [convertToMarkdown] is the conversion of the HTML-to-Markdown parser as
    [syncReverse] calls it, on a parser built with the project root alone
    and without the attachments ([Parser.convertToMarkdown] gives its
    steps).  The parser holds neither the state manager nor the client: it
    reaches the external state, where it fetches the images, and the local
    files, where it makes the images directory and writes the image files. *)
Record Env (S : Type) := {
  loadConfig : Ext S Config;
  detectProject : Ext S unit;
  scanDocs : Ext S (list Document);
  parseFile : string -> string -> Ext S Parsed;
  parseMarkdown :
    string -> list (string * (string + string)) -> string -> string -> option string ->
    Ext S Parsed;
  convertToConfluenceFormat : string -> Ext S string;
  cleanup : Ext S unit;
  processImages : string -> string -> string -> string -> string -> Ext S string;
  convertToMarkdown : string -> string -> string -> FsExt S string;
  loadState : Ext S (gmap string PageInfo);
  saveState : gmap string PageInfo -> Ext S unit;
  projectRoot : string;
  path_resolve : string -> string -> string;
  path_relative : string -> string -> string;
  path_join : string -> string -> string;
  now : Z;
  toISO : Z -> string;
  Date_parse : string -> option Z;
  matter : string -> result (list (string * (string + string)));
  writable : string -> bool
}.
Arguments loadConfig {S} _.
Arguments detectProject {S} _.
Arguments scanDocs {S} _.
Arguments parseFile {S} _.
Arguments parseMarkdown {S} _.
Arguments convertToConfluenceFormat {S} _.
Arguments cleanup {S} _.
Arguments processImages {S} _.
Arguments convertToMarkdown {S} _.
Arguments loadState {S} _.
Arguments saveState {S} _.
Arguments projectRoot {S} _.
Arguments path_resolve {S} _.
Arguments path_relative {S} _.
Arguments path_join {S} _.
Arguments now {S} _.
Arguments toISO {S} _.
Arguments Date_parse {S} _.
Arguments matter {S} _.
Arguments writable {S} _.

(** *** The monad: state and exceptions *)

Definition M (S A : Type) : Type := World S -> World S * result A.

#[export] Instance M_ret {S} : MRet (M S) := fun A a w => (w, Ok a).

#[export] Instance M_bind {S} : MBind (M S) := fun A B f m w =>
  match m w with
  | (w', Ok a) => f a w'
  | (w', Throw e) => (w', Throw e)
  end.

(** [throw new Error(message)] *)
Definition throw {S A} (message : string) : M S A := fun w => (w, Throw message).

(** [try { body } catch (error) { handler(error.message) }]: what the body
    did before it threw stays done. *)
Definition try_catch {S A} (body : M S A) (handler : string -> M S A) : M S A := fun w =>
  match body w with
  | (w', Ok a) => (w', Ok a)
  | (w', Throw e) => handler e w'
  end.

Definition gets {S A} (f : World S -> A) : M S A := fun w => (w, Ok (f w)).

Definition modify {S} (f : World S -> World S) : M S unit := fun w => (f w, Ok tt).

Definition set_server {S} (s : S) (w : World S) : World S :=
  {| server := s; calls := calls w; pages := pages w; sm_stats := sm_stats w;
     stats := stats w; files := files w; writes := writes w |}.

Definition set_calls {S} (c : list Call) (w : World S) : World S :=
  {| server := server w; calls := c; pages := pages w; sm_stats := sm_stats w;
     stats := stats w; files := files w; writes := writes w |}.

Definition set_pages {S} (p : gmap string PageInfo) (w : World S) : World S :=
  {| server := server w; calls := calls w; pages := p; sm_stats := sm_stats w;
     stats := stats w; files := files w; writes := writes w |}.

Definition set_sm_stats {S} (s : Stats) (w : World S) : World S :=
  {| server := server w; calls := calls w; pages := pages w; sm_stats := s;
     stats := stats w; files := files w; writes := writes w |}.

Definition set_stats {S} (s : Stats) (w : World S) : World S :=
  {| server := server w; calls := calls w; pages := pages w; sm_stats := sm_stats w;
     stats := s; files := files w; writes := writes w |}.

Definition set_files {S} (f : gmap string File) (l : list (string * string)) (w : World S) : World S :=
  {| server := server w; calls := calls w; pages := pages w; sm_stats := sm_stats w;
     stats := stats w; files := f; writes := l |}.

(** An external collaborator run from the command. *)
Definition lift {S A} (op : Ext S A) : M S A := fun w =>
  let '(s', r) := op (server w) in (set_server s' w, r).

(** A collaborator that works on the local files, run from the command:
    the files are what it leaves, its writes come after those made so far. *)
Definition liftFs {S A} (op : FsExt S A) : M S A := fun w =>
  let '(s', files', written, r) := op (server w) (files w) in
  (set_server s' (set_files files' (writes w ++ written) w), r).

(** A request of the client: logged, then sent. *)
Definition request {S A} (c : Call) (op : Ext S A) : M S A := fun w =>
  let '(s', r) := op (server w) in (set_server s' (set_calls (calls w ++ [c]) w), r).

(** A pure helper that may throw. *)
Definition fromResult {S A} (r : result A) : M S A :=
  match r with
  | Ok a => mret a
  | Throw e => throw e
  end.

(** [stats.field++] on the command's [stats] object. *)
Definition incr (field : string) (s : Stats) : Stats :=
  {| processed := processed s + (if String.eqb field "processed" then 1 else 0);
     created := created s + (if String.eqb field "created" then 1 else 0);
     updated := updated s + (if String.eqb field "updated" then 1 else 0);
     skipped := skipped s + (if String.eqb field "skipped" then 1 else 0);
     failed := failed s + (if String.eqb field "failed" then 1 else 0) |}%nat.

Definition stats_incr {S} (field : string) : M S unit :=
  modify (fun w => set_stats (incr field (stats w)) w).

Section Commands.

Context {S : Type} (api : Api S) (env : Env S).

(** *** The state manager ([lib/core/state-manager.js], not available) *)

(** Modelled from the spec: the state manager's source is missing; the
    ledger is "a single structured document (object keyed by path) loaded at
    run start", so [init] and [loadState] replace the in-memory pages by what
    the store holds. *)
Definition stateManager_init : M S unit :=
  loaded ← lift (loadState env);
  modify (set_pages loaded).

(** Modelled from the spec: [needsPush] of the missing state manager is
    "true if no SyncRecord exists for [path], or if [currentFingerprint]
    differs from [lastSyncedFingerprint]"; the fingerprint the callers pass
    is the document's modification date, stored in ISO form. *)
Definition needsSync (path : string) (modified : JsDate) : M S bool :=
  gets (fun w =>
    match pages w !! path with
    | None => true
    | Some record =>
        match modified with
        | Some t => negb (String.eqb (toISO env t) (lastModified record))
        | None => true
        end
    end).

(** Modelled from the spec: the version that an upsert "never decreasing
    [remoteVersion]" keeps is the greater of the recorded version and the
    new one; a version that is left out is below every version. *)
Definition laterVersion (recorded new : option Z) : option Z :=
  match recorded, new with
  | Some a, Some b => Some (Z.max a b)
  | Some a, None => Some a
  | None, _ => new
  end.

(** Modelled from the spec: the record that the upsert stores is the one
    the caller built, with the version that the upsert keeps. *)
Definition upsert (recorded : option PageInfo) (record : PageInfo) : PageInfo :=
  match recorded with
  | Some previous =>
      {| confluenceId := confluenceId record;
         title := title record;
         category := category record;
         slug := slug record;
         lastModified := lastModified record;
         version := laterVersion (version previous) (version record);
         parentId := parentId record;
         spaceKey := spaceKey record |}
  | None => record
  end.

(** Modelled from the spec: [setPageState] of the missing state manager is
    the spec's [recordPush] on the "object keyed by path": "upsert, never
    decreasing [remoteVersion]". *)
Definition setPageState (path : string) (record : PageInfo) : M S unit :=
  modify (fun w => set_pages (<[path := upsert (pages w !! path) record]> (pages w)) w).

(** Modelled from the spec: [getAllPages] of the missing state manager
    returns the records of the ledger. *)
Definition getAllPages : M S (gmap string PageInfo) := gets pages.

(** Modelled from the spec: [resetStats] and [updateStats] of the missing
    state manager keep the run's counters. *)
Definition resetStats : M S unit := modify (set_sm_stats Stats_zero).

(** Modelled from the spec: [updateStats] of the missing state manager adds
    one to a counter of the run. *)
Definition updateStats (field : string) : M S unit :=
  modify (fun w => set_sm_stats (incr field (sm_stats w)) w).

(** Modelled from the spec: [findOrphans] of the missing state manager is
    "SyncRecords whose path is absent from [currentPaths]", and a record is
    "removed when local cleanup detects an orphan". *)
Definition findOrphans (currentPaths : list string) (ledger : gmap string PageInfo) : list string :=
  List.filter (fun path => negb (Js.array_includes currentPaths path)) (map fst (map_to_list ledger)).

(** Modelled from the spec: [cleanupOrphanedPages] of the missing state
    manager removes the orphans' records and saves the ledger. *)
Definition cleanupOrphanedPages (existingFiles : list string) : M S unit :=
  ledger ← gets pages;
  _ ← modify (set_pages (foldr delete ledger (findOrphans existingFiles ledger)));
  kept ← gets pages;
  lift (saveState env kept).

(** [document.lastModified.toISOString()]: a [RangeError] on an invalid date. *)
Definition toISOString (d : JsDate) : M S string :=
  match d with
  | Some t => mret (toISO env t)
  | None => throw "Invalid time value"
  end.

(** *** The local file system ([fs-extra]) *)

Definition pathExists (path : string) : M S bool :=
  gets (fun w => bool_decide (is_Some (files w !! path))).

Definition readFile (path : string) : M S string := fun w =>
  match files w !! path with
  | Some f => (w, Ok (data f))
  | None => (w, Throw "ENOENT: no such file or directory")
  end.

Definition stat_mtime (path : string) : M S Z := fun w =>
  match files w !! path with
  | Some f => (w, Ok (mtime f))
  | None => (w, Throw "ENOENT: no such file or directory")
  end.

Definition writeFile (path : string) (text : string) : M S unit := fun w =>
  if writable env path
  then (set_files (<[path := {| mtime := now env; data := text |}]> (files w))
                  (writes w ++ [(path, text)]) w,
        Ok tt)
  else (w, Throw "EACCES: permission denied").

(** *** The Confluence client ([lib/core/confluence-client.js]) *)

Section Client.

Variable config : Config.

Definition testConnection : M S bool :=
  try_catch (_ ← request GET_space (api_space api); mret true)
            (fun _ => mret false).

Definition findPageByTitle (title : string) : M S (option Page) :=
  try_catch
    (results ← request (GET_content_search title) (api_search api title);
     mret (if (0 <? length results)%nat then head results else None))
    (fun _ => mret None).

Definition createPage (title content : string) (parent : option string) : M S Page :=
  let ancestors := if Js.truthy_opt parent then parent else None in
  request (POST_content title content ancestors) (api_post api title content ancestors).

Definition updatePage (pageId title content : string) (version : Z) : M S Page :=
  request (PUT_content pageId title content version) (api_put api pageId title content version).

Definition dq : string := String (ascii_of_nat 34) EmptyString.

Definition createOrUpdatePage (title content : string) (parent : option string) : M S Page :=
  try_catch
    (existingPage ← findPageByTitle title;
     match existingPage with
     | Some existing =>
         let version := Js.or1 (page_version existing) in
         updatePage (page_id existing) title content (version + 1)
     | None => createPage title content parent
     end)
    (fun message =>
       throw ("Failed to sync page " +:+ dq +:+ title +:+ dq +:+ ": " +:+ message)).

Definition getPageById (pageId : string) (expand : option string) : M S (option Page) :=
  let expand := Js.or_else expand "body.storage,version" in
  try_catch
    (request (GET_content pageId expand) (api_get api pageId expand))
    (fun _ => throw ("Could not fetch page with ID " +:+ pageId +:+ ".")).

Definition getRootPage : M S (option Page) :=
  if Js.truthy_opt (rootPageTitle config)
  then findPageByTitle (Js.or_else (rootPageTitle config) "")
  else mret None.

Definition getPageChildren (pageId : string) : M S (list Page) :=
  try_catch (request (GET_child_page pageId) (api_children api pageId))
            (fun _ => mret []).

Definition findPageByTitleAndParent (title : string) (parent : option string) : M S (option Page) :=
  try_catch
    (match parent with
     | Some p =>
         if Js.truthy p
         then
           children ← getPageChildren p;
           mret (List.find (fun child => String.eqb (page_title child) title) children)
         else findPageByTitle title
     | None => findPageByTitle title
     end)
    (fun _ => mret None).

Definition formatCategoryTitle (segment : string) : string :=
  Js.upper_at_boundaries false (Js.replace_char "-" " " segment).

(** The placeholder body of a container page. *)
Definition containerContent (title pathSoFar : string) : string :=
  "<p>This page contains documentation for <strong>" +:+ title +:+ "</strong>.</p>" +:+
  Js.nl +:+ "                   <p><em>Category path: " +:+ pathSoFar +:+ "</em></p>".

(** The [for ... of segments.entries()] loop of [findOrCreateParentPage]. *)
Fixpoint walkSegments (segments : list string) (currentParentId : option string)
    (pathSoFar : string) : M S (option string) :=
  match segments with
  | [] => mret currentParentId
  | segment :: rest =>
      let pathSoFar :=
        if Js.truthy pathSoFar then pathSoFar +:+ "/" +:+ segment else segment in
      let title := formatCategoryTitle segment in
      found ← findPageByTitleAndParent title currentParentId;
      page ← match found with
             | Some page => mret page
             | None => createOrUpdatePage title (containerContent title pathSoFar) currentParentId
             end;
      walkSegments rest (Some (page_id page)) pathSoFar
  end.

Definition findOrCreateParentPage (categoryPath : string) (rootParentId : option string)
    : M S (option string) :=
  if negb (Js.truthy categoryPath) then mret rootParentId
  else walkSegments (Js.filter_Boolean (Js.split "/" categoryPath)) rootParentId "".

Definition getAttachmentDownloadUrl (download : option string) : option string :=
  match download with
  | Some downloadPath =>
      if Js.truthy downloadPath
      then Some (baseUrl config +:+ "/wiki/" +:+ downloadPath)
      else None
  | None => None
  end.

Definition downloadAttachment (downloadUrl : string) : M S string :=
  try_catch (request (GET_download downloadUrl) (api_download api downloadUrl))
            (fun message => throw ("Could not download attachment: " +:+ message)).

End Client.

(** *** [syncDocs] ([lib/commands/sync.js]) *)

Record Summary := {
  success : bool;
  sum_processed : nat;
  sum_created : option nat;
  sum_updated : nat;
  sum_skipped : nat;
  sum_failed : option nat
}.

(** [[...new Set(xs)]]: the first occurrence of each value, in order. *)
Fixpoint new_Set (xs : list string) : list string :=
  match xs with
  | [] => []
  | x :: rest => x :: List.filter (fun y => negb (String.eqb y x)) (new_Set rest)
  end.

Definition categoriesOf (documents : list Document) : list string :=
  new_Set (Js.filter_Boolean (map doc_category documents)).

(** Step 8: the loop that fills [hierarchyMap]. *)
Fixpoint buildHierarchy (categories : list string) (rootParent : option string)
    (hierarchyMap : gmap string (option string)) : M S (gmap string (option string)) :=
  match categories with
  | [] => mret hierarchyMap
  | category :: rest =>
      if bool_decide (is_Some (hierarchyMap !! category))
      then buildHierarchy rest rootParent hierarchyMap
      else
        categoryParentId ← findOrCreateParentPage category rootParent;
        buildHierarchy rest rootParent (<[category := categoryParentId]> hierarchyMap)
  end.

(** [document.category ? hierarchyMap.get(document.category) : parentId] *)
Definition documentParent (hierarchyMap : gmap string (option string)) (rootParent : option string)
    (document : Document) : option string :=
  if Js.truthy (doc_category document)
  then mjoin (hierarchyMap !! doc_category document)
  else rootParent.

(** [finalParsedContent.mermaidStats?.processed > 0] *)
Definition mermaidProcessed (parsed : Parsed) : bool :=
  match mermaidStats_processed parsed with
  | Some n => 0 <? n
  | None => false
  end.

(** The second write of a document with media (lines 319-344). *)
Definition processMedia (config : Config) (document : Document) (parsedContent : Parsed)
    (result : Page) : M S unit :=
  finalParsedContent ←
    lift (parseMarkdown env (content document) (frontmatter document) (filePath document)
            (baseUrl config) (Some (page_id result)));
  contentWithImages ←
    lift (processImages env (page_id result) (originalMarkdown finalParsedContent)
            (htmlContent finalParsedContent) (filePath document) (baseUrl config));
  if negb (String.eqb contentWithImages (htmlContent parsedContent))
     || mermaidProcessed finalParsedContent
  then
    finalContent ← lift (convertToConfluenceFormat env contentWithImages);
    let version := Js.or1 (page_version result) in
    _ ← updatePage (page_id result) (page_title result) finalContent (version + 1);
    mret tt
  else mret tt.

(** The [try] block of the loop over the documents (lines 270-371). *)
Definition documentBody (dryRun : bool) (config : Config) (rootParent : option string)
    (hierarchyMap : gmap string (option string)) (document : Document) : M S unit :=
  needs ← (if dryRun then mret true
           else needsSync (relativePath document) (doc_lastModified document));
  if negb dryRun && negb needs
  then
    _ ← stats_incr "skipped";
    updateStats "skipped"
  else if dryRun
  then
    _ ← toISOString (doc_lastModified document);
    stats_incr "processed"
  else
    parsedContent ←
      lift (parseMarkdown env (content document) (frontmatter document) (filePath document)
              (baseUrl config) None);
    let documentParentId := documentParent hierarchyMap rootParent document in
    result ← createOrUpdatePage (doc_title document) (parsed_content parsedContent) documentParentId;
    let isNewPage := bool_decide (page_version result = Some 1) in
    _ ← (if hasImages document || hasMermaid document
         then processMedia config document parsedContent result
         else mret tt);
    _ ← lift (cleanup env);
    modified ← toISOString (doc_lastModified document);
    _ ← setPageState (relativePath document)
          {| confluenceId := Some (page_id result);
             title := doc_title document;
             category := Some (doc_category document);
             slug := doc_slug document;
             lastModified := modified;
             version := None;
             parentId := documentParentId;
             spaceKey := Some (cfg_spaceKey config) |};
    _ ← (if isNewPage
         then _ ← stats_incr "created"; updateStats "created"
         else _ ← stats_incr "updated"; updateStats "updated");
    stats_incr "processed".

(** One turn of the loop: the [try] block and its [catch]. *)
Definition processDocument (dryRun : bool) (config : Config) (rootParent : option string)
    (hierarchyMap : gmap string (option string)) (document : Document) : M S unit :=
  try_catch (documentBody dryRun config rootParent hierarchyMap document)
            (fun _ => _ ← stats_incr "failed"; updateStats "failed").

(** Step 9: the loop over the documents. *)
Fixpoint processDocuments (dryRun : bool) (config : Config) (rootParent : option string)
    (hierarchyMap : gmap string (option string)) (documents : list Document) : M S unit :=
  match documents with
  | [] => mret tt
  | document :: rest =>
      _ ← processDocument dryRun config rootParent hierarchyMap document;
      processDocuments dryRun config rootParent hierarchyMap rest
  end.

(** Step 10: saving the state, skipped in a dry run. *)
Definition saveAndCleanup (dryRun : bool) (documents : list Document) : M S unit :=
  if negb dryRun
  then
    ledger ← gets pages;
    _ ← lift (saveState env ledger);
    cleanupOrphanedPages (map relativePath documents)
  else mret tt.

(** Step 11: the summary printed and returned. *)
Definition summaryOf (s : Stats) : Summary :=
  {| success := true;
     sum_processed := processed s;
     sum_created := Some (created s);
     sum_updated := updated s;
     sum_skipped := skipped s;
     sum_failed := Some (failed s) |}.

(** Steps 9 to 11. *)
Definition syncDocuments (dryRun : bool) (config : Config) (rootParent : option string)
    (hierarchyMap : gmap string (option string)) (documents : list Document) : M S Summary :=
  _ ← modify (set_stats Stats_zero);
  _ ← processDocuments dryRun config rootParent hierarchyMap documents;
  _ ← saveAndCleanup dryRun documents;
  s ← gets stats;
  mret (summaryOf s).

(** Step 6. *)
Definition findRootParent (config : Config) : M S (option string) :=
  if Js.truthy_opt (rootPageTitle config)
  then
    rootPage ← getRootPage config;
    mret (page_id <$> rootPage)
  else mret None.

(** The whole command; its outer [catch] reports the error and throws it
    again. *)
Definition syncDocs (dryRun : bool) : M S Summary :=
  confluenceConfig ← lift (loadConfig env);
  _ ← stateManager_init;
  _ ← lift (detectProject env);
  documents ← lift (scanDocs env);
  if (length documents =? 0)%nat
  then mret {| success := true; sum_processed := 0; sum_created := Some 0%nat;
               sum_updated := 0; sum_skipped := 0; sum_failed := None |}
  else
    connected ← testConnection;
    if negb connected then throw "Failed to connect to Confluence"
    else
      rootParent ← findRootParent confluenceConfig;
      _ ← resetStats;
      hierarchyMap ←
        buildHierarchy (categoriesOf documents) rootParent ∅;
      syncDocuments dryRun confluenceConfig rootParent hierarchyMap documents.

(** *** [syncFile] ([lib/commands/sync.js]) *)

Record FileResult := {
  action : string;
  res_pageId : option string;
  res_title : string
}.

(** [s.endsWith('.md')] *)
Definition endsWith_md (s : string) : bool :=
  let n := String.length s in
  (3 <=? n)%nat && String.eqb (String.substring (n - 3) 3 s) ".md".

(** Step 8 and the recording of the page (lines 99-176), from the page that
    [createOrUpdatePage] returned in step 7. *)
Definition recordFile (config : Config) (absolutePath : string) (rootParent : option string)
    (parsedContent : Parsed) (result : Page) : M S FileResult :=
  finalParsedContent ←
    lift (parseMarkdown env (originalMarkdown parsedContent) (parsed_frontmatter parsedContent)
            absolutePath (baseUrl config) (Some (page_id result)));
  contentWithImages ←
    lift (processImages env (page_id result) (originalMarkdown finalParsedContent)
            (htmlContent finalParsedContent) absolutePath (baseUrl config));
  _ ← (if negb (String.eqb contentWithImages (htmlContent parsedContent))
          || mermaidProcessed finalParsedContent
       then
         _ ← (if negb (String.eqb contentWithImages (htmlContent finalParsedContent))
              then _ ← lift (convertToConfluenceFormat env contentWithImages); mret tt
              else mret tt);
         let finalContent := parsed_content finalParsedContent in
         let version := Js.or1 (page_version result) in
         _ ← updatePage (page_id result) (page_title result) finalContent (version + 1);
         mret tt
       else mret tt);
  _ ← lift (cleanup env);
  let relativeFilePath :=
    Js.replace_char "\" "/" (path_relative env (projectRoot env) absolutePath) in
  _ ← setPageState relativeFilePath
        {| confluenceId := Some (page_id result);
           title := page_title result;
           category := None;
           slug := None;
           lastModified := toISO env (now env);
           version := Some (Js.or1 (page_version result));
           parentId := rootParent;
           spaceKey := None |};
  ledger ← gets pages;
  _ ← lift (saveState env ledger);
  mret {| action := if bool_decide (page_version result = Some 1) then "created" else "updated";
          res_pageId := Some (page_id result);
          res_title := page_title result |}.

Definition syncFile (file : string) (dryRun : bool) : M S FileResult :=
  confluenceConfig ← lift (loadConfig env);
  let absolutePath := path_resolve env (projectRoot env) file in
  present ← pathExists absolutePath;
  if negb present then throw ("File không tồn tại: " +:+ file)
  else if negb (endsWith_md file) then throw ("File phải có extension .md: " +:+ file)
  else
    _ ← stateManager_init;
    parsedContent ← lift (parseFile env absolutePath (baseUrl confluenceConfig));
    connected ← testConnection;
    if negb connected then throw "Failed to connect to Confluence"
    else
      rootParent ← findRootParent confluenceConfig;
      if dryRun
      then mret {| action := "preview"; res_pageId := None;
                   res_title := parsed_title parsedContent |}
      else
        result ← createOrUpdatePage (parsed_title parsedContent) (parsed_content parsedContent)
                   rootParent;
        recordFile confluenceConfig absolutePath rootParent parsedContent result.

(** *** [syncReverse] ([lib/commands/sync.js]) *)

(** One line of the rebuilt front matter (lines 612-618); [inr] carries the
    [JSON.stringify] text of a value that is not a string. *)
Definition frontmatterLine (entry : string * (string + string)) : string :=
  match entry with
  | (key, inl value) => key +:+ ": " +:+ dq +:+ value +:+ dq +:+ Js.nl
  | (key, inr json) => key +:+ ": " +:+ json +:+ Js.nl
  end.

Definition renderFrontmatter (fm : list (string * (string + string))) : string :=
  if (0 <? length fm)%nat
  then "---" +:+ Js.nl +:+ String.concat "" (map frontmatterLine fm) +:+ "---" +:+ Js.nl +:+ Js.nl
  else "".

(** The [try] block of the loop over the tracked pages (lines 564-644).
    The conversion runs before the test of [dryRun]. *)
Definition reverseBody (dryRun : bool) (path : string) (pageInfo : PageInfo) (pageId : string)
    : M S unit :=
  confluencePage ← getPageById pageId (Some "body.storage,version");
  match confluencePage with
  | None => stats_incr "skipped"
  | Some page =>
      let lastSyncVersion := Js.or1 (version pageInfo) in
      let currentVersion := Js.or1 (page_version page) in
      if currentVersion <=? lastSyncVersion
      then stats_incr "skipped"
      else
        let confluenceContent := Js.or_else (page_body page) "" in
        let absoluteFilePath := path_resolve env (projectRoot env) path in
        present ← pathExists absoluteFilePath;
        if negb present
        then stats_incr "skipped"
        else
          originalContent ← readFile absoluteFilePath;
          fm ← fromResult (matter env originalContent);
          markdownContent ←
            liftFs (convertToMarkdown env confluenceContent pageId absoluteFilePath);
          let newContent := renderFrontmatter fm +:+ markdownContent in
          _ ← stats_incr "processed";
          if dryRun
          then stats_incr "skipped"
          else
            _ ← writeFile absoluteFilePath newContent;
            _ ← setPageState path
                  {| confluenceId := confluenceId pageInfo;
                     title := title pageInfo;
                     category := category pageInfo;
                     slug := slug pageInfo;
                     lastModified := toISO env (now env);
                     version := Some currentVersion;
                     parentId := parentId pageInfo;
                     spaceKey := spaceKey pageInfo |};
            stats_incr "updated"
  end.

(** One turn of the loop: the guard on [confluenceId], the [try] block and
    its [catch]. *)
Definition reverseEntry (dryRun : bool) (entry : string * PageInfo) : M S unit :=
  let '(path, pageInfo) := entry in
  match confluenceId pageInfo with
  | Some pageId =>
      if Js.truthy pageId
      then try_catch (reverseBody dryRun path pageInfo pageId)
                     (fun _ => stats_incr "skipped")
      else mret tt
  | None => mret tt
  end.

Fixpoint reverseEntries (dryRun : bool) (allPages : list (string * PageInfo)) : M S unit :=
  match allPages with
  | [] => mret tt
  | entry :: rest => _ ← reverseEntry dryRun entry; reverseEntries dryRun rest
  end.

Definition syncReverse (dryRun : bool) : M S Summary :=
  confluenceConfig ← lift (loadConfig env);
  _ ← stateManager_init;
  connected ← testConnection;
  if negb connected then throw "Failed to connect to Confluence"
  else
    _ ← lift (detectProject env);
    tracked ← getAllPages;
    if (size tracked =? 0)%nat
    then mret {| success := true; sum_processed := 0; sum_created := None;
                 sum_updated := 0; sum_skipped := 0; sum_failed := None |}
    else
      let allPages := map_to_list tracked in
      _ ← modify (set_stats Stats_zero);
      _ ← resetStats;
      _ ← reverseEntries dryRun allPages;
      ledger ← gets pages;
      _ ← lift (saveState env ledger);
      s ← gets stats;
      mret {| success := true; sum_processed := processed s; sum_created := None;
              sum_updated := updated s; sum_skipped := skipped s; sum_failed := None |}.

(** *** Attachments of the reverse transformer
        ([lib/core/html-to-markdown-parser.js], lines 440-490) *)

(** An attachment as [getPageAttachments] returns it. *)
Record Attachment := {
  att_id : option string;
  att_title : option string;
  version_when : option string;
  metadata_createdDate : option string;
  links_download : option string
}.

Record ProcessedImage := {
  img_relativePath : string;
  img_alt : string
}.

(** [filename.replace(/[^a-zA-Z0-9.-]/g, '_')] *)
Fixpoint safeName (s : string) : string :=
  match s with
  | EmptyString => EmptyString
  | String a s' =>
      String (if Js.is_lower a || Js.is_upper a || Js.is_digit a
                 || Ascii.eqb a "." || Ascii.eqb a "-"
              then a else "_"%char)
             (safeName s')
  end.

(** [new Date(attachment.version?.when || attachment.metadata?.createdDate || 0)] *)
Definition attachmentDate (attachment : Attachment) : JsDate :=
  if Js.truthy_opt (version_when attachment)
  then Date_parse env (Js.or_else (version_when attachment) "")
  else if Js.truthy_opt (metadata_createdDate attachment)
  then Date_parse env (Js.or_else (metadata_createdDate attachment) "")
  else Some 0.

(** [stats.mtime >= attachmentDate]: false when the date is invalid. *)
Definition notOlder (fileTime : Z) (date : JsDate) : bool :=
  match date with
  | Some d => d <=? fileTime
  | None => false
  end.

(** [confluenceClient] is the parser's client: its configuration, or
    [None] when the parser was built without one. *)
Definition downloadAndSaveAttachment (confluenceClient : option Config) (attachment : Attachment)
    (filename imagesDir : string) : M S (option ProcessedImage) :=
  try_catch
    (match confluenceClient with
     | None => mret None
     | Some client =>
         let safeFilename := safeName filename in
         let imagePath := path_join env imagesDir safeFilename in
         let imageRelativePath := "images/" +:+ safeFilename in
         let image :=
           {| img_relativePath := imageRelativePath;
              img_alt := Js.or_else (att_title attachment) filename |} in
         present ← pathExists imagePath;
         recent ← (if present : bool
                   then fileTime ← stat_mtime imagePath;
                        mret (notOlder fileTime (attachmentDate attachment))
                   else mret false);
         if recent : bool then mret (Some image)
         else
           match getAttachmentDownloadUrl client (links_download attachment) with
           | None => mret None
           | Some downloadUrl =>
               buffer ← downloadAttachment downloadUrl;
               _ ← writeFile imagePath buffer;
               mret (Some image)
           end
     end)
    (fun _ => mret None).

End Commands.

End Sync.

(** ** An in-memory wiki

    The remote backend of the examples, in the manner of the mock clients of
    the project's tests: a page that was created is found by the later
    searches, a new page has version 1, an update stores the version it is
    sent. *)

Module MemWiki.
Import Sync.

Record Entry := {
  entry_page : Page;
  entry_parent : option string
}.

Definition Wiki : Type := list Entry.

Definition hasTitle (t : string) (e : Entry) : bool :=
  String.eqb (page_title (entry_page e)) t.

Definition hasId (i : string) (e : Entry) : bool :=
  String.eqb (page_id (entry_page e)) i.

Definition childOf (parent : string) (e : Entry) : bool :=
  match entry_parent e with
  | Some p => String.eqb p parent
  | None => false
  end.

(** The identifier given to the next page: [p0], [p1], ... *)
Definition nextId (w : Wiki) : string :=
  String "p" (NilZero.string_of_uint (Nat.to_uint (length w))).

Definition space : Ext Wiki string := fun w => (w, Ok "Documentation").

Definition search (t : string) : Ext Wiki (list Page) := fun w =>
  (w, Ok (map entry_page (List.filter (hasTitle t) w))).

Definition children (parent : string) : Ext Wiki (list Page) := fun w =>
  (w, Ok (map entry_page (List.filter (childOf parent) w))).

Definition get (i expand : string) : Ext Wiki (option Page) := fun w =>
  match List.find (hasId i) w with
  | Some e => (w, Ok (Some (entry_page e)))
  | None => (w, Throw "Request failed with status code 404")
  end.

Definition post (t body : string) (parent : option string) : Ext Wiki Page := fun w =>
  let page := {| page_id := nextId w; page_title := t;
                 page_version := Some 1; page_body := Some body |} in
  (w ++ [{| entry_page := page; entry_parent := parent |}], Ok page).

Definition put (i t body : string) (v : Z) : Ext Wiki Page := fun w =>
  let page := {| page_id := i; page_title := t;
                 page_version := Some v; page_body := Some body |} in
  match List.find (hasId i) w with
  | Some _ =>
      (map (fun e => if hasId i e
                     then {| entry_page := page; entry_parent := entry_parent e |}
                     else e) w,
       Ok page)
  | None => (w, Throw "Request failed with status code 404")
  end.

Definition download (url : string) : Ext Wiki string := fun w => (w, Ok "image-data").

Definition api : Api Wiki :=
  {| api_space := space;
     api_search := search;
     api_children := children;
     api_get := get;
     api_post := post;
     api_put := put;
     api_download := download |}.

(** The other collaborators of the examples: a parser that takes the
    Markdown as the page content (and fails on the content [BROKEN]), no
    media, a store that keeps nothing between runs. *)
Definition exampleConfig : Config :=
  {| baseUrl := "https://example.atlassian.net"; cfg_spaceKey := "DOC"; rootPageTitle := None |}.

Definition exampleParse (title text : string) : Ext Wiki Parsed := fun w =>
  if String.eqb text "BROKEN" then (w, Throw "cannot parse")
  else (w, Ok {| parsed_title := title; parsed_content := text; htmlContent := text;
                 originalMarkdown := text; parsed_frontmatter := [];
                 mermaidStats_processed := None |}).

Definition exampleEnv (documents : list Document) (stored : gmap string PageInfo) : Env Wiki :=
  {| loadConfig := fun w => (w, Ok exampleConfig);
     detectProject := fun w => (w, Ok tt);
     scanDocs := fun w => (w, Ok documents);
     parseFile := fun path _ => exampleParse "New Title" "text";
     parseMarkdown := fun text _ _ _ _ => exampleParse "" text;
     convertToConfluenceFormat := fun html w => (w, Ok html);
     cleanup := fun w => (w, Ok tt);
     processImages := fun _ _ html _ _ w => (w, Ok html);
     convertToMarkdown := fun storage _ _ w local => ((w, local, []), Ok storage);
     loadState := fun w => (w, Ok stored);
     saveState := fun _ w => (w, Ok tt);
     projectRoot := "/site";
     path_resolve := fun root path => root +:+ "/" +:+ path;
     path_relative := fun root path =>
       String.substring (String.length root + 1)
                        (String.length path - (String.length root + 1)) path;
     path_join := fun dir name => dir +:+ "/" +:+ name;
     now := 1000;
     toISO := fun t => NilZero.string_of_int (Z.to_int t);
     Date_parse := fun s => Z.of_int <$> NilZero.int_of_string s;
     matter := fun _ => Ok [];
     writable := fun _ => true |}.

(** A conversion that finds one image in the page and writes it into the
    images directory beside the target file. *)
Definition convertWithImage (storage pageId target : string) : FsExt Wiki string :=
  fun w local =>
    let image := "/site/docs/images/figure.png" in
    ((w, <[image := {| mtime := 1000; data := "image-data" |}]> local, [(image, "image-data")]),
     Ok storage).

(** The environment of the examples with that conversion. *)
Definition imagesEnv (documents : list Document) (stored : gmap string PageInfo) : Env Wiki :=
  let e := exampleEnv documents stored in
  {| loadConfig := loadConfig e;
     detectProject := detectProject e;
     scanDocs := scanDocs e;
     parseFile := parseFile e;
     parseMarkdown := parseMarkdown e;
     convertToConfluenceFormat := convertToConfluenceFormat e;
     cleanup := cleanup e;
     processImages := processImages e;
     convertToMarkdown := convertWithImage;
     loadState := loadState e;
     saveState := saveState e;
     projectRoot := projectRoot e;
     path_resolve := path_resolve e;
     path_relative := path_relative e;
     path_join := path_join e;
     now := now e;
     toISO := toISO e;
     Date_parse := Date_parse e;
     matter := matter e;
     writable := writable e |}.

Definition emptyWorld (w : Wiki) : World Wiki :=
  {| server := w; calls := []; pages := ∅; sm_stats := Stats_zero; stats := Stats_zero;
     files := ∅; writes := [] |}.

Definition exampleDocument (path category text : string) : Document :=
  {| relativePath := path; filePath := "/site/" +:+ path; doc_title := path;
     doc_category := category; doc_slug := None; content := text; frontmatter := [];
     doc_lastModified := Some 500; hasImages := false; hasMermaid := false |}.

End MemWiki.

(** ** The reference index ([lib/core/reference-processor.js], not available) *)

Module RefIndex.
Import Sync.

Section Index.

(** The URL encoding of a page title, the base URL and the space key of the
    configuration, and the records of the sync state. *)
Variable urlEncode : string -> string.
Variable baseUrl : string.
Variable spaceKey : string.
Variable records : gmap string PageInfo.

(** Modelled from the spec: the reference processor's source is missing.  A
    token carries "an optional [#anchor] suffix": the part before the first
    [#], and the rest with its [#]. *)
Fixpoint splitAnchor (token : string) : string * string :=
  match token with
  | EmptyString => (EmptyString, EmptyString)
  | String a rest =>
      if Ascii.eqb a "#" then (EmptyString, token)
      else let '(path, anchor) := splitAnchor rest in (String a path, anchor)
  end.

(** Modelled from the spec: the reference processor's source is missing.
    "Normalize the token against [sourceDocumentPath]'s directory to produce
    a canonical repo-relative path": [.] segments are dropped and [..]
    segments remove the segment before them. *)
Fixpoint normalizeSegments (done : list string) (segments : list string) : list string :=
  match segments with
  | [] => rev done
  | segment :: rest =>
      if String.eqb segment "." || String.eqb segment "" then normalizeSegments done rest
      else if String.eqb segment ".." then normalizeSegments (tail done) rest
      else normalizeSegments (segment :: done) rest
  end.

Definition dirSegments (sourceDocumentPath : string) : list string :=
  removelast (Js.split "/" sourceDocumentPath).

(** Modelled from the spec: the reference processor's source is missing.
    "Strip known documentation-root prefixes for absolute tokens": an
    absolute token is read from the repository root, under [docs]. *)
Definition canonicalPath (path sourceDocumentPath : string) : string :=
  if Js.startsWith "/" path
  then
    let segments := normalizeSegments [] (Js.split "/" path) in
    Js.join "/" (match segments with
                 | first :: _ => if String.eqb first "docs" then segments else "docs" :: segments
                 | [] => ["docs"]
                 end)
  else Js.join "/" (normalizeSegments [] (dirSegments sourceDocumentPath ++ Js.split "/" path)).

Definition toLowerCase_char (a : ascii) : ascii :=
  if Js.is_upper a then ascii_of_nat (nat_of_ascii a + 32) else a.

Fixpoint toLowerCase (s : string) : string :=
  match s with
  | EmptyString => EmptyString
  | String a rest => String (toLowerCase_char a) (toLowerCase rest)
  end.

Fixpoint dropDigits (s : string) : string :=
  match s with
  | String a rest => if Js.is_digit a then dropDigits rest else s
  | EmptyString => EmptyString
  end.

(** Modelled from the spec: the reference processor's source is missing.
    The "filename-stem" of a path, "case-insensitive, ignoring numeric
    ordering prefixes": the last segment up to its first dot, in lower
    case, without leading digits and the dash or underscore after them. *)
Definition stem (path : string) : string :=
  let name := List.last (Js.split "/" path) "" in
  let base := toLowerCase (List.hd "" (Js.split "." name)) in
  match dropDigits base with
  | String a rest =>
      if (Ascii.eqb a "-" || Ascii.eqb a "_") && negb (String.eqb (dropDigits base) base)
      then rest else dropDigits base
  | EmptyString => base
  end.

(** Modelled from the spec: the reference processor's source is missing.
    "Look up the SyncRecord; if absent, apply a fallback fuzzy match by
    filename-stem across all known SyncRecords before declaring NotFound." *)
Definition lookupRecord (path : string) : option PageInfo :=
  match records !! path with
  | Some record => Some record
  | None =>
      snd <$> List.find (fun entry => String.eqb (stem (fst entry)) (stem path))
                        (map_to_list records)
  end.

Record ReferenceTarget := {
  remotePageId : string;
  targetTitle : string;
  anchor : string
}.

(** Modelled from the spec: the reference processor's source is missing.
    "[resolve(linkToken, sourceDocumentPath)] → ReferenceTarget | NotFound",
    the target being "a [(remotePageId, title, anchor?)] tuple". *)
Definition resolve (linkToken sourceDocumentPath : string) : option ReferenceTarget :=
  let '(path, anchor) := splitAnchor linkToken in
  record ← lookupRecord (canonicalPath path sourceDocumentPath);
  pageId ← confluenceId record;
  Some {| remotePageId := pageId; targetTitle := title record; anchor := anchor |}.

(** Modelled from the spec: the reference processor's source is missing.
    "Output URL format is fixed:
    [{baseUrl}/wiki/spaces/{spaceKey}/pages/{pageId}/{urlEncodedTitle}{#anchor}]". *)
Definition targetUrl (target : ReferenceTarget) : string :=
  baseUrl +:+ "/wiki/spaces/" +:+ spaceKey +:+ "/pages/" +:+ remotePageId target +:+ "/" +:+
  urlEncode (targetTitle target) +:+ anchor target.

(** Modelled from the spec: the reference processor's source is missing.
    The rewritten URL of a link; "on NotFound, the caller must leave the
    original link unmodified" ([None]). *)
Definition rewriteLink (linkToken sourceDocumentPath : string) : option string :=
  targetUrl <$> resolve linkToken sourceDocumentPath.

End Index.

(** The encoding of the examples: a space becomes [+]. *)
Definition plusEncode (s : string) : string := Js.replace_char " " "+" s.

Definition exampleRecords : gmap string PageInfo :=
  {[ "docs/intro.md" :=
       {| confluenceId := Some "45514944"; title := "Tutorial Intro"; category := None;
          slug := None; lastModified := ""; version := Some 1; parentId := None;
          spaceKey := Some "CEX" |} ]}.

End RefIndex.

(** ** The postprocessing of the Markdown ([lib/core/html-to-markdown-parser.js]) *)

Module Markdown.

Definition lf : ascii := ascii_of_nat 10.

(** [processed.replace(/\n{3,}/g, '\n\n')] (line 803): a run of three or
    more line feeds becomes two; [seen] counts the line feeds of the current
    run that were read so far. *)
Fixpoint collapseFrom (seen : nat) (s : string) : string :=
  match s with
  | EmptyString => EmptyString
  | String a rest =>
      if Ascii.eqb a lf
      then (if (seen <? 2)%nat then String a (collapseFrom (S seen) rest)
            else collapseFrom (S seen) rest)
      else String a (collapseFrom 0 rest)
  end.

Definition collapseNewlines (markdown : string) : string := collapseFrom 0 markdown.

End Markdown.

(** ** The attachment endpoints of the client ([lib/core/confluence-client.js]) *)

Module Attachments.
Import Sync.

(** A page with [page.attachments] set (line 333). *)
Record PageWithAttachments := {
  pwa_page : Page;
  pwa_attachments : list Attachment
}.

Section Client.

Context {S H : Type} (api : Api S).

(** [this.api.get] on [/content/{id}/history] and on
    [/content/{id}/child/attachment]: [response.data] of the first,
    [response.data.results] of the second ([None] when it is missing).  The
    log of the world keeps the page requests only. *)
Variable api_history : string -> Ext S H.
Variable api_attachments : string -> Ext S (option (list Attachment)).

Definition getPageHistory (pageId : string) : M S (option H) :=
  try_catch (history ← lift (api_history pageId); mret (Some history))
            (fun _ => mret None).

Definition getPageAttachments (pageId : string) : M S (list Attachment) :=
  try_catch (results ← lift (api_attachments pageId); mret (default [] results))
            (fun _ => mret []).

(** [page.attachments = attachments] on a [null] page is a [TypeError]. *)
Definition getPageWithAttachments (pageId : string) : M S PageWithAttachments :=
  try_catch
    (page ← getPageById api pageId (Some "body.storage,version");
     attachments ← getPageAttachments pageId;
     match page with
     | Some page => mret {| pwa_page := page; pwa_attachments := attachments |}
     | None => throw "Cannot set properties of null (setting 'attachments')"
     end)
    (fun message => throw message).

End Client.

End Attachments.

(** ** The blog command and the command line
       ([lib/commands/sync.js], [bin/docflu.js]) *)

Module Cli.
Import Sync.

Section Commands.

Context {S : Type} (api : Api S) (env : Env S).

(** [scanner.scanBlog], of the scanner whose source is not available. *)
Variable scanBlog : Ext S (list Document).

(** [syncBlog] (lines 427-500): [dryRun] only chooses the message of the
    spinner. *)
Definition syncBlog (dryRun : bool) : M S Summary :=
  confluenceConfig ← lift (loadConfig env);
  _ ← stateManager_init env;
  _ ← lift (detectProject env);
  posts ← lift scanBlog;
  if (length posts =? 0)%nat
  then mret {| success := true; sum_processed := 0; sum_created := Some 0%nat;
               sum_updated := 0; sum_skipped := 0; sum_failed := None |}
  else
    connected ← testConnection api;
    if negb connected then throw "Failed to connect to Confluence"
    else
      _ ← findRootParent api confluenceConfig;
      mret {| success := true; sum_processed := 0; sum_created := Some 0%nat;
              sum_updated := 0; sum_skipped := length posts; sum_failed := None |}.

(** The options of [docflu sync] as commander passes them: a flag that was
    not given is [undefined], read as [false]. *)
Record Options := {
  opt_file : option string;
  opt_docs : bool;
  opt_blog : bool;
  opt_dryRun : bool;
  opt_reverse : bool
}.

(** How the action ends: normally, or by [process.exit(code)]. *)
Inductive Outcome :=
| Done
| Exit (code : Z).

(** The action of [docflu sync] ([bin/docflu.js], lines 26-53). *)
Definition syncAction (options : Options) : M S Outcome :=
  try_catch
    (if opt_reverse options
     then _ ← syncReverse api env (opt_dryRun options); mret Done
     else if Js.truthy_opt (opt_file options)
     then _ ← syncFile api env (Js.or_else (opt_file options) "") (opt_dryRun options);
          mret Done
     else if opt_docs options
     then _ ← syncDocs api env (opt_dryRun options); mret Done
     else if opt_blog options
     then _ ← syncBlog (opt_dryRun options); mret Done
     else mret (Exit 1))
    (fun _ => mret (Exit 1)).

End Commands.

End Cli.

(** ** The conversion of a page ([lib/core/html-to-markdown-parser.js]) *)

Module Parser.
Import Sync.

Section Pipeline.

Context {S : Type} (api : Api S) (env : Env S).

(** [fs.ensureDir] and [fs.mkdirp] of [fs-extra], [path.dirname] and
    [path.extname] of Node, and [String.prototype.toLowerCase]. *)
Variable ensureDir : string -> Ext S unit.
Variable mkdirp : string -> Ext S unit.
Variable path_dirname : string -> string.
Variable path_extname : string -> string.
Variable toLowerCase : string -> string.

(** The passes over the HTML text, which look for images with regular
    expressions and download them, the preprocessing of the storage format,
    Turndown's conversion and the postprocessing of the Markdown: the facts
    below hold whatever they do. *)
Variable processConfluenceAttachmentReferences :
  string -> gmap string Attachment -> string -> M S string.
Variable processAttachmentImages : string -> string -> string -> M S string.
Variable processEmbeddedImages : string -> string -> string -> M S string.
Variable processContentImages : string -> string -> string -> string -> M S string.
Variable preprocessConfluenceHtml : string -> string.
Variable turndown : string -> result string.
Variable postprocessMarkdown : string -> string.

(** [fs.unlink] *)
Definition unlink (path : string) : M S unit := fun w =>
  match files w !! path with
  | Some _ => (set_files (delete path (files w)) (writes w) w, Ok tt)
  | None => (w, Throw "ENOENT: no such file or directory")
  end.

Definition imageExtensions : list string :=
  [".jpg"; ".jpeg"; ".png"; ".gif"; ".svg"; ".webp"; ".bmp"; ".tiff"].

Definition isImageFile (filename : string) : bool :=
  Js.array_includes imageExtensions (toLowerCase (path_extname filename)).

(** The body of [attachments.forEach] (lines 310-318). *)
Definition addAttachment (attachmentMap : gmap string Attachment) (attachment : Attachment)
    : gmap string Attachment :=
  match att_title attachment with
  | Some title =>
      if Js.truthy title && isImageFile title
      then
        let attachmentMap := <[title := attachment]> attachmentMap in
        match att_id attachment with
        | Some id => if Js.truthy id then <[id := attachment]> attachmentMap else attachmentMap
        | None => attachmentMap
        end
      else attachmentMap
  | None => attachmentMap
  end.

Definition attachmentMapOf (attachments : list Attachment) : gmap string Attachment :=
  fold_left addAttachment attachments ∅.

(** Lines 517-530 of [processImages]. *)
Definition ensureImagesDir (imagesDir : string) : M S unit :=
  try_catch (lift (ensureDir imagesDir))
    (fun _ =>
       try_catch (lift (mkdirp imagesDir))
         (fun message => throw ("Cannot create images directory: " +:+ message))).

(** Lines 533-541 of [processImages]. *)
Definition checkWritable (imagesDir : string) : M S unit :=
  try_catch
    (let testFile := path_join env imagesDir ".test-write" in
     _ ← writeFile env testFile "test";
     unlink testFile)
    (fun message => throw ("Images directory is not writable: " +:+ message)).

Definition processImages (html pageId targetFilePath : string) : M S string :=
  try_catch
    (let targetDir := path_dirname targetFilePath in
     let imagesDir := path_join env targetDir "images" in
     _ ← ensureImagesDir imagesDir;
     _ ← checkWritable imagesDir;
     processedHtml ← processAttachmentImages html imagesDir targetDir;
     processedHtml ← processEmbeddedImages processedHtml imagesDir targetDir;
     processContentImages processedHtml imagesDir targetDir pageId)
    (fun _ => mret html).

Definition processImagesWithAttachments (html pageId targetFilePath : string)
    (attachments : list Attachment) : M S string :=
  try_catch
    (let targetDir := path_dirname targetFilePath in
     let imagesDir := path_join env targetDir "images" in
     _ ← lift (ensureDir imagesDir);
     let attachmentMap := attachmentMapOf attachments in
     processedHtml ← processConfluenceAttachmentReferences html attachmentMap imagesDir;
     processedHtml ← processAttachmentImages processedHtml imagesDir targetDir;
     processedHtml ← processEmbeddedImages processedHtml imagesDir targetDir;
     processContentImages processedHtml imagesDir targetDir pageId)
    (fun _ => processImages html pageId targetFilePath).

Definition convertToMarkdown (htmlContent pageId targetFilePath : string)
    (attachments : list Attachment) : M S string :=
  try_catch
    (let processedHtml := preprocessConfluenceHtml htmlContent in
     processedHtml ← processImagesWithAttachments processedHtml pageId targetFilePath attachments;
     markdown ← fromResult (turndown processedHtml);
     mret (postprocessMarkdown markdown))
    (fun message => throw message).

End Pipeline.

End Parser.

(** * Properties *)

(** ** The reverse transformer *)

Module ReverseFacts.
Import Dom Reverse.

(** A table whose first row has a data cell and whose second row has only a
    header cell. *)
Definition headerlessTable : Node :=
  Element "TABLE" []
    [Element "TR" [] [Element "TD" [] [Text "x"]];
     Element "TR" [] [Element "TH" [] [Text "h"]]].

(** A rendered diagram as an image of the page. *)
Definition diagramImage : Node :=
  Element "IMG" [("src", "images/flow.svg"); ("alt", "mermaid-diagram-1")] [].

(** A table whose first row has a header cell and, after it, a data cell
    that holds the image of a diagram. *)
Definition diagramTable : Node :=
  Element "TABLE" []
    [Element "TR" [] [Element "TH" [] [Text "Diagram"]; Element "TD" [] [diagramImage]]].

(** A conversion of the content of a cell that hands every child of the
    cell to the rules, and keeps the text of a child that no rule takes. *)
Definition rulesOrText (n : Node) : string :=
  default (textContent n) (customReplacement textContent textContent (textContent n) n).

Definition innerMarkdown (cell : Node) : string :=
  match cell with
  | Text data => data
  | Element _ _ children => String.concat "" (map rulesOrText children)
  end.

Definition infoMacro (t : string) (b : list Node) : Macro :=
  {| macroName := "info"; language := ""; code := ""; title := t; body := b |}.

Definition noteMacro (t : string) (b : list Node) : Macro :=
  {| macroName := "note"; language := ""; code := ""; title := t; body := b |}.

Lemma append_assoc (a b c : string) : (a +:+ b) +:+ c = a +:+ (b +:+ c).
Proof.
  induction a as [|x a IH]; [reflexivity|].
  change (String x ((a +:+ b) +:+ c) = String x (a +:+ b +:+ c)). by rewrite IH.
Qed.

Lemma append_empty_r (a : string) : a +:+ "" = a.
Proof.
  induction a as [|x a IH]; [reflexivity|].
  change (String x (a +:+ "") = String x a). by rewrite IH.
Qed.

Section Tables.

Variable turndown_innerHTML : Node -> string.

(** The lines the loop over the data rows adds: one for each row that has
    a [td], nothing for the others. *)
Definition dataLines (rows : list Node) : string :=
  String.concat ""
    (map (fun row => tableLine (map (cellText turndown_innerHTML) (querySelectorAll "TD" row)))
         (List.filter (fun row => (0 <? length (querySelectorAll "TD" row))%nat) rows)).

Lemma concat_cons_empty (x : string) (xs : list string) :
  String.concat "" (x :: xs) = x +:+ String.concat "" xs.
Proof. destruct xs; simpl; [by rewrite append_empty_r | reflexivity]. Qed.

Lemma fold_appendDataRow (rows : list Node) (markdown : string) :
  fold_left (appendDataRow turndown_innerHTML) rows markdown = markdown +:+ dataLines rows.
Proof.
  revert markdown. induction rows as [|row rows IH]; intros markdown.
  - cbn [fold_left]. unfold dataLines. cbn [List.filter map String.concat].
    by rewrite append_empty_r.
  - cbn [fold_left]. rewrite IH. unfold appendDataRow, dataLines.
    cbn [List.filter].
    destruct (0 <? length (querySelectorAll "TD" row))%nat.
    + rewrite map_cons, concat_cons_empty. by rewrite !append_assoc.
    + reflexivity.
Qed.

(** C7 (as amended): for a table with at least one row, the rule emits the
    header cells of the first row and a separator row when the first row has
    header cells, and the data rows after it; when the first row has no
    header cell it emits no separator row and goes through every row of the
    table; in both cases a row is emitted as a data row exactly when it has
    at least one [td] cell. *)
Theorem C7_table_rows (node row0 : Node) (rest : list Node) :
  querySelectorAll "TR" node = row0 :: rest ->
  confluenceTables_replacement turndown_innerHTML node =
    if (0 <? length (querySelectorAll "TH" row0))%nat
    then Js.nl +:+ tableLine (map (cellText turndown_innerHTML) (querySelectorAll "TH" row0))
               +:+ tableLine (map (fun _ => "---") (querySelectorAll "TH" row0))
               +:+ dataLines rest +:+ Js.nl
    else Js.nl +:+ dataLines (row0 :: rest) +:+ Js.nl.
Proof.
  intros Hrows. unfold confluenceTables_replacement. rewrite Hrows.
  destruct (0 <? length (querySelectorAll "TH" row0))%nat.
  - rewrite fold_appendDataRow. simpl drop. rewrite drop_0.
    by rewrite !append_assoc.
  - rewrite fold_appendDataRow. rewrite drop_0. by rewrite !append_assoc.
Qed.

End Tables.

(** The amended statement at a two-column table with a header row and one
    data row. *)
Lemma C7_table_rows_witness :
  let table :=
    Element "TABLE" []
      [Element "TR" [] [Element "TH" [] [Text "H1"]; Element "TH" [] [Text "H2"]];
       Element "TR" [] [Element "TD" [] [Text " x "]; Element "TD" [] [Text "y"]]] in
  confluenceTables_replacement textContent table =
    Js.nl +:+ "| H1 | H2 |" +:+ Js.nl +:+ "| --- | --- |" +:+ Js.nl +:+ "| x | y |" +:+ Js.nl +:+ Js.nl.
Proof.
  intros table.
  rewrite (C7_table_rows textContent table
             (Element "TR" [] [Element "TH" [] [Text "H1"]; Element "TH" [] [Text "H2"]])
             [Element "TR" [] [Element "TD" [] [Text " x "]; Element "TD" [] [Text "y"]]]);
    reflexivity.
Defined.

(** C7 (as stated) fails: the first row of [headerlessTable] has no header
    cell, yet its second row, which has no [td], is not emitted. *)
Lemma C7_row_without_td_not_emitted :
  querySelectorAll "TH" (Element "TR" [] [Element "TD" [] [Text "x"]]) = [] /\
  length (querySelectorAll "TR" headerlessTable) = 2%nat /\
  confluenceTables_replacement textContent headerlessTable
    = Js.nl +:+ "| x |" +:+ Js.nl +:+ Js.nl /\
  confluenceTables_replacement textContent headerlessTable
    <> tableAllRowsAsData textContent headerlessTable.
Proof. repeat split; try reflexivity. vm_compute. discriminate. Qed.

(** C8: the [div] that the preprocessing returns for an [info] macro has
    the class [confluence-info-macro], which the admonition rule does not
    accept; no custom rule converts it, so no [:::info] line is produced. *)
Theorem C8_info_macro_not_admonition (readFragment : string -> string -> list Node)
    (readAttribute : string -> string) (t : string) (b : list Node) :
  exists node,
    preprocessMacro readFragment readAttribute (infoMacro t b) = Some node /\
    getAttribute "class" node = Some "confluence-info-macro" /\
    confluenceAdmonitions_filter node = false /\
    forNode node = None.
Proof.
  exists (admonitionMacroHtml readFragment (infoMacro t b)). repeat split.
  unfold forNode. by destruct (isBlank _).
Qed.

(** The [note] macro, next to it, becomes an admonition with its title. *)
Lemma note_macro_is_admonition (readAttribute : string -> string) (turndown : Node -> string)
    (b : list Node) :
  exists node,
    preprocessMacro plainFragment readAttribute (noteMacro "Note Title" b) = Some node /\
    forNode node = Some confluenceAdmonitions /\
    confluenceAdmonitions_replacement turndown node =
      Js.nl +:+ ":::note Note Title" +:+ Js.nl +:+
      turndown (Element "DIV" [("class", "confluence-information-macro-body")] b) +:+
      Js.nl +:+ ":::" +:+ Js.nl +:+ Js.nl.
Proof.
  exists (admonitionMacroHtml plainFragment (noteMacro "Note Title" b)). repeat split.
Qed.

Lemma includes_nonempty (p s : string) :
  p <> "" -> Js.includes p s = true -> Js.truthy s = true.
Proof.
  intros Hp. destruct s; [|reflexivity].
  destruct p; [congruence|]. simpl. discriminate.
Qed.

(** An image is a void element, never blank for Turndown. *)
Lemma image_not_blank (node : Node) : nodeName node = "IMG" -> isBlank node = false.
Proof. intros Hname. unfold isBlank, isOneOf. by rewrite Hname. Qed.

(** C9 (as amended): an [img] whose [alt] text contains the diagram marker,
    when Turndown converts it, is converted by the [mermaidDiagrams] rule,
    whatever the other rules would make of it, into the text of lines
    142-146: a [mermaid] code fence whose two lines say that the diagram was
    there and that the conversion back is not supported.  The text does not
    depend on the image. *)
Theorem C9_diagram_placeholder (turndown turndown_innerHTML : Node -> string)
    (content : string) (node : Node) (alt : string) :
  nodeName node = "IMG" ->
  getAttribute "alt" node = Some alt ->
  Js.includes "mermaid-diagram" alt = true ->
  customReplacement turndown turndown_innerHTML content node
  = Some (Js.nl +:+ "```mermaid" +:+ Js.nl +:+
          "// Original Mermaid diagram was here" +:+ Js.nl +:+
          "// Automatic conversion back to Mermaid code is not supported" +:+ Js.nl +:+
          "```" +:+ Js.nl +:+ Js.nl).
Proof.
  intros Hname Halt Hmarker.
  assert (Hrule : forNode node = Some mermaidDiagrams).
  { unfold forNode. rewrite image_not_blank by done. simpl.
    unfold confluenceLinks_filter, mermaidDiagrams_filter.
    rewrite Hname, Halt, Hmarker.
    rewrite (includes_nonempty "mermaid-diagram" alt); [reflexivity | discriminate | done]. }
  unfold customReplacement. rewrite Hrule. reflexivity.
Qed.

Lemma C9_diagram_placeholder_witness :
  nodeName diagramImage = "IMG" /\
  Js.includes "not supported"
    (default "" (customReplacement textContent textContent "" diagramImage)) = true.
Proof.
  split; [reflexivity|].
  rewrite (C9_diagram_placeholder textContent textContent "" diagramImage "mermaid-diagram-1");
    reflexivity.
Defined.

(** C9 (as stated) fails: the image of [diagramTable] carries the marker,
    and the cell that holds it, converted on its own, gives the placeholder;
    but the first row of the table has a header cell, so the table rule
    emits the header cells of that row only, and the output of the table
    holds neither the placeholder nor the image. *)
Lemma C9_diagram_in_header_row_is_dropped :
  mermaidDiagrams_filter diagramImage = true /\
  Js.includes "```mermaid" (innerMarkdown (Element "TD" [] [diagramImage])) = true /\
  customReplacement innerMarkdown innerMarkdown "" diagramTable
    = Some (Js.nl +:+ "| Diagram |" +:+ Js.nl +:+ "| --- |" +:+ Js.nl +:+ Js.nl) /\
  Js.includes "mermaid"
    (Js.nl +:+ "| Diagram |" +:+ Js.nl +:+ "| --- |" +:+ Js.nl +:+ Js.nl) = false.
Proof. by vm_compute. Qed.

End ReverseFacts.

(** ** The sync engine *)

Module SyncFacts.
Import Sync.

(** *** What a computation leaves alone *)

(** A view of the world that requests and external collaborators cannot
    change: every field but [server] and [calls]. *)
Class Local {S B : Type} (proj : World S -> B) : Prop := {
  local_server : forall s w, proj (set_server s w) = proj w;
  local_calls : forall c w, proj (set_calls c w) = proj w
}.

#[export] Instance pages_local {S} : Local (@pages S).
Proof. by split. Qed.
#[export] Instance stats_local {S} : Local (@stats S).
Proof. by split. Qed.
#[export] Instance sm_stats_local {S} : Local (@sm_stats S).
Proof. by split. Qed.
#[export] Instance files_local {S} : Local (@files S).
Proof. by split. Qed.
#[export] Instance writes_local {S} : Local (@writes S).
Proof. by split. Qed.

(** A view of the world that the local files are no part of. *)
Class OffDisk {S B : Type} (proj : World S -> B) : Prop :=
  off_disk : forall f l w, proj (set_files f l w) = proj w.

#[export] Instance pages_off_disk {S} : OffDisk (@pages S).
Proof. by intros f l w. Qed.
#[export] Instance stats_off_disk {S} : OffDisk (@stats S).
Proof. by intros f l w. Qed.
#[export] Instance sm_stats_off_disk {S} : OffDisk (@sm_stats S).
Proof. by intros f l w. Qed.

(** [m] never changes the view [proj], whether it returns or throws. *)
Definition preserves {S A B : Type} (proj : World S -> B) (m : M S A) : Prop :=
  forall w, proj (m w).1 = proj w.

(** The documents handled so far: each one is counted once, as processed,
    skipped or failed. *)
Definition handled (s : Stats) : nat := (processed s + skipped s + failed s)%nat.

(** The outcome of one document on the command's counters: an error leaves
    them as they were; a normal end counts the document once and leaves
    [failed] alone. *)
Definition counts {S A : Type} (m : M S A) : Prop :=
  forall w,
    match m w with
    | (w', Throw _) => stats w' = stats w
    | (w', Ok _) =>
        failed (stats w') = failed (stats w) /\ handled (stats w') = Datatypes.S (handled (stats w))
    end.

Definition isPOST (c : Call) : bool :=
  match c with
  | POST_content _ _ _ => true
  | _ => false
  end.

Lemma bind_run {S A C} (m : M S A) (f : A -> M S C) (w : World S) :
  (m ≫= f) w =
  match m w with
  | (w', Ok a) => f a w'
  | (w', Throw e) => (w', Throw e)
  end.
Proof. reflexivity. Qed.

Lemma try_catch_run {S A} (body : M S A) (handler : string -> M S A) (w : World S) :
  try_catch body handler w =
  match body w with
  | (w', Ok a) => (w', Ok a)
  | (w', Throw e) => handler e w'
  end.
Proof. reflexivity. Qed.

Section Facts.

Context {S : Type} (api : Api S) (env : Env S).

Section Preservation.

Context {B : Type} (proj : World S -> B).

Lemma preserves_ret {A} (a : A) : preserves proj (mret a : M S A).
Proof. by intros w. Qed.

Lemma preserves_throw {A} (e : string) : preserves proj (throw e : M S A).
Proof. by intros w. Qed.

Lemma preserves_gets {A} (f : World S -> A) : preserves proj (gets f).
Proof. by intros w. Qed.

Lemma preserves_bind {A C} (m : M S A) (f : A -> M S C) :
  preserves proj m -> (forall a, preserves proj (f a)) -> preserves proj (m ≫= f).
Proof.
  intros Hm Hf w. unfold mbind, M_bind. specialize (Hm w).
  destruct (m w) as [w1 [a|e]]; simpl in *; [|done].
  by rewrite (Hf a w1).
Qed.

Lemma preserves_try_catch {A} (body : M S A) (handler : string -> M S A) :
  preserves proj body -> (forall e, preserves proj (handler e)) ->
  preserves proj (try_catch body handler).
Proof.
  intros Hm Hh w. unfold try_catch. specialize (Hm w).
  destruct (body w) as [w1 [a|e]]; simpl in *; [done|].
  by rewrite (Hh e w1).
Qed.

Context `{!Local proj}.

Lemma preserves_lift {A} (op : Ext S A) : preserves proj (lift op).
Proof.
  intros w. unfold lift. destruct (op (server w)) as [s' r]. simpl.
  apply local_server.
Qed.

Lemma preserves_request {A} (c : Call) (op : Ext S A) : preserves proj (request c op).
Proof.
  intros w. unfold request. destruct (op (server w)) as [s' r]. simpl.
  by rewrite local_server, local_calls.
Qed.

Lemma preserves_liftFs `{!OffDisk proj} {A} (op : FsExt S A) : preserves proj (liftFs op).
Proof.
  intros w. unfold liftFs. destruct (op (server w) (files w)) as [[[s' files'] written] r].
  simpl. by rewrite local_server, off_disk.
Qed.

End Preservation.

(** Splits a computation along its binds, handlers and case distinctions,
    down to the requests and external calls. *)
Ltac preserve :=
  repeat first
    [ assumption
    | apply preserves_ret
    | apply preserves_throw
    | apply preserves_gets
    | solve [apply preserves_lift; first [assumption | apply _]]
    | solve [apply preserves_request; first [assumption | apply _]]
    | solve [apply preserves_liftFs; first [assumption | apply _]]
    | apply preserves_bind; [|intros ?]
    | apply preserves_try_catch; [|intros ?]
    | match goal with
      | |- preserves _ (match ?x with _ => _ end) => destruct x
      end ].

Section ClientPreservation.

Context {B : Type} (proj : World S -> B) `{!Local proj}.

Lemma findPageByTitle_preserves t : preserves proj (findPageByTitle api t).
Proof. unfold findPageByTitle. preserve. Qed.

Lemma createPage_preserves t c p : preserves proj (createPage api t c p).
Proof. unfold createPage. preserve. Qed.

Lemma updatePage_preserves i t c v : preserves proj (updatePage api i t c v).
Proof. unfold updatePage. preserve. Qed.

Lemma createOrUpdatePage_preserves t c p : preserves proj (createOrUpdatePage api t c p).
Proof.
  unfold createOrUpdatePage. preserve;
    auto using findPageByTitle_preserves, updatePage_preserves, createPage_preserves.
Qed.

Lemma getPageById_preserves i e : preserves proj (getPageById api i e).
Proof. unfold getPageById. preserve. Qed.

Lemma getPageChildren_preserves i : preserves proj (getPageChildren api i).
Proof. unfold getPageChildren. preserve. Qed.

Lemma findPageByTitleAndParent_preserves t p :
  preserves proj (findPageByTitleAndParent api t p).
Proof.
  unfold findPageByTitleAndParent. preserve;
    auto using findPageByTitle_preserves, getPageChildren_preserves.
Qed.

Lemma walkSegments_preserves segments parent path :
  preserves proj (walkSegments api segments parent path).
Proof.
  revert parent path. induction segments as [|segment rest IH]; intros parent path; simpl.
  - preserve.
  - preserve; auto using findPageByTitleAndParent_preserves, createOrUpdatePage_preserves.
Qed.

Lemma findOrCreateParentPage_preserves c root :
  preserves proj (findOrCreateParentPage api c root).
Proof.
  unfold findOrCreateParentPage. preserve. apply walkSegments_preserves.
Qed.

Lemma downloadAttachment_preserves url : preserves proj (downloadAttachment api url).
Proof. unfold downloadAttachment. preserve. Qed.

Lemma processMedia_preserves config document parsed result :
  preserves proj (processMedia api env config document parsed result).
Proof. unfold processMedia. preserve. Qed.

End ClientPreservation.

(** *** The loop over the documents *)

Lemma preserves_modify {B} (proj : World S -> B) (f : World S -> World S) :
  (forall w, proj (f w) = proj w) -> preserves proj (modify f).
Proof. intros H w. apply H. Qed.

Lemma setPageState_preserves_stats path record :
  preserves stats (setPageState (S := S) path record).
Proof. by apply preserves_modify. Qed.

Lemma toISOString_preserves {B} (proj : World S -> B) d :
  preserves proj (toISOString env d).
Proof. destruct d; simpl; preserve. Qed.

Lemma counts_bind {A C} (m : M S A) (f : A -> M S C) :
  preserves stats m -> (forall a, counts (f a)) -> counts (m ≫= f).
Proof.
  intros Hm Hf w. unfold mbind, M_bind. specialize (Hm w).
  destruct (m w) as [w1 [a|e]]; simpl in *; [|done].
  specialize (Hf a w1). destruct (f a w1) as [w2 [c|e]]; by rewrite <- Hm.
Qed.

Lemma handled_incr (field : string) (s : Stats) :
  field = "processed" \/ field = "skipped" \/ field = "failed" ->
  handled (incr field s) = Datatypes.S (handled s).
Proof. intros [->|[->| ->]]; unfold handled; simpl; lia. Qed.

Lemma documentBody_counts dryRun config root hierarchyMap document :
  counts (documentBody api env dryRun config root hierarchyMap document).
Proof.
  unfold documentBody. destruct dryRun; simpl.
  - intros w. unfold mbind, M_bind, mret, M_ret.
    destruct (doc_lastModified document); simpl; [|done].
    split; [done|]. apply handled_incr. by left.
  - apply counts_bind; [apply preserves_gets|]. intros needs.
    destruct needs; simpl.
    + apply counts_bind; [preserve|]. intros parsedContent.
      apply counts_bind; [by apply createOrUpdatePage_preserves; apply _|]. intros result.
      apply counts_bind.
      { destruct (hasImages document || hasMermaid document);
          [by apply processMedia_preserves; apply _ | preserve]. }
      intros _. apply counts_bind; [preserve|]. intros _.
      apply counts_bind; [apply toISOString_preserves|]. intros modified.
      apply counts_bind; [apply setPageState_preserves_stats|]. intros _.
      intros w. unfold mbind, M_bind.
      destruct (bool_decide (page_version result = Some 1)); simpl;
        (split; unfold handled; simpl; lia).
    + intros w. unfold mbind, M_bind. simpl.
      split; unfold handled; simpl; lia.
Qed.

Lemma processDocument_ok dryRun config root hierarchyMap document w :
  (processDocument api env dryRun config root hierarchyMap document w).2 = Ok tt.
Proof.
  unfold processDocument, try_catch.
  destruct (documentBody api env dryRun config root hierarchyMap document w) as [w1 [[]|e]];
    reflexivity.
Qed.

Lemma processDocument_failed dryRun config root hierarchyMap document w wb e :
  documentBody api env dryRun config root hierarchyMap document w = (wb, Throw e) ->
  stats (processDocument api env dryRun config root hierarchyMap document w).1
    = incr "failed" (stats w).
Proof.
  intros Hbody. unfold processDocument, try_catch.
  pose proof (documentBody_counts dryRun config root hierarchyMap document w) as Hc.
  rewrite Hbody in *. simpl. by rewrite Hc.
Qed.

Lemma processDocument_handled dryRun config root hierarchyMap document w :
  handled (stats (processDocument api env dryRun config root hierarchyMap document w).1)
    = Datatypes.S (handled (stats w)).
Proof.
  unfold processDocument, try_catch.
  pose proof (documentBody_counts dryRun config root hierarchyMap document w) as Hc.
  destruct (documentBody api env dryRun config root hierarchyMap document w) as [w1 [[]|e]];
    simpl.
  - apply Hc.
  - rewrite Hc. apply handled_incr. by right; right.
Qed.

Lemma processDocuments_ok dryRun config root hierarchyMap documents w :
  (processDocuments api env dryRun config root hierarchyMap documents w).2 = Ok tt /\
  handled (stats (processDocuments api env dryRun config root hierarchyMap documents w).1)
    = (handled (stats w) + length documents)%nat.
Proof.
  revert w. induction documents as [|document rest IH]; intros w; simpl.
  - split; [done | lia].
  - unfold mbind, M_bind.
    pose proof (processDocument_ok dryRun config root hierarchyMap document w) as Hok.
    pose proof (processDocument_handled dryRun config root hierarchyMap document w) as Hh.
    destruct (processDocument api env dryRun config root hierarchyMap document w)
      as [w1 r]. simpl in *. subst r.
    destruct (IH w1) as [IH1 IH2]. split; [done|]. rewrite IH2, Hh. lia.
Qed.

Lemma saveAndCleanup_preserves_stats dryRun documents :
  preserves stats (saveAndCleanup env dryRun documents).
Proof.
  unfold saveAndCleanup, cleanupOrphanedPages. destruct dryRun; simpl; preserve;
    by apply preserves_modify.
Qed.

Lemma syncDocuments_summary dryRun config root hierarchyMap documents w :
  let loop :=
    (processDocuments api env dryRun config root hierarchyMap documents
       (set_stats Stats_zero w)).1 in
  match syncDocuments api env dryRun config root hierarchyMap documents w with
  | (_, Ok summary) =>
      summary = summaryOf (stats loop) /\ handled (stats loop) = length documents
  | (_, Throw e) =>
      dryRun = false /\ (saveAndCleanup env false documents loop).2 = Throw e
  end.
Proof.
  intros loop. subst loop. unfold syncDocuments, mbind, M_bind, modify.
  destruct (processDocuments_ok dryRun config root hierarchyMap documents
              (set_stats Stats_zero w)) as [Hok Hh].
  destruct (processDocuments api env dryRun config root hierarchyMap documents
              (set_stats Stats_zero w)) as [w1 r].
  simpl in *. subst r.
  pose proof (saveAndCleanup_preserves_stats dryRun documents w1) as Hs.
  destruct dryRun.
  - simpl. split; [done|]. by rewrite Hh.
  - destruct (saveAndCleanup env false documents w1) as [w2 [[]|e]]; simpl in *.
    + rewrite Hs. split; [done|]. by rewrite Hh.
    + done.
Qed.

(** *** What a document sends *)

(** [m] only adds requests to the log. *)
Definition appends {A} (m : M S A) : Prop :=
  forall w, exists more, calls (m w).1 = calls w ++ more.

(** The first request that [m] sends is [c]. *)
Definition sendsFirst {A} (c : Call) (m : M S A) : Prop :=
  forall w, exists more, calls (m w).1 = calls w ++ c :: more.

Lemma appends_quiet {A} (m : M S A) : preserves calls m -> appends m.
Proof. intros Hm w. exists []. by rewrite app_nil_r. Qed.

Lemma appends_request {A} (c : Call) (op : Ext S A) : appends (request c op).
Proof. intros w. exists [c]. unfold request. by destruct (op (server w)). Qed.

Lemma appends_bind {A C} (m : M S A) (f : A -> M S C) :
  appends m -> (forall a, appends (f a)) -> appends (m ≫= f).
Proof.
  intros Hm Hf w. rewrite bind_run. destruct (Hm w) as [more Hmore].
  destruct (m w) as [w1 [a|e]]; cbn [fst] in *; [|by exists more].
  destruct (Hf a w1) as [more' Hmore']. exists (more ++ more').
  by rewrite Hmore', Hmore, app_assoc.
Qed.

Lemma appends_try_catch {A} (body : M S A) (handler : string -> M S A) :
  appends body -> (forall e, appends (handler e)) -> appends (try_catch body handler).
Proof.
  intros Hm Hh w. rewrite try_catch_run. destruct (Hm w) as [more Hmore].
  destruct (body w) as [w1 [a|e]]; cbn [fst] in *; [by exists more|].
  destruct (Hh e w1) as [more' Hmore']. exists (more ++ more').
  by rewrite Hmore', Hmore, app_assoc.
Qed.

Lemma sendsFirst_request {A} (c : Call) (op : Ext S A) : sendsFirst c (request c op).
Proof. intros w. exists []. unfold request. by destruct (op (server w)). Qed.

Lemma sendsFirst_bind {A C} (c : Call) (m : M S A) (f : A -> M S C) :
  sendsFirst c m -> (forall a, appends (f a)) -> sendsFirst c (m ≫= f).
Proof.
  intros Hm Hf w. rewrite bind_run. destruct (Hm w) as [more Hmore].
  destruct (m w) as [w1 [a|e]]; cbn [fst] in *; [|by exists more].
  destruct (Hf a w1) as [more' Hmore']. exists (more ++ more').
  by rewrite Hmore', Hmore, <- app_assoc.
Qed.

Lemma sendsFirst_try_catch {A} (c : Call) (body : M S A) (handler : string -> M S A) :
  sendsFirst c body -> (forall e, appends (handler e)) ->
  sendsFirst c (try_catch body handler).
Proof.
  intros Hm Hh w. rewrite try_catch_run. destruct (Hm w) as [more Hmore].
  destruct (body w) as [w1 [a|e]]; cbn [fst] in *; [by exists more|].
  destruct (Hh e w1) as [more' Hmore']. exists (more ++ more').
  by rewrite Hmore', Hmore, <- app_assoc.
Qed.

Lemma calls_lift {A} (op : Ext S A) : preserves calls (lift op).
Proof. intros w. unfold lift. by destruct (op (server w)). Qed.

(** Splits a computation down to its requests, which add to the log, and
    its other steps, which leave the log alone. *)
Ltac adds :=
  repeat first
    [ assumption
    | apply appends_request
    | solve [apply appends_quiet; first [apply calls_lift | apply preserves_ret
                                        | apply preserves_throw | apply preserves_gets
                                        | by apply preserves_modify ]]
    | apply appends_bind; [|intros ?]
    | apply appends_try_catch; [|intros ?]
    | match goal with
      | |- appends (match ?x with _ => _ end) => destruct x
      | |- appends (if ?x then _ else _) => destruct x
      end ].

Lemma updatePage_appends i t c v : appends (updatePage api i t c v).
Proof. unfold updatePage. adds. Qed.

Lemma createPage_appends t c p : appends (createPage api t c p).
Proof. unfold createPage. adds. Qed.

Lemma createOrUpdatePage_searches t c p :
  sendsFirst (GET_content_search t) (createOrUpdatePage api t c p).
Proof.
  unfold createOrUpdatePage. apply sendsFirst_try_catch; [|intros e; adds].
  apply sendsFirst_bind.
  - unfold findPageByTitle. apply sendsFirst_try_catch; [|intros e; adds].
    apply sendsFirst_bind; [apply sendsFirst_request | intros results; adds].
  - intros [existing|]; [apply updatePage_appends | apply createPage_appends].
Qed.

Lemma processMedia_appends config document parsed result :
  appends (processMedia api env config document parsed result).
Proof. unfold processMedia. adds. Qed.

(** The world after the [catch] of a turn: one more failure for the
    command and for the state manager. *)
Definition caught (w : World S) : World S :=
  set_sm_stats (incr "failed" (sm_stats w)) (set_stats (incr "failed" (stats w)) w).

Lemma processDocument_run dryRun config root hierarchyMap document w :
  processDocument api env dryRun config root hierarchyMap document w =
  match documentBody api env dryRun config root hierarchyMap document w with
  | (w', Ok _) => (w', Ok tt)
  | (w', Throw _) => (caught w', Ok tt)
  end.
Proof.
  unfold processDocument. rewrite try_catch_run.
  by destruct (documentBody api env dryRun config root hierarchyMap document w)
    as [w' [[]|e]].
Qed.

Lemma processDocuments_app dryRun config root hierarchyMap before after w :
  processDocuments api env dryRun config root hierarchyMap (before ++ after) w =
  processDocuments api env dryRun config root hierarchyMap after
    (processDocuments api env dryRun config root hierarchyMap before w).1.
Proof.
  revert w. induction before as [|document rest IH]; intros w; [reflexivity|].
  cbn [app processDocuments]. rewrite !bind_run.
  pose proof (processDocument_ok dryRun config root hierarchyMap document w) as Hok.
  destruct (processDocument api env dryRun config root hierarchyMap document w) as [w1 r].
  cbn [snd] in Hok. subst r. apply IH.
Qed.

(** A document of a real run that needs the sync and that the parser
    accepts is sent to the wiki: the turn starts with the search for its
    title. *)
Lemma processDocument_pushes config root hierarchyMap document w s1 parsed :
  (needsSync env (relativePath document) (doc_lastModified document) w).2 = Ok true ->
  parseMarkdown env (content document) (frontmatter document) (filePath document)
    (baseUrl config) None (server w) = (s1, Ok parsed) ->
  exists more,
    calls (processDocument api env false config root hierarchyMap document w).1
    = calls w ++ GET_content_search (doc_title document) :: more.
Proof.
  intros Hneeds Hparse. rewrite processDocument_run.
  assert (Hbody : exists more,
            calls (documentBody api env false config root hierarchyMap document w).1
            = calls w ++ GET_content_search (doc_title document) :: more).
  { unfold documentBody. cbn [negb andb]. rewrite bind_run.
    unfold needsSync, gets in *. cbn [snd] in Hneeds. injection Hneeds as ->.
    cbn [negb]. rewrite bind_run. unfold lift at 1. rewrite Hparse.
    assert (Hrest : sendsFirst (GET_content_search (doc_title document))
              (createOrUpdatePage api (doc_title document) (parsed_content parsed)
                 (documentParent hierarchyMap root document) ≫= fun result =>
               _ ← (if hasImages document || hasMermaid document
                    then processMedia api env config document parsed result
                    else mret tt);
               _ ← lift (cleanup env);
               modified ← toISOString env (doc_lastModified document);
               _ ← setPageState (relativePath document)
                     {| confluenceId := Some (page_id result);
                        title := doc_title document;
                        category := Some (doc_category document);
                        slug := doc_slug document;
                        lastModified := modified;
                        version := None;
                        parentId := documentParent hierarchyMap root document;
                        spaceKey := Some (cfg_spaceKey config) |};
               _ ← (if bool_decide (page_version result = Some 1)
                    then _ ← stats_incr "created"; updateStats "created"
                    else _ ← stats_incr "updated"; updateStats "updated");
               stats_incr "processed")).
    { apply sendsFirst_bind; [apply createOrUpdatePage_searches|]. intros result.
      unfold toISOString, setPageState, stats_incr, updateStats.
      adds; try apply processMedia_appends. }
    exact (Hrest (set_server s1 w)). }
  destruct Hbody as [more Hmore].
  destruct (documentBody api env false config root hierarchyMap document w) as [w' [[]|e]];
    by exists more.
Qed.

(** C5: in the loop of [syncDocs] an error of one document is caught at
    that document.  A turn of the loop is the [try] block of its document
    and never throws: when the block throws, what it did stays, the failed
    count grows by one and no other count changes.  Every document gets its
    turn, on the world that the turns before it left, whatever their outcome
    was; in a real run a document that needs the sync and that the parser
    accepts is sent to the wiki, starting with the search for its title.  The
    loop goes through all the documents, each counted once as processed,
    skipped or failed; and the summary with the counts is returned, unless
    saving the state after the loop (a run-level step, skipped in a dry run)
    throws. *)
Theorem C5_document_errors_are_contained dryRun config root hierarchyMap :
  (forall document w,
     match documentBody api env dryRun config root hierarchyMap document w with
     | (w', Ok _) =>
         processDocument api env dryRun config root hierarchyMap document w = (w', Ok tt)
     | (w', Throw _) =>
         processDocument api env dryRun config root hierarchyMap document w
           = (caught w', Ok tt) /\
         stats (caught w') = incr "failed" (stats w)
     end) /\
  (forall before document after w,
     processDocuments api env dryRun config root hierarchyMap (before ++ document :: after) w =
     processDocuments api env dryRun config root hierarchyMap after
       (processDocument api env dryRun config root hierarchyMap document
          (processDocuments api env dryRun config root hierarchyMap before w).1).1) /\
  (forall document w s1 parsed,
     dryRun = false ->
     (needsSync env (relativePath document) (doc_lastModified document) w).2 = Ok true ->
     parseMarkdown env (content document) (frontmatter document) (filePath document)
       (baseUrl config) None (server w) = (s1, Ok parsed) ->
     exists more,
       calls (processDocument api env dryRun config root hierarchyMap document w).1
       = calls w ++ GET_content_search (doc_title document) :: more) /\
  (forall documents w,
     (processDocuments api env dryRun config root hierarchyMap documents w).2 = Ok tt /\
     handled (stats (processDocuments api env dryRun config root hierarchyMap documents w).1)
       = (handled (stats w) + length documents)%nat) /\
  (forall documents w,
     let loop :=
       (processDocuments api env dryRun config root hierarchyMap documents
          (set_stats Stats_zero w)).1 in
     match syncDocuments api env dryRun config root hierarchyMap documents w with
     | (_, Ok summary) =>
         summary = summaryOf (stats loop) /\ handled (stats loop) = length documents
     | (_, Throw e) =>
         dryRun = false /\ (saveAndCleanup env false documents loop).2 = Throw e
     end).
Proof.
  split; [|split; [|split; [|split]]].
  - intros document w. rewrite processDocument_run.
    pose proof (documentBody_counts dryRun config root hierarchyMap document w) as Hc.
    destruct (documentBody api env dryRun config root hierarchyMap document w)
      as [w' [[]|e]]; [reflexivity|].
    split; [reflexivity|]. cbn. by rewrite Hc.
  - intros before document after w. rewrite processDocuments_app.
    cbn [processDocuments]. rewrite bind_run.
    pose proof (processDocument_ok dryRun config root hierarchyMap document
                  (processDocuments api env dryRun config root hierarchyMap before w).1) as Hok.
    destruct (processDocument api env dryRun config root hierarchyMap document
                (processDocuments api env dryRun config root hierarchyMap before w).1)
      as [w1 r].
    cbn [snd] in Hok. by subst r.
  - intros document w s1 parsed -> Hneeds Hparse.
    by apply (processDocument_pushes config root hierarchyMap document w s1 parsed).
  - apply processDocuments_ok.
  - apply syncDocuments_summary.
Qed.

(** Four documents, the second of which the parser rejects: the other
    three are created and the summary reports one failure. *)
Example partial_failure_summary :
  (syncDocs MemWiki.api
     (MemWiki.exampleEnv
        [MemWiki.exampleDocument "a/x.md" "a" "one";
         MemWiki.exampleDocument "a/b/y.md" "a/b" "BROKEN";
         MemWiki.exampleDocument "a/b/c/z.md" "a/b/c" "three";
         MemWiki.exampleDocument "r.md" "" "four"] ∅)
     false (MemWiki.emptyWorld [])).2
  = Ok {| success := true; sum_processed := 3; sum_created := Some 3%nat;
          sum_updated := 0; sum_skipped := 0; sum_failed := Some 1%nat |}.
Proof. by vm_compute. Qed.

(** *** Dry runs *)

Lemma processDocument_dry config root hierarchyMap document w :
  let w' := (processDocument api env true config root hierarchyMap document w).1 in
  calls w' = calls w /\ server w' = server w /\ pages w' = pages w.
Proof.
  unfold processDocument, try_catch, documentBody. simpl.
  unfold mbind, M_bind, mret, M_ret.
  by destruct (doc_lastModified document).
Qed.

Lemma processDocuments_dry config root hierarchyMap documents w :
  let w' := (processDocuments api env true config root hierarchyMap documents w).1 in
  calls w' = calls w /\ server w' = server w /\ pages w' = pages w.
Proof.
  revert w. induction documents as [|document rest IH]; intros w; simpl; [done|].
  unfold mbind, M_bind.
  pose proof (processDocument_ok true config root hierarchyMap document w) as Hok.
  pose proof (processDocument_dry config root hierarchyMap document w) as (Hc & Hs & Hp).
  destruct (processDocument api env true config root hierarchyMap document w) as [w1 r].
  simpl in *. subst r. destruct (IH w1) as (IHc & IHs & IHp).
  by rewrite IHc, IHs, IHp.
Qed.

Lemma syncDocuments_dry config root hierarchyMap documents w :
  let w' := (syncDocuments api env true config root hierarchyMap documents w).1 in
  calls w' = calls w /\ server w' = server w /\ pages w' = pages w.
Proof.
  unfold syncDocuments, mbind, M_bind, modify.
  pose proof (processDocuments_ok true config root hierarchyMap documents
                (set_stats Stats_zero w)) as [Hok _].
  pose proof (processDocuments_dry config root hierarchyMap documents
                (set_stats Stats_zero w)) as H.
  destruct (processDocuments api env true config root hierarchyMap documents
              (set_stats Stats_zero w)) as [w1 r].
  simpl in *. by subst r.
Qed.

Lemma new_Set_In (x : string) (xs : list string) : In x xs -> In x (new_Set xs).
Proof.
  induction xs as [|y rest IH]; simpl; [done|].
  intros [->|Hin]; [by left|].
  destruct (String.eqb x y) eqn:E.
  - apply String.eqb_eq in E. by left.
  - right. apply filter_In. split; [by apply IH|]. by rewrite E.
Qed.

Lemma categoriesOf_In (documents : list Document) (document : Document) :
  In document documents -> Js.truthy (doc_category document) = true ->
  In (doc_category document) (categoriesOf documents).
Proof.
  intros Hin Ht. apply new_Set_In. apply filter_In. split; [|done].
  by apply in_map.
Qed.

Lemma buildHierarchy_resolved categories root hierarchyMap w w' hierarchyMap' :
  buildHierarchy api categories root hierarchyMap w = (w', Ok hierarchyMap') ->
  forall category,
    In category categories \/ is_Some (hierarchyMap !! category) ->
    is_Some (hierarchyMap' !! category).
Proof.
  revert hierarchyMap w. induction categories as [|c rest IH]; intros h w; simpl.
  - unfold mret, M_ret. intros [= <- <-] category [[]|H]. done.
  - case_bool_decide as Hc.
    + intros Hrun category [[<-|Hin]|Hh]; eapply IH; eauto.
    + unfold mbind, M_bind.
      destruct (findOrCreateParentPage api c root w) as [w1 [i|e]]; [|done].
      intros Hrun category Hcat. eapply IH; [exact Hrun|].
      destruct Hcat as [[<-|Hin]|Hh].
      * right. rewrite lookup_insert_eq. by eexists.
      * by left.
      * right. destruct (decide (c = category)) as [->|Hne].
        -- rewrite lookup_insert_eq. by eexists.
        -- by rewrite lookup_insert_ne.
Qed.

End Facts.

End SyncFacts.

(** ** The hierarchy on the in-memory wiki *)

Module MemWikiFacts.
Import Sync MemWiki SyncFacts.

(** A world whose remote side is [wiki] and whose log of requests is [log]. *)
Definition at_remote (wiki : Wiki) (log : list Call) (w : World Wiki) : World Wiki :=
  set_server wiki (set_calls log w).

(** No page of the wiki has the title [t]. *)
Definition noTitle (t : string) (wiki : Wiki) : bool :=
  forallb (fun e => negb (hasTitle t e)) wiki.

(** The page that [findPageByTitleAndParent] looks for. *)
Definition matches (t : string) (parent : option string) (e : Entry) : bool :=
  hasTitle t e &&
  (if Js.truthy_opt parent then childOf (Js.or_else parent "") e else true).

Definition lookupCalls (t : string) (parent : option string) : list Call :=
  if Js.truthy_opt parent then [GET_child_page (Js.or_else parent "")]
  else [GET_content_search t].

(** The entry that [createPage] adds. *)
Definition newEntry (wiki : Wiki) (t body : string) (parent : option string) : Entry :=
  {| entry_page := {| page_id := nextId wiki; page_title := t;
                      page_version := Some 1; page_body := Some body |};
     entry_parent := if Js.truthy_opt parent then parent else None |}.

(** The container page of a category path under [parent]. *)
Definition container (wiki : Wiki) (t path : string) (parent : option string) : Entry :=
  newEntry wiki t (containerContent t path) parent.

Definition createCalls (t path : string) (parent : option string) : list Call :=
  [GET_content_search t;
   POST_content t (containerContent t path) (if Js.truthy_opt parent then parent else None)].

Lemma head_filter_find (t : string) (wiki : Wiki) :
  (let results := map entry_page (List.filter (hasTitle t) wiki) in
   if (0 <? length results)%nat then head results else None)
  = entry_page <$> List.find (hasTitle t) wiki.
Proof.
  induction wiki as [|e rest IH]; simpl; [done|].
  destruct (hasTitle t e); simpl; [done | exact IH].
Qed.

Lemma children_find (t p : string) (wiki : Wiki) :
  List.find (fun child => String.eqb (page_title child) t)
            (map entry_page (List.filter (childOf p) wiki))
  = entry_page <$> List.find (fun e => hasTitle t e && childOf p e) wiki.
Proof.
  induction wiki as [|e rest IH]; simpl; [done|].
  destruct (childOf p e); simpl.
  - unfold hasTitle at 1. destruct (String.eqb (page_title (entry_page e)) t); simpl; [done|].
    exact IH.
  - rewrite andb_false_r. exact IH.
Qed.

Lemma find_app_noTitle (t : string) (f : Entry -> bool) (old new : Wiki) :
  noTitle t old = true ->
  List.find (fun e => hasTitle t e && f e) (old ++ new)
  = List.find (fun e => hasTitle t e && f e) new.
Proof.
  unfold noTitle. induction old as [|e rest IH]; simpl; [done|].
  intros [He Hrest]%andb_prop. apply negb_true_iff in He. rewrite He. simpl. by apply IH.
Qed.

Lemma find_hasTitle_app (t : string) (old new : Wiki) :
  noTitle t old = true ->
  List.find (hasTitle t) (old ++ new) = List.find (hasTitle t) new.
Proof.
  unfold noTitle. induction old as [|e rest IH]; simpl; [done|].
  intros [He Hrest]%andb_prop. apply negb_true_iff in He. rewrite He. by apply IH.
Qed.

Lemma find_andb_true (t : string) (wiki : Wiki) :
  List.find (hasTitle t) wiki = List.find (fun e => hasTitle t e && true) wiki.
Proof.
  induction wiki as [|e rest IH]; simpl; [done|].
  rewrite andb_true_r. by destruct (hasTitle t e).
Qed.

Section Client.

Variables (wiki : Wiki) (log : list Call) (w : World Wiki).

Lemma findPageByTitle_mem (t : string) :
  findPageByTitle api t (at_remote wiki log w)
  = (at_remote wiki (log ++ [GET_content_search t]) w,
     Ok (entry_page <$> List.find (hasTitle t) wiki)).
Proof.
  unfold findPageByTitle, try_catch, mbind, M_bind, request. simpl.
  unfold mret, M_ret. f_equal. f_equal. apply head_filter_find.
Qed.

Lemma findPageByTitleAndParent_mem (t : string) (parent : option string) :
  findPageByTitleAndParent api t parent (at_remote wiki log w)
  = (at_remote wiki (log ++ lookupCalls t parent) w,
     Ok (entry_page <$> List.find (matches t parent) wiki)).
Proof.
  unfold findPageByTitleAndParent, lookupCalls, matches, try_catch.
  destruct parent as [p|]; [destruct (Js.truthy p) eqn:Hp|];
    cbn [Js.truthy_opt Js.or_else]; rewrite ?Hp.
  - unfold getPageChildren, try_catch, mbind, M_bind, request. simpl.
    unfold mret, M_ret. f_equal. f_equal. apply children_find.
  - rewrite findPageByTitle_mem. by rewrite find_andb_true.
  - rewrite findPageByTitle_mem. by rewrite find_andb_true.
Qed.

Lemma createOrUpdatePage_new (t body : string) (parent : option string) :
  List.find (hasTitle t) wiki = None ->
  createOrUpdatePage api t body parent (at_remote wiki log w)
  = (at_remote (wiki ++ [newEntry wiki t body parent])
               (log ++ [GET_content_search t;
                        POST_content t body (if Js.truthy_opt parent then parent else None)]) w,
     Ok (entry_page (newEntry wiki t body parent))).
Proof.
  intros Hnone. unfold createOrUpdatePage, try_catch, mbind, M_bind.
  rewrite findPageByTitle_mem, Hnone. simpl.
  unfold createPage, request. simpl. unfold at_remote. simpl.
  by rewrite <- app_assoc.
Qed.

End Client.

Section Walk.

Variables (wiki : Wiki) (log : list Call) (w : World Wiki).

Lemma walkSegments_found (segment : string) (rest : list string) (parent : option string)
    (path : string) (e : Entry) :
  let t := formatCategoryTitle segment in
  let path' := if Js.truthy path then path +:+ "/" +:+ segment else segment in
  List.find (matches t parent) wiki = Some e ->
  walkSegments api (segment :: rest) parent path (at_remote wiki log w)
  = walkSegments api rest (Some (page_id (entry_page e))) path'
      (at_remote wiki (log ++ lookupCalls t parent) w).
Proof.
  intros t path' Hfound. cbn [walkSegments]. unfold mbind at 1, M_bind at 1.
  fold t. rewrite findPageByTitleAndParent_mem, Hfound. reflexivity.
Qed.

Lemma walkSegments_create (segment : string) (rest : list string) (parent : option string)
    (path : string) :
  let t := formatCategoryTitle segment in
  let path' := if Js.truthy path then path +:+ "/" +:+ segment else segment in
  List.find (matches t parent) wiki = None ->
  List.find (hasTitle t) wiki = None ->
  walkSegments api (segment :: rest) parent path (at_remote wiki log w)
  = walkSegments api rest (Some (nextId wiki)) path'
      (at_remote (wiki ++ [container wiki t path' parent])
                 (log ++ lookupCalls t parent ++ createCalls t path' parent) w).
Proof.
  intros t path' Hlookup Hnone. cbn [walkSegments]. unfold mbind at 1, M_bind at 1.
  fold t. rewrite findPageByTitleAndParent_mem, Hlookup. simpl fmap. cbv iota beta.
  unfold mbind at 1, M_bind at 1. fold path'.
  rewrite createOrUpdatePage_new by exact Hnone.
  unfold mret, M_ret, container, createCalls. cbv iota beta. simpl page_id.
  by rewrite <- app_assoc.
Qed.

End Walk.

Lemma buildHierarchy_next (category : string) (rest : list string) (root : option string)
    (hierarchyMap : gmap string (option string)) (w : World Wiki) :
  hierarchyMap !! category = None ->
  buildHierarchy api (category :: rest) root hierarchyMap w
  = match findOrCreateParentPage api category root w with
    | (w', Ok parent) => buildHierarchy api rest root (<[category := parent]> hierarchyMap) w'
    | (w', Throw e) => (w', Throw e)
    end.
Proof.
  intros Hnew. cbn [buildHierarchy]. rewrite Hnew.
  rewrite bool_decide_eq_false_2 by (by intros [? ?]). reflexivity.
Qed.

Lemma nextId_truthy (wiki : Wiki) : Js.truthy (nextId wiki) = true.
Proof. reflexivity. Qed.

Lemma childOf_refl (p t body : string) (wiki : Wiki) :
  Js.truthy p = true -> childOf p (newEntry wiki t body (Some p)) = true.
Proof.
  intros Hp. unfold childOf, newEntry. simpl. rewrite Hp. apply String.eqb_refl.
Qed.

Lemma noTitle_find (t : string) (wiki : Wiki) :
  noTitle t wiki = true -> List.find (hasTitle t) wiki = None.
Proof.
  intros H. rewrite <- (app_nil_r wiki). by rewrite find_hasTitle_app.
Qed.

Lemma noTitle_matches (t : string) (parent : option string) (wiki : Wiki) :
  noTitle t wiki = true -> List.find (matches t parent) wiki = None.
Proof.
  intros H. rewrite <- (app_nil_r wiki). unfold matches. by rewrite find_app_noTitle.
Qed.

Lemma find_matches_app (t : string) (parent : option string) (old new : Wiki) :
  noTitle t old = true ->
  List.find (matches t parent) (old ++ new) = List.find (matches t parent) new.
Proof. intros H. unfold matches. by rewrite find_app_noTitle. Qed.

Lemma matches_new (t body : string) (parent : option string) (wiki : Wiki) :
  matches t parent (newEntry wiki t body parent) = true.
Proof.
  unfold matches, hasTitle. simpl. rewrite String.eqb_refl. simpl.
  destruct parent as [p|]; simpl; [|done].
  destruct (Js.truthy p) eqn:Hp; [|done].
  unfold childOf, Js.or_else. simpl. rewrite Hp. apply String.eqb_refl.
Qed.

(** The requests of the hierarchy step for the three categories. *)
Definition sentFor (wiki : Wiki) (root : option string) : list Call :=
  let pageA := container wiki "A" "a" root in
  let idA := page_id (entry_page pageA) in
  let pageB := container (wiki ++ [pageA]) "B" "a/b" (Some idA) in
  let idB := page_id (entry_page pageB) in
  (lookupCalls "A" root ++ createCalls "A" "a" root) ++
  (lookupCalls "A" root ++ lookupCalls "B" (Some idA) ++ createCalls "B" "a/b" (Some idA)) ++
  (lookupCalls "A" root ++ lookupCalls "B" (Some idA) ++ lookupCalls "C" (Some idB)
   ++ createCalls "C" "a/b/c" (Some idB)).

Lemma three_categories_run (wiki : Wiki) (log : list Call) (w : World Wiki)
    (root : option string) :
  noTitle "A" wiki = true ->
  noTitle "B" wiki = true ->
  noTitle "C" wiki = true ->
  let pageA := container wiki "A" "a" root in
  let idA := page_id (entry_page pageA) in
  let pageB := container (wiki ++ [pageA]) "B" "a/b" (Some idA) in
  let idB := page_id (entry_page pageB) in
  let pageC := container (wiki ++ [pageA; pageB]) "C" "a/b/c" (Some idB) in
  let idC := page_id (entry_page pageC) in
  buildHierarchy api ["a"; "a/b"; "a/b/c"] root ∅ (at_remote wiki log w)
  = (at_remote (wiki ++ [pageA; pageB; pageC]) (log ++ sentFor wiki root) w,
     Ok (<["a/b/c" := Some idC]> (<["a/b" := Some idB]> (<["a" := Some idA]> ∅)))).
Proof.
  intros HA HB HC pageA idA pageB idB pageC idC.
  rewrite buildHierarchy_next by apply lookup_empty.
  unfold findOrCreateParentPage at 1.
  change (Js.truthy "a") with true. cbn [negb].
  change (Js.filter_Boolean (Js.split "/" "a")) with ["a"].
  rewrite walkSegments_create; change (formatCategoryTitle "a") with "A";
    [| by apply noTitle_matches | by apply noTitle_find].
  cbn [walkSegments]. unfold mret at 1, M_ret at 1.
  change (if Js.truthy "" then "" +:+ "/" +:+ "a" else "a") with "a". fold pageA.
  (* a/b *)
  rewrite buildHierarchy_next by (by rewrite lookup_insert_ne, lookup_empty).
  unfold findOrCreateParentPage at 1.
  change (Js.truthy "a/b") with true. cbn [negb].
  change (Js.filter_Boolean (Js.split "/" "a/b")) with ["a"; "b"].
  rewrite (walkSegments_found _ _ _ "a" ["b"] root "" pageA); change (formatCategoryTitle "a") with "A";
    [| rewrite find_matches_app by exact HA;
       cbn [List.find]; unfold pageA, container; by rewrite matches_new ].
  change (if Js.truthy "" then "" +:+ "/" +:+ "a" else "a") with "a".
  rewrite walkSegments_create; change (formatCategoryTitle "b") with "B";
    [| by rewrite find_matches_app by exact HB
     | by rewrite find_hasTitle_app by exact HB ].
  cbn [walkSegments]. unfold mret at 1, M_ret at 1.
  change (if Js.truthy "a" then "a" +:+ "/" +:+ "b" else "b") with "a/b".
  change (page_id (entry_page pageA)) with idA. fold pageB.
  rewrite <- (app_assoc wiki [pageA] [pageB]). cbn [app].
  (* a/b/c *)
  rewrite buildHierarchy_next by (by rewrite !lookup_insert_ne, lookup_empty).
  unfold findOrCreateParentPage at 1.
  change (Js.truthy "a/b/c") with true. cbn [negb].
  change (Js.filter_Boolean (Js.split "/" "a/b/c")) with ["a"; "b"; "c"].
  rewrite (walkSegments_found _ _ _ "a" ["b"; "c"] root "" pageA);
    change (formatCategoryTitle "a") with "A";
    [| rewrite find_matches_app by exact HA;
       cbn [List.find]; unfold pageA, container; by rewrite matches_new ].
  change (if Js.truthy "" then "" +:+ "/" +:+ "a" else "a") with "a".
  rewrite (walkSegments_found _ _ _ "b" ["c"] (Some idA) "a" pageB);
    change (formatCategoryTitle "b") with "B";
    [| rewrite find_matches_app by exact HB;
       cbn [List.find]; change (matches "B" (Some idA) pageA) with false; cbv iota;
       unfold pageB, container; by rewrite matches_new ].
  change (if Js.truthy "a" then "a" +:+ "/" +:+ "b" else "b") with "a/b".
  rewrite walkSegments_create; change (formatCategoryTitle "c") with "C";
    [| by rewrite find_matches_app by exact HC
     | by rewrite find_hasTitle_app by exact HC ].
  cbn [walkSegments]. unfold mret at 1, M_ret at 1.
  change (if Js.truthy "a/b" then "a/b" +:+ "/" +:+ "c" else "c") with "a/b/c".
  change (page_id (entry_page pageB)) with idB. fold pageC.
  rewrite <- (app_assoc wiki [pageA; pageB] [pageC]). cbn [app].
  cbn [buildHierarchy]. unfold mret, M_ret.
  unfold sentFor. fold pageA. fold idA. fold pageB. fold idB.
  by rewrite <- !app_assoc.
Qed.

(** C3 (as amended): when the categories of a run are [a], [a/b] and
    [a/b/c] and the wiki has no page titled [A], [B] or [C] yet, the
    hierarchy step sends exactly three creation requests, one for each
    prefix: [A] under the sync root, [B] under the page created for [a],
    and [C] under the page created for [a/b]; the pages created for the
    shorter paths are found again and used as parents. *)
Theorem C3_three_containers (documents : list Document) (root : option string)
    (w : World Wiki) :
  categoriesOf documents = ["a"; "a/b"; "a/b/c"] ->
  noTitle "A" (server w) = true ->
  noTitle "B" (server w) = true ->
  noTitle "C" (server w) = true ->
  let pageA := container (server w) "A" "a" root in
  let idA := page_id (entry_page pageA) in
  let pageB := container (server w ++ [pageA]) "B" "a/b" (Some idA) in
  let idB := page_id (entry_page pageB) in
  let pageC := container (server w ++ [pageA; pageB]) "C" "a/b/c" (Some idB) in
  let idC := page_id (entry_page pageC) in
  let run := buildHierarchy api (categoriesOf documents) root ∅ w in
  run.2 = Ok (<["a/b/c" := Some idC]> (<["a/b" := Some idB]> (<["a" := Some idA]> ∅))) /\
  server run.1 = server w ++ [pageA; pageB; pageC] /\
  exists sent,
    calls run.1 = calls w ++ sent /\
    List.filter isPOST sent =
      [POST_content "A" (containerContent "A" "a") (entry_parent pageA);
       POST_content "B" (containerContent "B" "a/b") (Some idA);
       POST_content "C" (containerContent "C" "a/b/c") (Some idB)].
Proof.
  intros Hcats HA HB HC pageA idA pageB idB pageC idC run. subst run. rewrite Hcats.
  destruct w as [wiki log pg sm st fl wr]. cbn [server calls] in *.
  set (w0 := {| server := wiki; calls := log; pages := pg; sm_stats := sm; stats := st;
                files := fl; writes := wr |}).
  change w0 with (at_remote wiki log w0).
  rewrite (three_categories_run wiki log w0 root HA HB HC).
  split; [reflexivity|]. split; [reflexivity|].
  exists (sentFor wiki root). split; [reflexivity|].
  unfold sentFor, lookupCalls, createCalls, idB, pageB, idA, pageA, container, newEntry.
  cbn [entry_parent entry_page page_id].
  by destruct (Js.truthy_opt root).
Qed.

(** The three categories on an empty wiki, under no root page. *)
Definition threeDocuments : list Document :=
  [exampleDocument "a/one.md" "a" "one";
   exampleDocument "a/b/two.md" "a/b" "two";
   exampleDocument "a/b/c/three.md" "a/b/c" "three"].

(** A wiki that holds one page titled [B], which is not a container of the
    run and is under no page of the run. *)
Definition foreignB : Wiki :=
  [{| entry_page := {| page_id := "p0"; page_title := "B"; page_version := Some 7;
                       page_body := Some "release notes" |};
      entry_parent := None |}].

Lemma C3_three_containers_witness :
  let run := buildHierarchy api (categoriesOf threeDocuments) None ∅ (emptyWorld []) in
  map (fun e => page_title (entry_page e)) (server run.1) = ["A"; "B"; "C"] /\
  exists sent,
    calls run.1 = sent /\ length (List.filter isPOST sent) = 3%nat.
Proof.
  destruct (C3_three_containers threeDocuments None (emptyWorld []))
    as (_ & Hserver & sent & Hcalls & Hposts); try reflexivity.
  intros run. split.
  - subst run. rewrite Hserver. reflexivity.
  - exists sent. split; [exact Hcalls|]. by rewrite Hposts.
Defined.

(** C3 (as stated) fails: the categories are [a], [a/b] and [a/b/c], but
    the space holds a page titled [B] elsewhere.  The page is not found
    under [A], and [createOrUpdatePage], which searches the whole space,
    updates it instead of creating a container: two creation requests are
    sent, not three, the page [B] is overwritten twice with the placeholder,
    and [C] is created under it. *)
Lemma C3_foreign_title_is_overwritten :
  let run := buildHierarchy api (categoriesOf threeDocuments) None ∅ (emptyWorld foreignB) in
  categoriesOf threeDocuments = ["a"; "a/b"; "a/b/c"] /\
  List.filter isPOST (calls run.1)
    = [POST_content "A" (containerContent "A" "a") None;
       POST_content "C" (containerContent "C" "a/b/c") (Some "p0")] /\
  map (fun e => (page_id (entry_page e), page_title (entry_page e),
                 page_version (entry_page e), entry_parent e)) (server run.1)
    = [("p0", "B", Some 9, None); ("p1", "A", Some 1, None); ("p2", "C", Some 1, Some "p0")] /\
  page_body <$> (entry_page <$> head (server run.1))
    = Some (Some (containerContent "B" "a/b")).
Proof. by vm_compute. Qed.

End MemWikiFacts.

(** ** Pulling pages back and recording versions *)

Module PullFacts.
Import Sync SyncFacts.

(** The record that [syncReverse] stores for a page it pulled. *)
Definition pulledRecord {S} (env : Env S) (pageInfo : PageInfo) (currentVersion : Z) : PageInfo :=
  {| confluenceId := confluenceId pageInfo;
     title := title pageInfo;
     category := category pageInfo;
     slug := slug pageInfo;
     lastModified := toISO env (now env);
     version := Some currentVersion;
     parentId := parentId pageInfo;
     spaceKey := spaceKey pageInfo |}.

(** The expansion [syncReverse] asks for. *)
Definition expandBody : option string := Some "body.storage,version".

Section Facts.

Context {S : Type} (api : Api S) (env : Env S).

(** The file [syncReverse] writes for a page: the front matter of the
    local file and the converted content. *)
Definition pulledContent (fm : list (string * (string + string))) (markdown : string) : string :=
  renderFrontmatter fm +:+ markdown.

(** The local file of the record kept under [path]. *)
Definition target (path : string) : string := path_resolve env (projectRoot env) path.

(** The conversion of a page that was fetched, on the world [w1] that the
    fetch left: it may change the local files (the images it downloads). *)
Definition conversion (path pageId : string) (page : Page) (w1 : World S)
    : (S * gmap string File * list (string * string)) * result string :=
  convertToMarkdown env (Js.or_else (page_body page) "") pageId (target path)
    (server w1) (files w1).

(** The ledger after the state manager recorded [record] under [path]. *)
Definition recorded (path : string) (record : PageInfo) (ledger : gmap string PageInfo)
    : gmap string PageInfo :=
  <[path := upsert (ledger !! path) record]> ledger.

(** The record has no usable [confluenceId]: the loop passes it by. *)
Definition untracked (pageInfo : PageInfo) : Prop :=
  match confluenceId pageInfo with
  | Some pageId => Js.truthy pageId = false
  | None => True
  end.

(** The page is counted as skipped before any conversion: the local files
    and the sync state are as they were. *)
Definition skipsEarly (w w' : World S) : Prop :=
  files w' = files w /\ writes w' = writes w /\ pages w' = pages w /\
  stats w' = incr "skipped" (stats w).

(** The turn comes to the conversion: the record has an id, the page is
    there, its version is greater than the recorded one, the local file
    exists and its front matter parses. *)
Definition converts (path : string) (pageInfo : PageInfo) (w : World S)
    (pageId : string) (w1 : World S) (page : Page)
    (fm : list (string * (string + string))) : Prop :=
  confluenceId pageInfo = Some pageId /\
  Js.truthy pageId = true /\
  getPageById api pageId expandBody w = (w1, Ok (Some page)) /\
  Js.or1 (version pageInfo) < Js.or1 (page_version page) /\
  exists file, files w !! target path = Some file /\ matter env (data file) = Ok fm.

(** The page is converted, in a dry run too, but the command writes no file
    of its own and records nothing: the local files are what the conversion
    left, and the page is counted as skipped. *)
Definition convertsOnly (dryRun : bool) (path : string) (pageInfo : PageInfo)
    (w w' : World S) : Prop :=
  exists pageId w1 page fm s2 files2 written outcome,
    converts path pageInfo w pageId w1 page fm /\
    conversion path pageId page w1 = (s2, files2, written, outcome) /\
    match outcome with
    | Ok _ =>
        (dryRun = true \/ writable env (target path) = false) /\
        stats w' = incr "skipped" (incr "processed" (stats w))
    | Throw _ => stats w' = incr "skipped" (stats w)
    end /\
    files w' = files2 /\
    writes w' = writes w ++ written /\
    pages w' = pages w.

(** The conditions under which a turn of the loop rewrites the local file,
    with what it then does. *)
Definition pulls (dryRun : bool) (path : string) (pageInfo : PageInfo) (w w' : World S) : Prop :=
  exists pageId w1 page fm s2 files2 written markdown,
    converts path pageInfo w pageId w1 page fm /\
    dryRun = false /\
    conversion path pageId page w1 = (s2, files2, written, Ok markdown) /\
    writable env (target path) = true /\
    writes w' = writes w ++ written ++ [(target path, pulledContent fm markdown)] /\
    files w' = <[target path := {| mtime := now env; data := pulledContent fm markdown |}]> files2 /\
    pages w' = recorded path (pulledRecord env pageInfo (Js.or1 (page_version page))) (pages w) /\
    stats w' = incr "updated" (incr "processed" (stats w)).

(** A turn of the loop never throws, and it goes one of four ways. *)
Lemma reverseEntry_cases dryRun path pageInfo w :
  let run := reverseEntry api env dryRun (path, pageInfo) w in
  run.2 = Ok tt /\
  ((untracked pageInfo /\ run.1 = w) \/
   skipsEarly w run.1 \/
   convertsOnly dryRun path pageInfo w run.1 \/
   pulls dryRun path pageInfo w run.1).
Proof.
  unfold reverseEntry, untracked.
  destruct (confluenceId pageInfo) as [pageId|] eqn:Hid; [|by split; [|left]].
  destruct (Js.truthy pageId) eqn:Htruthy; [|by split; [|left]].
  rewrite try_catch_run. unfold reverseBody. rewrite bind_run.
  pose proof (getPageById_preserves api files pageId expandBody w) as Hf.
  pose proof (getPageById_preserves api writes pageId expandBody w) as Hw.
  pose proof (getPageById_preserves api pages pageId expandBody w) as Hp.
  pose proof (getPageById_preserves api stats pageId expandBody w) as Hs.
  fold expandBody.
  destruct (getPageById api pageId expandBody w) as [w1 [[page|]|e]] eqn:Hget;
    simpl in Hf, Hw, Hp, Hs;
    try (split; [reflexivity | right; left; unfold skipsEarly; cbn; by rewrite Hs]).
  destruct (Js.or1 (page_version page) <=? Js.or1 (version pageInfo)) eqn:Hle;
    [split; [reflexivity | right; left; unfold skipsEarly; cbn; by rewrite Hs]|].
  apply Z.leb_gt in Hle.
  rewrite bind_run. unfold pathExists, gets. fold (target path).
  case_bool_decide as Hfile; cbn [negb];
    [|split; [reflexivity | right; left; unfold skipsEarly; cbn; by rewrite Hs]].
  destruct Hfile as [file Hfile].
  rewrite bind_run. unfold readFile. rewrite Hfile.
  rewrite bind_run.
  destruct (matter env (data file)) as [fm|e] eqn:Hfm;
    [|split; [reflexivity | right; left; unfold skipsEarly; cbn; by rewrite Hs]].
  cbn [fromResult]. unfold mret, M_ret.
  assert (Hconverts : converts path pageInfo w pageId w1 page fm).
  { repeat split; try done. exists file. by rewrite <- Hf. }
  rewrite bind_run. unfold liftFs. fold (conversion path pageId page w1).
  destruct (conversion path pageId page w1) as [[[s2 files2] written] [markdown|e]] eqn:Hconv.
  - destruct dryRun.
    + split; [reflexivity|]. right; right; left.
      exists pageId, w1, page, fm, s2, files2, written, (Ok markdown).
      rewrite <- Hs, <- Hw, <- Hp. cbn. split; [exact Hconverts|]. repeat split; auto.
    + rewrite bind_run. unfold stats_incr at 1, modify at 1.
      rewrite bind_run. unfold writeFile. fold (target path).
      destruct (writable env (target path)) eqn:Hwritable.
      * split; [reflexivity|]. right; right; right.
        exists pageId, w1, page, fm, s2, files2, written, markdown.
        rewrite <- Hs, <- Hw, <- Hp.
        unfold mbind, M_bind, setPageState, stats_incr, modify. cbn.
        rewrite <- (assoc_L (++)).
        split; [exact Hconverts|]. by repeat split.
      * split; [reflexivity|]. right; right; left.
        exists pageId, w1, page, fm, s2, files2, written, (Ok markdown).
        rewrite <- Hs, <- Hw, <- Hp. cbn. split; [exact Hconverts|]. repeat split; auto.
  - split; [reflexivity|]. right; right; left.
    exists pageId, w1, page, fm, s2, files2, written, (Throw e).
    rewrite <- Hs, <- Hw, <- Hp. cbn. split; [exact Hconverts|]. by repeat split.
Qed.

Lemma reverseEntry_skips dryRun path pageInfo w pageId w1 page :
  confluenceId pageInfo = Some pageId ->
  Js.truthy pageId = true ->
  getPageById api pageId expandBody w = (w1, Ok (Some page)) ->
  Js.or1 (page_version page) <= Js.or1 (version pageInfo) ->
  reverseEntry api env dryRun (path, pageInfo) w
  = (set_stats (incr "skipped" (stats w1)) w1, Ok tt).
Proof.
  intros Hid Htruthy Hget Hle. unfold reverseEntry. rewrite Hid, Htruthy.
  rewrite try_catch_run. unfold reverseBody. rewrite bind_run. fold expandBody.
  rewrite Hget. apply Z.leb_le in Hle. by rewrite Hle.
Qed.

Lemma reverseEntry_pulls path pageInfo w pageId w1 page fm s2 files2 written markdown :
  converts path pageInfo w pageId w1 page fm ->
  conversion path pageId page w1 = (s2, files2, written, Ok markdown) ->
  writable env (target path) = true ->
  pulls false path pageInfo w (reverseEntry api env false (path, pageInfo) w).1.
Proof.
  intros Hconverts Hconv Hwritable.
  exists pageId, w1, page, fm, s2, files2, written, markdown.
  split; [exact Hconverts|].
  destruct Hconverts as (Hid & Htruthy & Hget & Hlt & file & Hfile & Hfm).
  unfold reverseEntry. rewrite Hid, Htruthy.
  rewrite try_catch_run. unfold reverseBody. rewrite bind_run. fold expandBody.
  rewrite Hget. apply Z.leb_gt in Hlt. rewrite Hlt.
  pose proof (getPageById_preserves api files pageId expandBody w) as Hf.
  pose proof (getPageById_preserves api writes pageId expandBody w) as Hw.
  pose proof (getPageById_preserves api pages pageId expandBody w) as Hp.
  pose proof (getPageById_preserves api stats pageId expandBody w) as Hs.
  rewrite Hget in Hf, Hw, Hp, Hs. simpl in Hf, Hw, Hp, Hs.
  rewrite bind_run. unfold pathExists, gets. fold (target path).
  rewrite bool_decide_eq_true_2 by (rewrite Hf; by eexists). cbn [negb].
  rewrite bind_run. unfold readFile. rewrite Hf, Hfile.
  rewrite bind_run, Hfm. cbn [fromResult]. unfold mret, M_ret.
  rewrite bind_run. unfold liftFs. fold (conversion path pageId page w1). rewrite Hconv.
  unfold mbind, M_bind, stats_incr, writeFile, setPageState, modify.
  fold (target path). rewrite Hwritable.
  rewrite <- Hs, <- Hw, <- Hp. cbn. rewrite <- (assoc_L (++)). by repeat split.
Qed.

(** C2 (as amended): a turn of the loop of [syncReverse] never throws and
    goes one of four ways: the record has no id and nothing happens; the
    page is counted as skipped with the local files and the sync state as
    they were; the page is converted (the conversion may write image files,
    in a dry run too) but the command writes no file of its own, the sync
    state is as it was and the page is counted as skipped; or the file is
    rewritten.  The files, the writes or the sync state change only if the
    current remote version (read as 1 when absent or 0) is strictly greater
    than the version of the record (read the same way).  When it is not
    greater the page is counted as skipped and nothing else changes.  When
    it is greater, the local file exists, its front matter parses, the run
    is not a dry run, the page converts and the file can be written, the
    file is rewritten after the writes of the conversion, the record takes
    the current version and the page is counted as processed and updated. *)
Theorem C2_pull_only_newer_versions dryRun path pageInfo w :
  let run := reverseEntry api env dryRun (path, pageInfo) w in
  run.2 = Ok tt /\
  ((untracked pageInfo /\ run.1 = w) \/
   skipsEarly w run.1 \/
   convertsOnly dryRun path pageInfo w run.1 \/
   pulls dryRun path pageInfo w run.1) /\
  (files run.1 <> files w \/ writes run.1 <> writes w \/ pages run.1 <> pages w ->
   exists pageId w1 page,
     confluenceId pageInfo = Some pageId /\
     getPageById api pageId expandBody w = (w1, Ok (Some page)) /\
     Js.or1 (version pageInfo) < Js.or1 (page_version page)) /\
  (forall pageId w1 page,
     confluenceId pageInfo = Some pageId ->
     Js.truthy pageId = true ->
     getPageById api pageId expandBody w = (w1, Ok (Some page)) ->
     Js.or1 (page_version page) <= Js.or1 (version pageInfo) ->
     skipsEarly w run.1) /\
  (forall pageId w1 page fm s2 files2 written markdown,
     converts path pageInfo w pageId w1 page fm ->
     dryRun = false ->
     conversion path pageId page w1 = (s2, files2, written, Ok markdown) ->
     writable env (target path) = true ->
     pulls dryRun path pageInfo w run.1).
Proof.
  intros run. subst run.
  destruct (reverseEntry_cases dryRun path pageInfo w) as [Hok Hcases].
  split; [exact Hok|]. split; [exact Hcases|]. split; [|split].
  - intros Hchanged.
    destruct Hcases as [[_ Hsame]|[(Hf & Hw & Hp & _)|[Honly|Hpulls]]].
    + rewrite Hsame in Hchanged. by destruct Hchanged as [?|[?|?]].
    + by destruct Hchanged as [?|[?|?]].
    + destruct Honly as (pageId & w1 & page & fm & s2 & files2 & written & outcome
                         & (Hid & _ & Hget & Hlt & _) & _).
      by exists pageId, w1, page.
    + destruct Hpulls as (pageId & w1 & page & fm & s2 & files2 & written & markdown
                          & (Hid & _ & Hget & Hlt & _) & _).
      by exists pageId, w1, page.
  - intros pageId w1 page Hid Htruthy Hget Hle.
    rewrite (reverseEntry_skips dryRun path pageInfo w pageId w1 page) by done.
    pose proof (getPageById_preserves api files pageId expandBody w) as Hf.
    pose proof (getPageById_preserves api writes pageId expandBody w) as Hw.
    pose proof (getPageById_preserves api pages pageId expandBody w) as Hp.
    pose proof (getPageById_preserves api stats pageId expandBody w) as Hs.
    rewrite Hget in Hf, Hw, Hp, Hs. simpl in *. unfold skipsEarly. cbn. by rewrite Hs.
  - intros pageId w1 page fm s2 files2 written markdown Hconverts -> Hconv Hwritable.
    by eapply reverseEntry_pulls.
Qed.

(** *** Versions in the sync state *)

(** The order of the versions of a record: a version that is left out is
    below every version. *)
Definition versionLe (a b : option Z) : Prop :=
  match a, b with
  | None, _ => True
  | Some x, Some y => x <= y
  | Some _, None => False
  end.

(** No record of [ledger] is lost in [ledger'], and none has a lower
    version there. *)
Definition advances (ledger ledger' : gmap string PageInfo) : Prop :=
  forall path old,
    ledger !! path = Some old ->
    exists new, ledger' !! path = Some new /\ versionLe (version old) (version new).

(** [m] never lowers a recorded version, whether it returns or throws. *)
Definition keepsVersions {A} (m : M S A) : Prop :=
  forall w, advances (pages w) (pages (m w).1).

Lemma versionLe_refl a : versionLe a a.
Proof. destruct a; simpl; [lia | done]. Qed.

Lemma versionLe_trans a b c : versionLe a b -> versionLe b c -> versionLe a c.
Proof. destruct a, b, c; simpl; try done; lia. Qed.

Lemma laterVersion_recorded a b : versionLe a (laterVersion a b).
Proof. destruct a, b; simpl; try done; lia. Qed.

Lemma laterVersion_new a b : versionLe b (laterVersion a b).
Proof. destruct a, b; simpl; try done; lia. Qed.

Lemma advances_refl ledger : advances ledger ledger.
Proof. intros path old Hold. exists old. split; [done | apply versionLe_refl]. Qed.

Lemma advances_trans a b c : advances a b -> advances b c -> advances a c.
Proof.
  intros Hab Hbc path old Hold.
  destruct (Hab path old Hold) as (mid & Hmid & Hle1).
  destruct (Hbc path mid Hmid) as (new & Hnew & Hle2).
  exists new. split; [done | by eapply versionLe_trans].
Qed.

Lemma upsert_version previous record :
  version (upsert (Some previous) record) = laterVersion (version previous) (version record).
Proof. reflexivity. Qed.

Lemma advances_recorded path record ledger : advances ledger (recorded path record ledger).
Proof.
  intros p old Hold. unfold recorded.
  destruct (decide (p = path)) as [->|Hne].
  - rewrite lookup_insert_eq, Hold. eexists. split; [reflexivity|].
    rewrite upsert_version. apply laterVersion_recorded.
  - rewrite lookup_insert_ne by done. exists old. split; [done | apply versionLe_refl].
Qed.

Lemma keepsVersions_preserves {A} (m : M S A) : preserves pages m -> keepsVersions m.
Proof. intros Hm w. rewrite Hm. apply advances_refl. Qed.

Lemma keepsVersions_bind {A C} (m : M S A) (f : A -> M S C) :
  keepsVersions m -> (forall a, keepsVersions (f a)) -> keepsVersions (m ≫= f).
Proof.
  intros Hm Hf w. rewrite bind_run. specialize (Hm w).
  destruct (m w) as [w1 [a|e]]; simpl in *; [|done].
  eapply advances_trans; [exact Hm | apply Hf].
Qed.

Lemma keepsVersions_try_catch {A} (body : M S A) (handler : string -> M S A) :
  keepsVersions body -> (forall e, keepsVersions (handler e)) ->
  keepsVersions (try_catch body handler).
Proof.
  intros Hm Hh w. rewrite try_catch_run. specialize (Hm w).
  destruct (body w) as [w1 [a|e]]; simpl in *; [done|].
  eapply advances_trans; [exact Hm | apply Hh].
Qed.

Lemma keepsVersions_setPageState path record :
  keepsVersions (setPageState (S := S) path record).
Proof. intros w. apply advances_recorded. Qed.

Lemma keepsVersions_stats_incr field : keepsVersions (stats_incr (S := S) field).
Proof. by apply keepsVersions_preserves. Qed.

Lemma keepsVersions_updateStats field : keepsVersions (updateStats (S := S) field).
Proof. by apply keepsVersions_preserves. Qed.

(** Splits a computation along its binds and case distinctions, down to
    the state manager's upsert and to what leaves the sync state alone. *)
Ltac versions :=
  repeat first
    [ apply keepsVersions_setPageState
    | apply keepsVersions_stats_incr
    | apply keepsVersions_updateStats
    | solve [apply keepsVersions_preserves;
             first [ apply preserves_ret | apply preserves_throw | apply preserves_gets
                   | apply preserves_lift; apply _
                   | apply preserves_liftFs; apply _
                   | apply createOrUpdatePage_preserves; apply _
                   | apply updatePage_preserves; apply _
                   | apply processMedia_preserves; apply _
                   | apply getPageById_preserves; apply _
                   | apply toISOString_preserves ]]
    | apply keepsVersions_bind; [|intros ?]
    | apply keepsVersions_try_catch; [|intros ?]
    | match goal with
      | |- keepsVersions (match ?x with _ => _ end) => destruct x
      end ].

Lemma processDocument_keepsVersions dryRun config root hierarchyMap document :
  keepsVersions (processDocument api env dryRun config root hierarchyMap document).
Proof.
  unfold processDocument, documentBody. destruct dryRun; cbn [negb andb]; versions.
Qed.

Lemma processDocuments_keepsVersions dryRun config root hierarchyMap documents :
  keepsVersions (processDocuments api env dryRun config root hierarchyMap documents).
Proof.
  induction documents as [|document rest IH]; simpl.
  - apply keepsVersions_preserves, preserves_ret.
  - apply keepsVersions_bind; [apply processDocument_keepsVersions | intros _; exact IH].
Qed.

Lemma reverseEntry_keepsVersions dryRun entry :
  keepsVersions (reverseEntry api env dryRun entry).
Proof.
  destruct entry as [path pageInfo]. intros w.
  destruct (reverseEntry_cases dryRun path pageInfo w)
    as [_ [[_ ->]|[(_ & _ & -> & _)|[Honly|Hpulls]]]]; try apply advances_refl.
  - destruct Honly as (? & ? & ? & ? & ? & ? & ? & ? & _ & _ & _ & _ & _ & ->).
    apply advances_refl.
  - destruct Hpulls as (? & ? & ? & ? & ? & ? & ? & ? & _ & _ & _ & _ & _ & _ & -> & _).
    apply advances_recorded.
Qed.

Lemma reverseEntries_keepsVersions dryRun entries :
  keepsVersions (reverseEntries api env dryRun entries).
Proof.
  induction entries as [|entry rest IH]; simpl.
  - apply keepsVersions_preserves, preserves_ret.
  - apply keepsVersions_bind; [apply reverseEntry_keepsVersions | intros _; exact IH].
Qed.

(** The path under which [syncFile] records a file. *)
Definition recordedPath (absolutePath : string) : string :=
  Js.replace_char "\" "/" (path_relative env (projectRoot env) absolutePath).

Lemma recordFile_keepsVersions config absolutePath rootParent parsedContent result :
  keepsVersions (recordFile api env config absolutePath rootParent parsedContent result).
Proof. unfold recordFile. versions. Qed.

Lemma preserves_run {A B} (proj : World S -> B) (m : M S A) w w' r :
  m w = (w', r) -> preserves proj m -> proj w' = proj w.
Proof. intros Hrun Hm. specialize (Hm w). by rewrite Hrun in Hm. Qed.

Lemma bind_ok_inv {A C} (m : M S A) (f : A -> M S C) w w' c :
  (m ≫= f) w = (w', Ok c) ->
  exists a w1, m w = (w1, Ok a) /\ f a w1 = (w', Ok c).
Proof.
  rewrite bind_run. destruct (m w) as [w1 [a|e]]; [|done]. by exists a, w1.
Qed.

(** The record that [syncFile] hands to the state manager. *)
Definition fileRecord (rootParent : option string) (result : Page) : PageInfo :=
  {| confluenceId := Some (page_id result);
     title := page_title result;
     category := None;
     slug := None;
     lastModified := toISO env (now env);
     version := Some (Js.or1 (page_version result));
     parentId := rootParent;
     spaceKey := None |}.

Lemma recordFile_pages config absolutePath rootParent parsedContent result w w' outcome :
  recordFile api env config absolutePath rootParent parsedContent result w = (w', Ok outcome) ->
  pages w' = recorded (recordedPath absolutePath) (fileRecord rootParent result) (pages w).
Proof.
  unfold recordFile. intros Hrun.
  apply bind_ok_inv in Hrun as (final & w1 & H1 & Hrun).
  apply bind_ok_inv in Hrun as (images & w2 & H2 & Hrun).
  apply bind_ok_inv in Hrun as ([] & w3 & H3 & Hrun).
  apply bind_ok_inv in Hrun as ([] & w4 & H4 & Hrun).
  apply bind_ok_inv in Hrun as ([] & w5 & Hset & Hrun).
  apply bind_ok_inv in Hrun as (ledger & w6 & Hgets & Hrun).
  apply bind_ok_inv in Hrun as ([] & w7 & Hsave & Hrun).
  injection Hrun as <- _. injection Hgets as <- _.
  pose proof (preserves_lift pages (saveState env ledger) w5) as Hp.
  rewrite Hsave in Hp. simpl in Hp. rewrite Hp.
  injection Hset as <-. cbn. unfold recorded, recordedPath, fileRecord.
  assert (Hpages : pages w4 = pages w); [|by rewrite Hpages].
  rewrite (preserves_run pages _ _ _ _ H4) by (apply preserves_lift; apply _).
  rewrite (preserves_run pages _ _ _ _ H3).
  - rewrite (preserves_run pages _ _ _ _ H2) by (apply preserves_lift; apply _).
    apply (preserves_run pages _ _ _ _ H1). apply preserves_lift; apply _.
  - repeat first
      [ apply preserves_ret
      | solve [apply preserves_lift; apply _]
      | solve [apply updatePage_preserves; apply _]
      | apply preserves_bind; [|intros ?]
      | match goal with |- preserves _ (match ?x with _ => _ end) => destruct x end ].
Qed.

(** C4: on the state manager described by the specification (an object
    keyed by path, so that a path has at most one record, whose
    [setPageState] is an upsert that never decreases the version), recording
    under a path replaces the record of that path, if there is one, and adds
    a record otherwise; the records of the other paths are as they were; and
    the version stored is neither below the version recorded before nor
    below the version handed in.  No operation of the commands that
    rewrites a record lowers a recorded version or loses a record: not the
    recording of a push by [syncFile], which hands in the version of the
    page that the create-or-update call returned, not the loop of [syncDocs]
    over the documents, not the loop of [syncReverse] over the tracked
    pages. *)
Theorem C4_one_record_and_versions :
  (forall path record (w : World S),
     let ledger := pages (setPageState path record w).1 in
     (exists stored,
        ledger !! path = Some stored /\
        versionLe (version record) (version stored) /\
        forall old, pages w !! path = Some old -> versionLe (version old) (version stored)) /\
     (forall other, other <> path -> ledger !! other = pages w !! other) /\
     size ledger = if bool_decide (is_Some (pages w !! path))
                   then size (pages w) else Datatypes.S (size (pages w))) /\
  (forall config absolutePath rootParent parsedContent result w,
     let run := recordFile api env config absolutePath rootParent parsedContent result w in
     advances (pages w) (pages run.1) /\
     forall outcome, run.2 = Ok outcome ->
       pages run.1 = recorded (recordedPath absolutePath) (fileRecord rootParent result) (pages w)) /\
  (forall dryRun config rootParent hierarchyMap documents w,
     advances (pages w)
       (pages (processDocuments api env dryRun config rootParent hierarchyMap documents w).1)) /\
  (forall dryRun entries w,
     advances (pages w) (pages (reverseEntries api env dryRun entries w).1)).
Proof.
  split; [|split; [|split]].
  - intros path record w ledger. subst ledger. cbn.
    split; [|split].
    + rewrite lookup_insert_eq. eexists. split; [reflexivity|].
      destruct (pages w !! path) as [previous|] eqn:Hprev; simpl.
      * split; [apply laterVersion_new|]. intros old [= <-]. apply laterVersion_recorded.
      * split; [apply versionLe_refl | done].
    + intros other Hne. by rewrite lookup_insert_ne.
    + case_bool_decide as Hin.
      * destruct Hin as [old Hold].
        rewrite <- (insert_delete_eq (pages w)), map_size_insert_None by apply lookup_delete_eq.
        rewrite <- (insert_id (pages w) path old) at 2 by done.
        rewrite <- (insert_delete_eq (pages w)) at 1.
        by rewrite map_size_insert_None by apply lookup_delete_eq.
      * rewrite map_size_insert_None; [done|].
        destruct (pages w !! path) eqn:E; [|done]. exfalso. apply Hin. by eexists.
  - intros config absolutePath rootParent parsedContent result w run. subst run.
    split; [apply recordFile_keepsVersions|].
    intros outcome Hok.
    destruct (recordFile api env config absolutePath rootParent parsedContent result w)
      as [w' r] eqn:Hrun.
    simpl in Hok. subst r. by eapply recordFile_pages.
  - intros. apply processDocuments_keepsVersions.
  - intros. apply reverseEntries_keepsVersions.
Qed.

End Facts.

(** *** Examples on the in-memory wiki *)

Import MemWiki.

Definition trackedRecord (v : option Z) : PageInfo :=
  {| confluenceId := Some "p0"; title := "Doc"; category := None; slug := None;
     lastModified := "0"; version := v; parentId := None; spaceKey := None |}.

(** The page [p0] at version [v] on the wiki. *)
Definition remoteDoc (v : Z) : Wiki :=
  [{| entry_page := {| page_id := "p0"; page_title := "Doc"; page_version := Some v;
                       page_body := Some "remote text" |};
      entry_parent := None |}].

(** A project with the file [docs/a.md]. *)
Definition projectWorld (wiki : Wiki) : World Wiki :=
  set_files {[ "/site/docs/a.md" := {| mtime := 0; data := "local text" |} ]} []
            (emptyWorld wiki).

(** The record says version 1, the page is at version 2, the run is a dry
    run. *)
Definition dryPull : World Wiki * result Summary :=
  syncReverse api (exampleEnv [] {[ "docs/a.md" := trackedRecord (Some 1) ]}) true
    (projectWorld (remoteDoc 2)).

(** C2 (as stated) fails: the remote version 2 is greater than the recorded
    version 1, yet the dry run writes no file. *)
Lemma C2_dry_run_does_not_rewrite :
  Js.or1 (version (trackedRecord (Some 1))) < Js.or1 (Some 2) /\
  dryPull.2 = Ok {| success := true; sum_processed := 1; sum_created := None;
                    sum_updated := 0; sum_skipped := 1; sum_failed := None |} /\
  writes dryPull.1 = [] /\
  files dryPull.1 = files (projectWorld (remoteDoc 2)).
Proof. by vm_compute. Qed.

(** The same page pulled in a real run. *)
Lemma pull_example :
  let run := syncReverse api (exampleEnv [] {[ "docs/a.md" := trackedRecord (Some 1) ]}) false
               (projectWorld (remoteDoc 2)) in
  writes run.1 = [("/site/docs/a.md", "remote text")] /\
  version <$> pages run.1 !! "docs/a.md" = Some (Some 2).
Proof. by vm_compute. Qed.

(** The same dry run when the page holds an image: the conversion saves the
    image, the Markdown file is not rewritten and the record stays at
    version 1. *)
Lemma dry_pull_saves_images :
  let run := syncReverse api (imagesEnv [] {[ "docs/a.md" := trackedRecord (Some 1) ]}) true
               (projectWorld (remoteDoc 2)) in
  writes run.1 = [("/site/docs/images/figure.png", "image-data")] /\
  data <$> files run.1 !! "/site/docs/a.md" = Some "local text" /\
  version <$> pages run.1 !! "docs/a.md" = Some (Some 1).
Proof. by vm_compute. Qed.

(** The record says version 5; the page is gone from the wiki and
    [syncFile] creates it again, at version 1. *)
Definition pushAfterDeletion : World Wiki * result FileResult :=
  syncFile api (exampleEnv [] {[ "docs/a.md" := trackedRecord (Some 5) ]}) "docs/a.md" false
    (projectWorld []).

(** The page was created at version 1 and the record keeps version 5. *)
Lemma push_keeps_later_version :
  action <$> match pushAfterDeletion.2 with Ok r => Some r | Throw _ => None end
    = Some "created" /\
  page_version <$> (entry_page <$> head (server pushAfterDeletion.1)) = Some (Some 1) /\
  version <$> pages pushAfterDeletion.1 !! "docs/a.md" = Some (Some 5).
Proof. by vm_compute. Qed.

End PullFacts.

(** ** Attachments of the reverse transformer *)

Module AttachmentFacts.
Import Sync SyncFacts.

Section Facts.

Context {S : Type} (api : Api S) (env : Env S).

(** The image that [downloadAndSaveAttachment] returns for a file name. *)
Definition localImage (attachment : Attachment) (filename : string) : ProcessedImage :=
  {| img_relativePath := "images/" +:+ safeName filename;
     img_alt := Js.or_else (att_title attachment) filename |}.

(** The freshness check of lines 453-464: a local file of the safe name
    exists and its modification time is not before the attachment's date. *)
Definition reusable (attachment : Attachment) (filename imagesDir : string) (w : World S) : bool :=
  match files w !! path_join env imagesDir (safeName filename) with
  | Some file => notOlder (mtime file) (attachmentDate env attachment)
  | None => false
  end.

(** The world after the download request for [url] answered with [s']. *)
Definition requested (url : string) (s' : S) (w : World S) : World S :=
  set_server s' (set_calls (calls w ++ [GET_download url]) w).

Lemma downloadAttachment_run (url : string) (w : World S) :
  downloadAttachment api url w =
  match api_download api url (server w) with
  | (s', Ok buffer) => (requested url s' w, Ok buffer)
  | (s', Throw e) => (requested url s' w, Throw ("Could not download attachment: " +:+ e))
  end.
Proof.
  unfold downloadAttachment. rewrite try_catch_run. unfold request.
  by destruct (api_download api url (server w)) as [s' [buffer|e]].
Qed.

Lemma downloadAndSaveAttachment_run (client : Config) (attachment : Attachment)
    (filename imagesDir : string) (w : World S) :
  let path := path_join env imagesDir (safeName filename) in
  let run := downloadAndSaveAttachment api env (Some client) attachment filename imagesDir w in
  if reusable attachment filename imagesDir w
  then run = (w, Ok (Some (localImage attachment filename)))
  else
    match getAttachmentDownloadUrl client (links_download attachment) with
    | None => run = (w, Ok None)
    | Some url =>
        match api_download api url (server w) with
        | (s', Ok buffer) =>
            if writable env path
            then
              run = (set_files (<[path := {| mtime := now env; data := buffer |}]> (files w))
                               (writes w ++ [(path, buffer)]) (requested url s' w),
                     Ok (Some (localImage attachment filename)))
            else run = (requested url s' w, Ok None)
        | (s', Throw _) => run = (requested url s' w, Ok None)
        end
    end.
Proof.
  intros path run. subst run.
  unfold downloadAndSaveAttachment, reusable, try_catch, mbind, M_bind, mret, M_ret,
    pathExists, gets, stat_mtime, writeFile.
  fold path.
  destruct (files w !! path) as [file|] eqn:Hfile.
  - rewrite bool_decide_eq_true_2 by (by eexists).
    cbv beta iota. rewrite Hfile.
    destruct (notOlder (mtime file) (attachmentDate env attachment)); [reflexivity|].
    destruct (getAttachmentDownloadUrl client (links_download attachment)) as [url|];
      [|reflexivity].
    rewrite downloadAttachment_run.
    destruct (api_download api url (server w)) as [s' [buffer|e]]; [|reflexivity].
    by destruct (writable env path).
  - rewrite bool_decide_eq_false_2 by (by intros [? ?]).
    destruct (getAttachmentDownloadUrl client (links_download attachment)) as [url|];
      [|reflexivity].
    rewrite downloadAttachment_run.
    destruct (api_download api url (server w)) as [s' [buffer|e]]; [|reflexivity].
    by destruct (writable env path).
Qed.

(** The freshness check, written out. *)
Lemma reusable_fresh (attachment : Attachment) (filename imagesDir : string) (w : World S) :
  reusable attachment filename imagesDir w = true <->
  exists file date,
    files w !! path_join env imagesDir (safeName filename) = Some file /\
    attachmentDate env attachment = Some date /\
    date <= mtime file.
Proof.
  unfold reusable, notOlder. split.
  - destruct (files w !! _) as [file|]; [|done].
    destruct (attachmentDate env attachment) as [date|]; [|done].
    intros Hle. exists file, date. repeat split. by apply Z.leb_le.
  - intros (file & date & -> & -> & Hle). by apply Z.leb_le.
Qed.

Lemma requested_calls (url : string) (s' : S) (w : World S) :
  calls (requested url s' w) <> calls w.
Proof.
  cbn. intros Heq. apply (f_equal length) in Heq. rewrite length_app in Heq.
  simpl in Heq. lia.
Qed.

(** C6 (as amended): with a client, the local file is reused, with no
    request and no write, exactly when a file of the safe name exists in
    the images directory and its modification time is later than or equal
    to the attachment's date (an invalid date is never reached); when there
    is no such file a download is attempted if the attachment has a
    download link, and the bytes are written to the file when it succeeds;
    with no link, after a failed download or a failed write, no image is
    returned; an image that is returned is mapped to [images/] followed by
    the safe file name; without a client no image is returned and nothing
    is done. *)
Theorem C6_attachment_reuse_or_download (client : Config) (attachment : Attachment)
    (filename imagesDir : string) (w : World S) :
  let path := path_join env imagesDir (safeName filename) in
  let run := downloadAndSaveAttachment api env (Some client) attachment filename imagesDir w in
  let fresh :=
    exists file date,
      files w !! path = Some file /\
      attachmentDate env attachment = Some date /\
      date <= mtime file in
  (fresh -> run = (w, Ok (Some (localImage attachment filename)))) /\
  (~ fresh ->
   match getAttachmentDownloadUrl client (links_download attachment) with
   | None => run = (w, Ok None)
   | Some url =>
       match api_download api url (server w) with
       | (s', Ok buffer) =>
           if writable env path
           then
             run = (set_files (<[path := {| mtime := now env; data := buffer |}]> (files w))
                              (writes w ++ [(path, buffer)]) (requested url s' w),
                    Ok (Some (localImage attachment filename)))
           else run = (requested url s' w, Ok None)
       | (s', Throw _) => run = (requested url s' w, Ok None)
       end
   end) /\
  ((calls run.1 = calls w /\ exists image, run.2 = Ok (Some image)) <-> fresh) /\
  (forall image, run.2 = Ok (Some image) ->
     image = {| img_relativePath := "images/" +:+ safeName filename;
                img_alt := Js.or_else (att_title attachment) filename |}) /\
  downloadAndSaveAttachment api env None attachment filename imagesDir w = (w, Ok None).
Proof.
  intros path run fresh.
  pose proof (downloadAndSaveAttachment_run client attachment filename imagesDir w) as Hrun.
  pose proof (reusable_fresh attachment filename imagesDir w) as Hfresh.
  cbv zeta in Hrun. fold path in Hrun, Hfresh. fold run in Hrun. fold fresh in Hfresh.
  destruct (reusable attachment filename imagesDir w).
  - assert (Hyes : fresh) by by apply Hfresh.
    split; [done|]. split; [done|]. split; [|split; [|reflexivity]].
    + split; [done|]. intros _. rewrite Hrun. split; [done | by eexists].
    + intros image. rewrite Hrun. by intros [= <-].
  - assert (Hno : ~ fresh) by (intros H; by apply Hfresh in H).
    split; [done|]. split; [done|]. split; [|split; [|reflexivity]].
    + split; [|done]. intros [Hcalls [image Himage]]. exfalso. revert Hrun.
      destruct (getAttachmentDownloadUrl client (links_download attachment)) as [url|].
      * destruct (api_download api url (server w)) as [s' [buffer|e]];
          [destruct (writable env path)|];
          intros Hrun; rewrite Hrun in Hcalls, Himage; try done.
        by apply (requested_calls url s' w).
      * intros Hrun. by rewrite Hrun in Himage.
    + intros image Himage. revert Hrun.
      destruct (getAttachmentDownloadUrl client (links_download attachment)) as [url|].
      * destruct (api_download api url (server w)) as [s' [buffer|e]];
          [destruct (writable env path)|];
          intros Hrun; rewrite Hrun in Himage; try done. by injection Himage as <-.
      * intros Hrun. by rewrite Hrun in Himage.
Qed.

End Facts.

(** *** An example on the in-memory wiki *)

Import MemWiki.

Definition diagramAttachment : Attachment :=
  {| att_id := Some "12345"; att_title := Some "diagram.png";
     version_when := Some "100"; metadata_createdDate := Some "100";
     links_download := Some "download/attachments/12345/diagram.png" |}.

(** A local copy written at the very time of the attachment's version. *)
Definition sameTimeWorld : World Wiki :=
  set_files {[ "/site/docs/images/diagram.png" := {| mtime := 100; data := "old bytes" |} ]} []
            (emptyWorld []).

(** C6 (as stated) fails: the local file is not newer than the attachment
    (both are of time 100), yet the download is skipped and the file reused. *)
Lemma C6_same_time_skips_download :
  let run := downloadAndSaveAttachment api (exampleEnv [] ∅) (Some exampleConfig)
               diagramAttachment "diagram.png" "/site/docs/images" sameTimeWorld in
  attachmentDate (exampleEnv [] ∅) diagramAttachment = Some 100 /\
  mtime <$> files sameTimeWorld !! "/site/docs/images/diagram.png" = Some 100 /\
  (100 <? 100) = false /\
  run.2 = Ok (Some {| img_relativePath := "images/diagram.png"; img_alt := "diagram.png" |}) /\
  calls run.1 = [] /\
  writes run.1 = [].
Proof. by vm_compute. Qed.

(** An older local copy is replaced by the download. *)
Lemma download_example :
  let older :=
    set_files {[ "/site/docs/images/diagram.png" := {| mtime := 99; data := "old bytes" |} ]} []
              (emptyWorld []) in
  let run := downloadAndSaveAttachment api (exampleEnv [] ∅) (Some exampleConfig)
               diagramAttachment "diagram.png" "/site/docs/images" older in
  calls run.1 =
    [GET_download "https://example.atlassian.net/wiki/download/attachments/12345/diagram.png"] /\
  writes run.1 = [("/site/docs/images/diagram.png", "image-data")].
Proof. by vm_compute. Qed.

End AttachmentFacts.

(** ** The reference index *)

Module RefIndexFacts.
Import Sync RefIndex.

Lemma splitAnchor_append (token : string) :
  token = (splitAnchor token).1 +:+ (splitAnchor token).2.
Proof.
  induction token as [|a rest IH]; [reflexivity|]. simpl.
  destruct (Ascii.eqb a "#"); [reflexivity|].
  destruct (splitAnchor rest) as [path anchor]. simpl in *. by rewrite IH at 1.
Qed.

Lemma splitAnchor_anchor (token : string) :
  (splitAnchor token).2 = "" \/ Js.startsWith "#" (splitAnchor token).2 = true.
Proof.
  induction token as [|a rest IH]; [by left|]. simpl.
  destruct (Ascii.eqb a "#") eqn:E.
  - right. apply Ascii.eqb_eq in E. by subst a.
  - by destruct (splitAnchor rest) as [path anchor].
Qed.

Lemma splitAnchor_path (token : string) :
  Js.includes "#" (splitAnchor token).1 = false.
Proof.
  induction token as [|a rest IH]; [reflexivity|]. cbn [splitAnchor].
  destruct (Ascii.eqb a "#") eqn:E; [reflexivity|].
  destruct (splitAnchor rest) as [path anchor]. cbn [fst] in *.
  cbn [Js.includes Js.startsWith].
  destruct (Ascii.eqb "#" a) eqn:E';
    [apply Ascii.eqb_eq in E'; subst a; discriminate E|].
  cbn [andb orb]. exact IH.
Qed.

(** C1: for a link token that the reference index resolves, the rewritten
    URL is the base URL, [/wiki/spaces/], the space key, [/pages/], the page
    id, [/], the encoded title and the anchor; the anchor is the part of the
    token from its first [#] on, unchanged, and empty when the token has no
    [#]. *)
Theorem C1_rewritten_url_shape (urlEncode : string -> string) (baseUrl spaceKey : string)
    (records : gmap string PageInfo) (linkToken sourceDocumentPath : string)
    (target : ReferenceTarget) :
  resolve records linkToken sourceDocumentPath = Some target ->
  rewriteLink urlEncode baseUrl spaceKey records linkToken sourceDocumentPath
    = Some (baseUrl +:+ "/wiki/spaces/" +:+ spaceKey +:+ "/pages/" +:+ remotePageId target
            +:+ "/" +:+ urlEncode (targetTitle target) +:+ anchor target) /\
  anchor target = (splitAnchor linkToken).2 /\
  linkToken = (splitAnchor linkToken).1 +:+ anchor target /\
  Js.includes "#" (splitAnchor linkToken).1 = false /\
  (anchor target = "" \/ Js.startsWith "#" (anchor target) = true).
Proof.
  intros Hresolve.
  assert (Hanchor : anchor target = (splitAnchor linkToken).2).
  { revert Hresolve. unfold resolve.
    destruct (splitAnchor linkToken) as [path a]. simpl.
    destruct (lookupRecord records (canonicalPath path sourceDocumentPath)) as [record|];
      simpl; [|done].
    destruct (confluenceId record); simpl; [|done]. by intros [= <-]. }
  split.
  - unfold rewriteLink. rewrite Hresolve. reflexivity.
  - split; [exact Hanchor|]. rewrite Hanchor.
    split; [apply splitAnchor_append|].
    split; [apply splitAnchor_path | apply splitAnchor_anchor].
Qed.

Lemma C1_rewritten_url_shape_witness :
  rewriteLink plusEncode "https://f8a.atlassian.net" "CEX" exampleRecords
    "./intro.md#getting-started" "docs/guide.md"
  = Some "https://f8a.atlassian.net/wiki/spaces/CEX/pages/45514944/Tutorial+Intro#getting-started".
Proof.
  apply (C1_rewritten_url_shape plusEncode "https://f8a.atlassian.net" "CEX" exampleRecords
           "./intro.md#getting-started" "docs/guide.md"
           {| remotePageId := "45514944"; targetTitle := "Tutorial Intro";
              anchor := "#getting-started" |}).
  by vm_compute.
Defined.

End RefIndexFacts.

(** ** Titles, file names and blank lines *)

Module TextFacts.
Import Sync Markdown.

Ltac ascii_cases a := destruct a as [[] [] [] [] [] [] [] []].












(** *** Safe file names *)

(** The characters a safe file name is made of. *)
Definition keptChar (a : ascii) : bool :=
  Js.is_lower a || Js.is_upper a || Js.is_digit a || Ascii.eqb a "." || Ascii.eqb a "-".

Definition safeChar (a : ascii) : bool := keptChar a || Ascii.eqb a "_".

Lemma safeName_chars (s : string) :
  Forall (fun a => safeChar a = true) (list_ascii_of_string (safeName s)).
Proof.
  induction s as [|a s IH]; [constructor|].
  cbn [safeName list_ascii_of_string]. constructor; [|exact IH].
  unfold safeChar, keptChar.
  destruct (Js.is_lower a || Js.is_upper a || Js.is_digit a || Ascii.eqb a "." || Ascii.eqb a "-")
    eqn:E; [by rewrite E | reflexivity].
Qed.

Lemma safeName_kept (s : string) :
  Forall (fun a => keptChar a = true) (list_ascii_of_string s) -> safeName s = s.
Proof.
  induction s as [|a s IH]; [reflexivity|].
  cbn [safeName list_ascii_of_string]. intros H. inversion H as [|? ? Ha Hs]; subst.
  unfold keptChar in Ha. rewrite Ha. by rewrite IH.
Qed.

Lemma safeChar_not_separator (a : ascii) :
  safeChar a = true -> Ascii.eqb "/" a = false /\ Ascii.eqb "\" a = false.
Proof. ascii_cases a; by vm_compute. Qed.

Lemma includes_char (c : ascii) (s : string) :
  Forall (fun a => Ascii.eqb c a = false) (list_ascii_of_string s) ->
  Js.includes (String c EmptyString) s = false.
Proof.
  induction s as [|a s IH]; [reflexivity|].
  cbn [list_ascii_of_string Js.includes Js.startsWith]. intros H.
  inversion H as [|? ? Ha Hs]; subst. rewrite Ha. cbn [andb orb]. by apply IH.
Qed.

(** X2: a safe file name has the length of the file name, is made of
    letters, digits, dots, hyphens and underscores only (so it holds no path
    separator), is left as it is when it is made of letters, digits, dots and
    hyphens, and is its own safe name; two different file names can have the
    same safe name. *)
Theorem safeName_safe (filename : string) :
  String.length (safeName filename) = String.length filename /\
  Forall (fun a => safeChar a = true) (list_ascii_of_string (safeName filename)) /\
  Js.includes "/" (safeName filename) = false /\
  Js.includes "\" (safeName filename) = false /\
  (Forall (fun a => keptChar a = true) (list_ascii_of_string filename) ->
   safeName filename = filename) /\
  safeName (safeName filename) = safeName filename /\
  exists other, other <> "a b.png" /\ safeName other = safeName "a b.png".
Proof.
  split; [|split; [|split; [|split; [|split; [|split]]]]].
  - induction filename as [|a s IH]; [reflexivity|]. cbn. by rewrite IH.
  - apply safeName_chars.
  - apply includes_char. eapply Forall_impl; [apply safeName_chars|].
    intros a Ha. by apply safeChar_not_separator.
  - apply includes_char. eapply Forall_impl; [apply safeName_chars|].
    intros a Ha. by apply safeChar_not_separator.
  - apply safeName_kept.
  - induction filename as [|a s IH]; [reflexivity|].
    cbn [safeName]. rewrite IH. f_equal.
    destruct (Js.is_lower a || Js.is_upper a || Js.is_digit a || Ascii.eqb a "." || Ascii.eqb a "-")
      eqn:E; [by rewrite E | reflexivity].
  - exists "a_b.png". split; [discriminate | reflexivity].
Qed.

(** *** The categories of a run *)

Lemma new_Set_In_iff (x : string) (xs : list string) : In x (new_Set xs) <-> In x xs.
Proof.
  induction xs as [|y rest IH]; [reflexivity|]. cbn [new_Set]. split.
  - intros [->|Hin]; [by left|]. apply filter_In in Hin as [Hin _]. right. by apply IH.
  - intros [->|Hin]; [by left|].
    destruct (String.eqb x y) eqn:E.
    + apply String.eqb_eq in E. by left.
    + right. apply filter_In. split; [by apply IH|]. by rewrite E.
Qed.

Lemma new_Set_NoDup (xs : list string) : List.NoDup (new_Set xs).
Proof.
  induction xs as [|y rest IH]; cbn [new_Set]; constructor.
  - intros Hin. apply filter_In in Hin as [_ Hne]. by rewrite String.eqb_refl in Hne.
  - by apply List.NoDup_filter.
Qed.

(** X3: the categories of a run are the non-empty categories of its
    documents, each of them once. *)
Theorem categoriesOf_distinct (documents : list Document) :
  List.NoDup (categoriesOf documents) /\
  forall category,
    In category (categoriesOf documents) <->
    Js.truthy category = true /\
    exists document, In document documents /\ doc_category document = category.
Proof.
  split; [apply new_Set_NoDup|]. intros category. unfold categoriesOf, Js.filter_Boolean.
  rewrite new_Set_In_iff, filter_In, in_map_iff. split.
  - intros [(d & Hd & Hin) Ht]. split; [exact Ht|]. by exists d.
  - intros [Ht (d & Hin & Hd)]. split; [|exact Ht]. by exists d.
Qed.

(** *** Runs of line feeds *)

Definition lf3 : string := String lf (String lf (String lf EmptyString)).

(** The line feeds at the head of a string. *)
Fixpoint leading (s : string) : nat :=
  match s with
  | String a rest => if Ascii.eqb a lf then S (leading rest) else 0
  | EmptyString => 0
  end.

Lemma startsWith_lf3 (s : string) :
  Js.startsWith lf3 s = (3 <=? leading s)%nat.
Proof.
  destruct s as [|a [|b [|c s]]]; cbn [Js.startsWith lf3 leading];
    rewrite ?(Ascii.eqb_sym lf);
    repeat match goal with |- context [Ascii.eqb ?x lf] => destruct (Ascii.eqb x lf) end;
    try reflexivity.
Qed.

Lemma collapseFrom_run (seen : nat) (s : string) :
  (leading (collapseFrom seen s) <= 2 - seen)%nat /\
  Js.includes lf3 (collapseFrom seen s) = false.
Proof.
  revert seen. induction s as [|a s IH]; intros seen; [split; [cbn; lia | reflexivity]|].
  cbn [collapseFrom]. destruct (Ascii.eqb a lf) eqn:Ea.
  - destruct (seen <? 2)%nat eqn:Es.
    + apply Nat.ltb_lt in Es. destruct (IH (S seen)) as [Hl Hi].
      cbn [leading Js.includes]. rewrite Ea. split; [lia|].
      rewrite Hi, orb_false_r, startsWith_lf3. cbn [leading]. rewrite Ea.
      apply Nat.leb_gt. lia.
    + destruct (IH (S seen)) as [Hl Hi]. split; [lia | exact Hi].
  - destruct (IH 0%nat) as [Hl Hi]. cbn [leading Js.includes]. rewrite Ea. split; [lia|].
    rewrite Hi, orb_false_r, startsWith_lf3. cbn [leading]. by rewrite Ea.
Qed.

Lemma collapseFrom_fixed (seen : nat) (s : string) :
  (seen + leading s <= 2)%nat -> Js.includes lf3 s = false -> collapseFrom seen s = s.
Proof.
  revert seen. induction s as [|a s IH]; intros seen Hl Hi; [reflexivity|].
  cbn [Js.includes] in Hi. apply orb_false_elim in Hi as [Hs Hi].
  rewrite startsWith_lf3 in Hs. apply Nat.leb_gt in Hs.
  cbn [collapseFrom]. cbn [leading] in Hl, Hs. destruct (Ascii.eqb a lf) eqn:Ea.
  - assert ((seen <? 2)%nat = true) as -> by (apply Nat.ltb_lt; lia).
    rewrite IH; [reflexivity | lia | exact Hi].
  - rewrite IH; [reflexivity | | exact Hi].
    pose proof (proj1 (Nat.leb_gt 3 (leading s))) as H.
    destruct s as [|b s]; [cbn; lia|].
    cbn [Js.includes] in Hi. apply orb_false_elim in Hi as [Hs' _].
    rewrite startsWith_lf3 in Hs'. apply Nat.leb_gt in Hs'. lia.
Qed.

(** The text without its line feeds. *)
Fixpoint withoutLf (s : string) : string :=
  match s with
  | String a rest => if Ascii.eqb a lf then withoutLf rest else String a (withoutLf rest)
  | EmptyString => EmptyString
  end.

Lemma collapseFrom_text (seen : nat) (s : string) :
  withoutLf (collapseFrom seen s) = withoutLf s.
Proof.
  revert seen. induction s as [|a s IH]; intros seen; [reflexivity|].
  cbn [collapseFrom withoutLf]. destruct (Ascii.eqb a lf) eqn:Ea.
  - destruct (seen <? 2)%nat; [cbn [withoutLf]; rewrite Ea|]; apply IH.
  - cbn [withoutLf]. rewrite Ea. by rewrite IH.
Qed.

(** X4: after the first replacement of [postprocessMarkdown] the text holds
    no run of three line feeds; a text without such a run is left as it is,
    so the replacement is idempotent; and only line feeds are removed. *)
Theorem collapseNewlines_runs (markdown : string) :
  Js.includes lf3 (collapseNewlines markdown) = false /\
  (Js.includes lf3 markdown = false -> collapseNewlines markdown = markdown) /\
  collapseNewlines (collapseNewlines markdown) = collapseNewlines markdown /\
  withoutLf (collapseNewlines markdown) = withoutLf markdown /\
  (String.length (collapseNewlines markdown) <= String.length markdown)%nat.
Proof.
  unfold collapseNewlines.
  assert (Hfix : forall s, Js.includes lf3 s = false -> collapseFrom 0 s = s).
  { intros s Hi. apply collapseFrom_fixed; [|exact Hi].
    destruct s as [|a s]; [cbn; lia|].
    cbn [Js.includes] in Hi. apply orb_false_elim in Hi as [Hs _].
    rewrite startsWith_lf3 in Hs. apply Nat.leb_gt in Hs. lia. }
  split; [apply collapseFrom_run|]. split; [apply Hfix|].
  split; [apply Hfix, collapseFrom_run|]. split; [apply collapseFrom_text|].
  generalize 0%nat. induction markdown as [|a s IH]; intros seen; [reflexivity|].
  cbn [collapseFrom]. destruct (Ascii.eqb a lf); [destruct (seen <? 2)%nat|];
    cbn [String.length]; specialize (IH (S seen)) as H1; specialize (IH 0%nat) as H2; lia.
Qed.

End TextFacts.

(** ** The requests of the client *)

Module ClientFacts.
Import Sync SyncFacts Attachments.

(** The requests that change the wiki. *)
Definition isWrite (c : Call) : bool :=
  match c with
  | POST_content _ _ _ | PUT_content _ _ _ _ => true
  | _ => false
  end.

(** The title a write is about. *)
Definition titleOf (c : Call) : option string :=
  match c with
  | POST_content t _ _ | PUT_content _ t _ _ => Some t
  | _ => None
  end.

(** The world after the request [c] was logged and answered with the
    remote state [s']. *)
Definition sent {S} (c : Call) (s' : S) (w : World S) : World S :=
  set_server s' (set_calls (calls w ++ [c]) w).

(** The message of [createOrUpdatePage]'s error. *)
Definition syncFailure (title message : string) : string :=
  "Failed to sync page " +:+ dq +:+ title +:+ dq +:+ ": " +:+ message.

Section Facts.

Context {S H : Type} (api : Api S).
Variable api_history : string -> Ext S H.
Variable api_attachments : string -> Ext S (option (list Attachment)).

(** The answer of a lookup: what the request returned, or the value that
    stands for nothing when the request failed. *)
Definition answer {A B} (r : result A) (found : A -> B) (nothing : B) : B :=
  match r with
  | Ok a => found a
  | Throw _ => nothing
  end.

Lemma request_run {A} (c : Call) (op : Ext S A) (w : World S) :
  request c op w = (sent c (op (server w)).1 w, (op (server w)).2).
Proof. unfold request, sent. by destruct (op (server w)). Qed.

Lemma findPageByTitle_run (title : string) (w : World S) :
  findPageByTitle api title w
  = (sent (GET_content_search title) (api_search api title (server w)).1 w,
     Ok (answer (api_search api title (server w)).2 head None)).
Proof.
  unfold findPageByTitle. rewrite try_catch_run, bind_run, request_run.
  destruct (api_search api title (server w)) as [s1 [results|e]]; simpl; [|done].
  unfold mret, M_ret. by destruct results.
Qed.

Lemma getPageChildren_run (pageId : string) (w : World S) :
  getPageChildren api pageId w
  = (sent (GET_child_page pageId) (api_children api pageId (server w)).1 w,
     Ok (answer (api_children api pageId (server w)).2 id [])).
Proof.
  unfold getPageChildren. rewrite try_catch_run, request_run.
  by destruct (api_children api pageId (server w)) as [s1 [results|e]].
Qed.

Lemma testConnection_run (w : World S) :
  testConnection api w
  = (sent GET_space (api_space api (server w)).1 w,
     Ok (answer (api_space api (server w)).2 (fun _ => true) false)).
Proof.
  unfold testConnection. rewrite try_catch_run, bind_run, request_run.
  by destruct (api_space api (server w)) as [s1 [name|e]].
Qed.

Lemma findPageByTitleAndParent_run (title : string) (parent : option string) (w : World S) :
  findPageByTitleAndParent api title parent w
  = if Js.truthy_opt parent
    then (sent (GET_child_page (Js.or_else parent ""))
               (api_children api (Js.or_else parent "") (server w)).1 w,
          Ok (List.find (fun child => String.eqb (page_title child) title)
                (answer (api_children api (Js.or_else parent "") (server w)).2 id [])))
    else findPageByTitle api title w.
Proof.
  unfold findPageByTitleAndParent. rewrite try_catch_run.
  destruct parent as [p|]; cbn [Js.truthy_opt Js.or_else].
  - destruct (Js.truthy p).
    + by rewrite bind_run, getPageChildren_run.
    + by rewrite findPageByTitle_run.
  - by rewrite findPageByTitle_run.
Qed.

Lemma findPageByTitleAndParent_returns (title : string) (parent : option string)
    (w : World S) :
  exists found, (findPageByTitleAndParent api title parent w).2 = Ok found.
Proof.
  rewrite findPageByTitleAndParent_run. destruct (Js.truthy_opt parent); [by eexists|].
  rewrite findPageByTitle_run. by eexists.
Qed.

Lemma getPageAttachments_run (pageId : string) (w : World S) :
  (getPageAttachments api_attachments pageId w).2
  = Ok (answer (api_attachments pageId (server w)).2 (default []) []).
Proof.
  unfold getPageAttachments. rewrite try_catch_run, bind_run. unfold lift.
  by destruct (api_attachments pageId (server w)) as [s1 [results|e]].
Qed.

Lemma getPageHistory_run (pageId : string) (w : World S) :
  (getPageHistory api_history pageId w).2
  = Ok (answer (api_history pageId (server w)).2 Some None).
Proof.
  unfold getPageHistory. rewrite try_catch_run, bind_run. unfold lift.
  by destruct (api_history pageId (server w)) as [s1 [history|e]].
Qed.

(** X5: the lookups of the pages never throw.  A failed request is
    answered like an empty one: [testConnection] returns [false],
    [findPageByTitle] and [findPageByTitleAndParent] return no page and
    [getPageChildren] returns no child; [findPageByTitle] returns the first
    result of the search, and [findPageByTitleAndParent] the first child of
    the parent that has the title, or what [findPageByTitle] returns when no
    parent is given. *)
Theorem lookups_never_throw (w : World S) :
  (testConnection api w).2
    = Ok (answer (api_space api (server w)).2 (fun _ => true) false) /\
  (forall title,
     (findPageByTitle api title w).2
       = Ok (answer (api_search api title (server w)).2 head None)) /\
  (forall pageId,
     (getPageChildren api pageId w).2
       = Ok (answer (api_children api pageId (server w)).2 id [])) /\
  (forall title parent,
     (findPageByTitleAndParent api title parent w).2
       = if Js.truthy_opt parent
         then Ok (List.find (fun child => String.eqb (page_title child) title)
                    (answer (api_children api (Js.or_else parent "") (server w)).2 id []))
         else (findPageByTitle api title w).2).
Proof.
  split; [by rewrite testConnection_run|].
  split; [intros; by rewrite findPageByTitle_run|].
  split; [intros; by rewrite getPageChildren_run|].
  intros; rewrite findPageByTitleAndParent_run; by destruct (Js.truthy_opt parent).
Qed.

(** X6: the lookups of the attachments never throw either.
    [getPageAttachments] returns the results of the answer, and no attachment
    when the answer has no results or the request fails; [getPageHistory]
    returns the answer, and [null] when the request fails. *)
Theorem attachment_lookups_never_throw (pageId : string) (w : World S) :
  (getPageAttachments api_attachments pageId w).2
    = Ok (answer (api_attachments pageId (server w)).2 (default []) []) /\
  (getPageHistory api_history pageId w).2
    = Ok (answer (api_history pageId (server w)).2 Some None).
Proof. split; [apply getPageAttachments_run | apply getPageHistory_run]. Qed.

(** The run of [createOrUpdatePage], request by request. *)
Lemma createOrUpdatePage_run (title content : string) (parent : option string)
    (w : World S) :
  let search := api_search api title (server w) in
  let w1 := sent (GET_content_search title) search.1 w in
  let write (c : Call) (answer : S * result Page) : World S * result Page :=
    (sent c answer.1 w1,
     match answer.2 with
     | Ok page => Ok page
     | Throw message => Throw (syncFailure title message)
     end) in
  createOrUpdatePage api title content parent w =
  match search.2 with
  | Ok (existing :: _) =>
      let version := Js.or1 (page_version existing) + 1 in
      write (PUT_content (page_id existing) title content version)
            (api_put api (page_id existing) title content version search.1)
  | _ =>
      let ancestors := if Js.truthy_opt parent then parent else None in
      write (POST_content title content ancestors)
            (api_post api title content ancestors search.1)
  end.
Proof.
  intros search w1 write. subst search w1 write.
  unfold createOrUpdatePage. rewrite try_catch_run, bind_run, findPageByTitle_run.
  destruct (api_search api title (server w)) as [s1 [[|existing results]|e]];
    cbn [answer head fst snd].
  - unfold createPage. rewrite request_run. cbn [server sent set_server set_calls].
    by destruct (api_post api title content (if Js.truthy_opt parent then parent else None) s1)
      as [s2 [page|message]].
  - unfold updatePage. rewrite request_run. cbn [server sent set_server set_calls].
    by destruct (api_put api (page_id existing) title content
                   (Js.or1 (page_version existing) + 1) s1) as [s2 [page|message]].
  - unfold createPage. rewrite request_run. cbn [server sent set_server set_calls].
    by destruct (api_post api title content (if Js.truthy_opt parent then parent else None) s1)
      as [s2 [page|message]].
Qed.

(** X7: [createOrUpdatePage] sends two requests, the search for the title
    and one write.  When the search returns a page, the write is an update
    of the first page returned, with its version (read as 1 when absent or
    0) raised by one, and the parent is not sent; when the search returns
    nothing, or fails, the write is the creation of the page, under the
    parent when one is given.  The page of the write's answer is returned;
    an error of the write is thrown again behind the title. *)
Theorem createOrUpdatePage_requests (title content : string) (parent : option string)
    (w : World S) :
  let search := api_search api title (server w) in
  let w1 := sent (GET_content_search title) search.1 w in
  let write (c : Call) (answer : S * result Page) : World S * result Page :=
    (sent c answer.1 w1,
     match answer.2 with
     | Ok page => Ok page
     | Throw message => Throw (syncFailure title message)
     end) in
  createOrUpdatePage api title content parent w =
  match search.2 with
  | Ok (existing :: _) =>
      let version := Js.or1 (page_version existing) + 1 in
      write (PUT_content (page_id existing) title content version)
            (api_put api (page_id existing) title content version search.1)
  | _ =>
      let ancestors := if Js.truthy_opt parent then parent else None in
      write (POST_content title content ancestors)
            (api_post api title content ancestors search.1)
  end.
Proof. apply createOrUpdatePage_run. Qed.

(** *** The requests of the hierarchy walk *)

(** The segments of a category path. *)
Definition segmentsOf (categoryPath : string) : list string :=
  Js.filter_Boolean (Js.split "/" categoryPath).

(** Every write in a log comes right after the search for its title. *)
Fixpoint searchedFirst (previous : option Call) (log : list Call) : bool :=
  match log with
  | [] => true
  | c :: rest =>
      match titleOf c with
      | Some t =>
          match previous with
          | Some (GET_content_search t') => String.eqb t t'
          | _ => false
          end
      | None => true
      end && searchedFirst (Some c) rest
  end.

Lemma searchedFirst_app (previous : option Call) (log more : list Call) :
  searchedFirst previous (log ++ more)
  = searchedFirst previous log && searchedFirst (from_option Some previous (last log)) more.
Proof.
  revert previous. induction log as [|c rest IH]; intros previous; [reflexivity|].
  cbn [app searchedFirst]. rewrite IH, andb_assoc. f_equal. f_equal.
  destruct rest as [|c' rest']; [reflexivity|].
  rewrite last_cons_cons. destruct (last (c' :: rest')) eqn:E; [reflexivity|].
  by apply last_None in E.
Qed.

(** What one segment of the walk sends: the lookup under the parent, and,
    when the page is not found there, the search and the write of
    [createOrUpdatePage]. *)
Definition segmentLog (log : list Call) : Prop :=
  exists lookup, isWrite lookup = false /\
    (log = [lookup] \/
     exists t write, titleOf write = Some t /\ log = [lookup; GET_content_search t; write]).

Lemma segmentLog_bounds (log : list Call) :
  segmentLog log ->
  (1 <= length log <= 3)%nat /\ (length (List.filter isWrite log) <= 1)%nat /\
  (forall previous, searchedFirst previous log = true) /\
  exists c, last log = Some c.
Proof.
  intros (lookup & Hlookup & [->|(t & write & Ht & ->)]).
  - cbn. rewrite Hlookup. cbn. repeat split; try lia.
    + intros previous. by destruct lookup.
    + by eexists.
  - cbn. rewrite Hlookup. destruct write; try discriminate; cbn; injection Ht as ->;
      (repeat split; try lia; [intros previous; destruct lookup; try discriminate;
         cbn; by rewrite String.eqb_refl | by eexists]).
Qed.

Lemma findPageByTitleAndParent_log (title : string) (parent : option string) (w : World S) :
  exists lookup,
    isWrite lookup = false /\
    calls (findPageByTitleAndParent api title parent w).1 = calls w ++ [lookup].
Proof.
  rewrite findPageByTitleAndParent_run. destruct (Js.truthy_opt parent).
  - by eexists (GET_child_page _).
  - rewrite findPageByTitle_run. by eexists (GET_content_search _).
Qed.

Lemma createOrUpdatePage_log (title content : string) (parent : option string) (w : World S) :
  exists write,
    titleOf write = Some title /\
    calls (createOrUpdatePage api title content parent w).1
      = calls w ++ [GET_content_search title; write].
Proof.
  rewrite createOrUpdatePage_run.
  destruct (api_search api title (server w)) as [s1 [[|existing results]|e]];
    cbn [fst snd]; eexists; (split; [|cbn; by rewrite <- app_assoc]); reflexivity.
Qed.

(** The log of a walk: one group of requests for each segment it came to. *)
Lemma walkSegments_log (segments : list string) (parent : option string) (path : string)
    (w : World S) :
  exists groups,
    calls (walkSegments api segments parent path w).1 = calls w ++ concat groups /\
    Forall segmentLog groups /\
    (length groups <= length segments)%nat /\
    (forall parentId, (walkSegments api segments parent path w).2 = Ok parentId ->
                      length groups = length segments).
Proof.
  revert parent path w. induction segments as [|segment rest IH]; intros parent path w.
  - exists []. cbn. rewrite app_nil_r. by repeat split.
  - cbn [walkSegments]. rewrite bind_run.
    set (path' := if Js.truthy path then path +:+ "/" +:+ segment else segment).
    destruct (findPageByTitleAndParent_log (formatCategoryTitle segment) parent w)
      as (lookup & Hlookup & Hcalls).
    destruct (findPageByTitleAndParent_returns (formatCategoryTitle segment) parent w)
      as [found' Hok].
    destruct (findPageByTitleAndParent api (formatCategoryTitle segment) parent w)
      as [w1 [found|e]]; cbn [fst snd] in *; [|done].
    clear Hok. rewrite bind_run. destruct found as [page|].
    + unfold mret at 1, M_ret at 1.
      destruct (IH (Some (page_id page)) path' w1) as (groups & Hg & Hall & Hlen & Hdone).
      exists ([lookup] :: groups). rewrite Hg, Hcalls. cbn [concat length].
      rewrite <- app_assoc. split; [done|]. split.
      * constructor; [|exact Hall]. exists lookup. split; [exact Hlookup | by left].
      * split; [lia|]. intros parentId Hrun. by rewrite (Hdone parentId Hrun).
    + destruct (createOrUpdatePage_log (formatCategoryTitle segment)
                  (containerContent (formatCategoryTitle segment) path') parent w1)
        as (write & Hwrite & Hcalls').
      assert (Hgroup : segmentLog [lookup; GET_content_search (formatCategoryTitle segment); write]).
      { exists lookup. split; [exact Hlookup|]. right. by eexists _, _. }
      destruct (createOrUpdatePage api (formatCategoryTitle segment)
                  (containerContent (formatCategoryTitle segment) path') parent w1)
        as [w2 [page|e]]; cbn [fst snd] in *.
      * destruct (IH (Some (page_id page)) path' w2) as (groups & Hg & Hall & Hlen & Hdone).
        exists ([lookup; GET_content_search (formatCategoryTitle segment); write] :: groups).
        rewrite Hg, Hcalls', Hcalls. cbn [concat length]. rewrite <- !app_assoc.
        split; [done|]. split; [by constructor|]. split; [lia|].
        intros parentId Hrun. by rewrite (Hdone parentId Hrun).
      * exists [[lookup; GET_content_search (formatCategoryTitle segment); write]].
        rewrite Hcalls', Hcalls. cbn [concat length]. rewrite <- !app_assoc.
        split; [done|]. split; [by repeat constructor|]. split; [lia | done].
Qed.

Lemma groups_bounds (groups : list (list Call)) :
  Forall segmentLog groups ->
  (length groups <= length (concat groups) <= 3 * length groups)%nat /\
  (length (List.filter isWrite (concat groups)) <= length groups)%nat /\
  forall previous, searchedFirst previous (concat groups) = true.
Proof.
  induction 1 as [|group groups Hgroup _ IH]; [cbn; by repeat split; try lia|].
  destruct (segmentLog_bounds group Hgroup) as (Hlen & Hwrites & Hsearched & c & Hlast).
  destruct IH as (IHlen & IHwrites & IHsearched).
  cbn [concat length]. rewrite length_app, List.filter_app, length_app.
  repeat split; try lia.
  intros previous. rewrite searchedFirst_app, Hsearched, Hlast. apply IHsearched.
Qed.

(** X8: for a category path of [n] non-empty segments,
    [findOrCreateParentPage] sends at most [3 * n] requests, of which at most
    [n] are writes, and every write comes right after the search for the
    title it writes; when it returns, it has sent at least [n] requests.
    For a path with no non-empty segment (the empty path, or slashes only) it
    sends nothing and returns the root it was given. *)
Theorem findOrCreateParentPage_requests (categoryPath : string) (root : option string)
    (w : World S) :
  let run := findOrCreateParentPage api categoryPath root w in
  let n := length (segmentsOf categoryPath) in
  (n = 0%nat -> run = (w, Ok root)) /\
  exists log,
    calls run.1 = calls w ++ log /\
    (length log <= 3 * n)%nat /\
    (length (List.filter isWrite log) <= n)%nat /\
    searchedFirst None log = true /\
    (forall parentId, run.2 = Ok parentId -> (n <= length log)%nat).
Proof.
  intros run n. subst run n. unfold findOrCreateParentPage, segmentsOf.
  destruct (Js.truthy categoryPath) eqn:Ht; cbn [negb].
  - split.
    + intros Hn. destruct (Js.filter_Boolean (Js.split "/" categoryPath)); [done | discriminate].
    + destruct (walkSegments_log (Js.filter_Boolean (Js.split "/" categoryPath)) root "" w)
        as (groups & Hcalls & Hall & Hlen & Hdone).
      destruct (groups_bounds groups Hall) as (Hbounds & Hwrites & Hsearched).
      exists (concat groups). split; [exact Hcalls|]. repeat split; try lia; [done|].
      intros parentId Hrun. rewrite <- (Hdone parentId Hrun). lia.
  - split; [done|]. exists []. cbn. rewrite app_nil_r. repeat split; try lia.
    intros _ _. destruct categoryPath; [cbn; lia | discriminate].
Qed.

(** X9: [getPageWithAttachments] fails exactly when the page cannot be
    fetched (or is [null]); a failure of the attachment request does not
    fail it, the page then has no attachment. *)
Theorem getPageWithAttachments_needs_the_page_only (pageId : string) (w : World S) :
  let run := getPageWithAttachments api api_attachments pageId w in
  match getPageById api pageId (Some "body.storage,version") w with
  | (w1, Throw message) => run = (w1, Throw message)
  | (w1, Ok None) => exists w2 message, run = (w2, Throw message)
  | (w1, Ok (Some page)) =>
      exists w2,
        run = (w2, Ok {| pwa_page := page;
                         pwa_attachments :=
                           answer (api_attachments pageId (server w1)).2 (default []) [] |})
  end.
Proof.
  intros run. subst run. unfold getPageWithAttachments.
  rewrite try_catch_run, bind_run.
  destruct (getPageById api pageId (Some "body.storage,version") w) as [w1 [page|message]];
    [|reflexivity].
  rewrite bind_run.
  pose proof (getPageAttachments_run pageId w1) as Hok.
  destruct (getPageAttachments api_attachments pageId w1) as [w2 [attachments|e]];
    cbn [snd] in Hok; [|done].
  injection Hok as ->.
  destruct page as [page|]; [eexists; reflexivity | eexists _, _; reflexivity].
Qed.

End Facts.

End ClientFacts.

(** ** The commands *)

Module CommandFacts.
Import Sync SyncFacts ClientFacts Cli.

(** The writes among the requests sent so far. *)
Definition writesOf {S} (w : World S) : list Call := List.filter isWrite (calls w).

(** A view of the world that depends on the log of requests only. *)
Class OfCalls {S B : Type} (proj : World S -> B) : Prop :=
  of_calls : forall w w', calls w = calls w' -> proj w = proj w'.

#[export] Instance calls_of_calls {S} : OfCalls (@calls S).
Proof. by intros w w'. Qed.
#[export] Instance writesOf_of_calls {S} : OfCalls (@writesOf S).
Proof. intros w w' H. unfold writesOf. by rewrite H. Qed.

Section Quiet.

Context {S : Type} (env : Env S) {B : Type} (proj : World S -> B) `{!OfCalls proj}.

Lemma quiet_lift {A} (op : Ext S A) : preserves proj (lift op).
Proof. intros w. unfold lift. destruct (op (server w)) as [s' r]. by apply of_calls. Qed.

Lemma quiet_liftFs {A} (op : FsExt S A) : preserves proj (liftFs op).
Proof.
  intros w. unfold liftFs. destruct (op (server w) (files w)) as [[[s' files'] written] r].
  by apply of_calls.
Qed.

Lemma quiet_modify (f : World S -> World S) :
  (forall w, calls (f w) = calls w) -> preserves proj (modify f).
Proof. intros H w. apply of_calls, H. Qed.

Lemma quiet_fromResult {A} (r : result A) : preserves proj (fromResult (S := S) r).
Proof. by destruct r. Qed.

Lemma quiet_pathExists path : preserves proj (pathExists (S := S) path).
Proof. by intros w. Qed.

Lemma quiet_readFile path : preserves proj (readFile (S := S) path).
Proof. intros w. unfold readFile. by destruct (files w !! path). Qed.

Lemma quiet_stat_mtime path : preserves proj (stat_mtime (S := S) path).
Proof. intros w. unfold stat_mtime. by destruct (files w !! path). Qed.

Lemma quiet_writeFile path text : preserves proj (writeFile env path text).
Proof. intros w. unfold writeFile. destruct (writable env path); by apply of_calls. Qed.

Lemma quiet_stateManager_init : preserves proj (stateManager_init env).
Proof.
  unfold stateManager_init. apply preserves_bind; [apply quiet_lift|].
  intros loaded. by apply quiet_modify.
Qed.

Lemma quiet_toISOString d : preserves proj (toISOString env d).
Proof. destruct d; [apply preserves_ret | apply preserves_throw]. Qed.

End Quiet.

Lemma quiet_request {S A} (c : Call) (op : Ext S A) :
  isWrite c = false -> preserves writesOf (request c op).
Proof.
  intros Hc w. unfold request, writesOf. destruct (op (server w)) as [s' r]. cbn.
  rewrite List.filter_app. cbn. rewrite Hc. apply app_nil_r.
Qed.

(** Splits a computation down to its requests and external calls, for a
    view that depends on the log of requests only. *)
Ltac quiet :=
  repeat first
    [ assumption
    | apply preserves_ret
    | apply preserves_throw
    | apply preserves_gets
    | solve [apply quiet_lift; apply _]
    | solve [apply quiet_liftFs; apply _]
    | solve [apply quiet_request; reflexivity]
    | solve [apply quiet_modify; [apply _ | reflexivity]]
    | solve [apply quiet_fromResult; apply _]
    | solve [apply quiet_pathExists; apply _]
    | solve [apply quiet_readFile; apply _]
    | solve [apply quiet_stat_mtime; apply _]
    | solve [apply quiet_writeFile; apply _]
    | solve [apply quiet_stateManager_init; apply _]
    | solve [apply quiet_toISOString; apply _]
    | apply preserves_bind; [|intros ?]
    | apply preserves_try_catch; [|intros ?]
    | match goal with
      | |- preserves _ (match ?x with _ => _ end) => destruct x
      | |- preserves _ (let '(_, _) := ?x in _) => destruct x
      end ].

Section Facts.

Context {S : Type} (api : Api S) (env : Env S).
Variable scanBlog : Ext S (list Document).

Lemma testConnection_reads : preserves writesOf (testConnection api).
Proof. unfold testConnection. quiet. Qed.

Lemma findPageByTitle_reads title : preserves writesOf (findPageByTitle api title).
Proof. unfold findPageByTitle. quiet. Qed.

Lemma findRootParent_reads config : preserves writesOf (findRootParent api config).
Proof. unfold findRootParent, getRootPage. quiet; apply findPageByTitle_reads. Qed.

Lemma getPageById_reads pageId expand : preserves writesOf (getPageById api pageId expand).
Proof. unfold getPageById. quiet. Qed.

Lemma reverseEntry_reads dryRun entry : preserves writesOf (reverseEntry api env dryRun entry).
Proof.
  unfold reverseEntry, reverseBody, stats_incr, setPageState.
  destruct entry as [path pageInfo]. quiet; apply getPageById_reads.
Qed.

Lemma reverseEntries_reads dryRun entries :
  preserves writesOf (reverseEntries api env dryRun entries).
Proof.
  induction entries as [|entry rest IH]; cbn [reverseEntries]; quiet.
  apply reverseEntry_reads.
Qed.

Lemma syncReverse_reads dryRun : preserves writesOf (syncReverse api env dryRun).
Proof. unfold syncReverse, getAllPages, resetStats. quiet. apply reverseEntries_reads. Qed.

(** X10: [syncReverse] sends no write to the wiki, in a dry run or not: the
    writes in the log of requests are those that were there before. *)
Theorem syncReverse_reads_only (dryRun : bool) (w : World S) :
  List.filter isWrite (calls (syncReverse api env dryRun w).1) = List.filter isWrite (calls w).
Proof. apply syncReverse_reads. Qed.

(** *** Dry runs of the reverse sync *)

Ltac local :=
  repeat first
    [ assumption
    | apply preserves_ret
    | apply preserves_throw
    | apply preserves_gets
    | solve [apply preserves_lift; apply _]
    | solve [apply preserves_request; apply _]
    | solve [apply preserves_modify; reflexivity]
    | apply preserves_bind; [|intros ?]
    | apply preserves_try_catch; [|intros ?]
    | match goal with
      | |- preserves _ (match ?x with _ => _ end) => destruct x
      end ].

Section Confined.

(** The paths that the conversion may write to: the images directories. *)
Variable inside : string -> bool.















End Confined.


(** *** The counters of the reverse sync *)

(** A record of the sync state that names a page. *)
Definition tracksPage (entry : string * PageInfo) : bool :=
  Js.truthy_opt (confluenceId entry.2).

(** What the turns of the loop over [n] records that name a page do to the
    counters. *)
Definition tallied (dryRun : bool) (n : nat) (s s' : Stats) : Prop :=
  (updated s' + skipped s' = updated s + skipped s + n)%nat /\
  (processed s <= processed s' <= processed s + n)%nat /\
  (updated s <= updated s')%nat /\
  (updated s' + processed s <= processed s' + updated s)%nat /\
  (dryRun = true -> updated s' = updated s) /\
  created s' = created s /\ failed s' = failed s.

Lemma tallied_refl dryRun s : tallied dryRun 0 s s.
Proof. unfold tallied. repeat split; lia. Qed.

Lemma tallied_trans dryRun n m s1 s2 s3 :
  tallied dryRun n s1 s2 -> tallied dryRun m s2 s3 -> tallied dryRun (n + m) s1 s3.
Proof.
  unfold tallied. intros (H1 & H2 & H3 & H4 & H5 & H6 & H7) (K1 & K2 & K3 & K4 & K5 & K6 & K7).
  repeat split; try lia.
  intros Hd. rewrite (K5 Hd). by apply H5.
Qed.

Lemma reverseEntry_tally dryRun path pageInfo w :
  tallied dryRun (if tracksPage (path, pageInfo) then 1 else 0) (stats w)
    (stats (reverseEntry api env dryRun (path, pageInfo) w).1).
Proof.
  unfold reverseEntry, tracksPage. cbn [snd].
  destruct (confluenceId pageInfo) as [pageId|] eqn:Hid; [|apply tallied_refl].
  cbn [Js.truthy_opt].
  destruct (Js.truthy pageId) eqn:Htruthy; [|apply tallied_refl].
  rewrite try_catch_run. unfold reverseBody. rewrite bind_run.
  pose proof (getPageById_preserves api stats pageId (Some "body.storage,version") w) as Hs.
  assert (Hleaf : forall (P : Prop), P -> P) by done.
  destruct (getPageById api pageId (Some "body.storage,version") w) as [w1 [[page|]|e]];
    cbn [fst] in Hs.
  2,3: unfold tallied, stats_incr, modify; cbn; rewrite ?Hs; repeat split; lia.
  destruct (Js.or1 (page_version page) <=? Js.or1 (version pageInfo)).
  { unfold tallied, stats_incr, modify; cbn; rewrite ?Hs; repeat split; lia. }
  rewrite bind_run. unfold pathExists, gets.
  case_bool_decide as Hfile; cbn [negb].
  2: { unfold tallied, stats_incr, modify; cbn; rewrite ?Hs; repeat split; lia. }
  destruct Hfile as [file Hfile].
  rewrite bind_run. unfold readFile. rewrite Hfile.
  rewrite bind_run.
  destruct (matter env (data file)) as [fm|e].
  2: { unfold tallied, stats_incr, modify; cbn; rewrite ?Hs; repeat split; lia. }
  cbn [fromResult]. unfold mret, M_ret.
  rewrite bind_run. unfold liftFs.
  destruct (convertToMarkdown env (Js.or_else (page_body page) "") pageId
              (path_resolve env (projectRoot env) path) (server w1) (files w1))
    as [[[s2 files2] written] [markdown|e]].
  2: { unfold tallied, stats_incr, modify; cbn; rewrite ?Hs; repeat split; lia. }
  destruct dryRun.
  { unfold tallied, mbind, M_bind, stats_incr, modify; cbn; rewrite ?Hs; repeat split; lia. }
  unfold tallied, mbind, M_bind, stats_incr, modify, writeFile, setPageState, modify.
  destruct (writable env (path_resolve env (projectRoot env) path));
    cbn; rewrite ?Hs; repeat split; (lia || done).
Qed.

Lemma reverseEntries_tally dryRun (entries : list (string * PageInfo)) w :
  (reverseEntries api env dryRun entries w).2 = Ok tt /\
  tallied dryRun (length (List.filter tracksPage entries)) (stats w)
    (stats (reverseEntries api env dryRun entries w).1).
Proof.
  revert w. induction entries as [|[path pageInfo] rest IH]; intros w.
  - split; [done | apply tallied_refl].
  - cbn [reverseEntries List.filter]. rewrite bind_run.
    pose proof (reverseEntry_tally dryRun path pageInfo w) as Hone.
    destruct (PullFacts.reverseEntry_cases api env dryRun path pageInfo w) as [Hok _].
    destruct (reverseEntry api env dryRun (path, pageInfo) w) as [w1 r]. cbn [fst snd] in *.
    subst r. destruct (IH w1) as [IHok IHt]. split; [exact IHok|].
    destruct (tracksPage (path, pageInfo)).
    + exact (tallied_trans dryRun 1 _ _ _ _ Hone IHt).
    + exact (tallied_trans dryRun 0 _ _ _ _ Hone IHt).
Qed.

(** X12: the loop of [syncReverse] never throws and counts every record
    that names a page once, as updated or as skipped; the records without a
    page id are not counted.  A page counted as updated is also counted as
    processed, and nothing is counted as updated in a dry run.  The summary
    of [syncReverse] gives these counts for the records of the sync state as
    it was loaded. *)
Theorem syncReverse_counts (dryRun : bool) (w w' : World S) (summary : Summary) :
  syncReverse api env dryRun w = (w', Ok summary) ->
  (forall entries w0,
     (reverseEntries api env dryRun entries w0).2 = Ok tt /\
     tallied dryRun (length (List.filter tracksPage entries)) (stats w0)
       (stats (reverseEntries api env dryRun entries w0).1)) /\
  exists s s' tracked,
    loadState env s = (s', Ok tracked) /\
    let n := length (List.filter tracksPage (map_to_list tracked)) in
    (sum_updated summary + sum_skipped summary = n)%nat /\
    (sum_updated summary <= sum_processed summary <= n)%nat /\
    (dryRun = true -> sum_updated summary = 0%nat).
Proof.
  intros Hrun. split; [intros; apply reverseEntries_tally|].
  unfold syncReverse in Hrun. rewrite bind_run in Hrun. unfold lift at 1 in Hrun.
  destruct (loadConfig env (server w)) as [s0 [config|e]]; [|done].
  rewrite bind_run in Hrun. unfold stateManager_init in Hrun.
  rewrite bind_run in Hrun. unfold lift at 1 in Hrun. cbn [server set_server] in Hrun.
  destruct (loadState env s0) as [s1 [tracked|e]] eqn:Hload; [|done].
  unfold modify at 1 in Hrun. rewrite bind_run, testConnection_run in Hrun.
  cbn [fst snd] in Hrun.
  destruct (answer (api_space api _).2 (fun _ => true) false); cbn [negb] in Hrun; [|done].
  rewrite bind_run in Hrun. unfold lift at 1 in Hrun.
  match type of Hrun with context [detectProject env ?x] =>
    destruct (detectProject env x) as [s2 [[]|e]] end; [|done].
  rewrite bind_run in Hrun. unfold getAllPages, gets at 1 in Hrun.
  cbn [pages set_server set_calls set_pages sent] in Hrun.
  exists s0, s1, tracked. split; [exact Hload|].
  destruct (size tracked =? 0)%nat eqn:Hsize.
  - injection Hrun as <- <-. cbn. apply Nat.eqb_eq in Hsize.
    apply map_size_empty_iff in Hsize. subst tracked. rewrite map_to_list_empty. cbn.
    repeat split; lia.
  - rewrite bind_run in Hrun. unfold modify at 1 in Hrun.
    rewrite bind_run in Hrun. unfold resetStats, modify at 1 in Hrun.
    rewrite bind_run in Hrun.
    match type of Hrun with context [reverseEntries api env dryRun ?es ?x] =>
      destruct (reverseEntries_tally dryRun es x) as [Hok Ht];
      destruct (reverseEntries api env dryRun es x) as [w3 r] end.
    cbn [fst snd] in *. subst r. rewrite bind_run in Hrun. unfold gets at 1 in Hrun.
    rewrite bind_run in Hrun. unfold lift at 1 in Hrun.
    destruct (saveState env (pages w3) (server w3)) as [s4 [[]|e]]; [|done].
    rewrite bind_run in Hrun. unfold gets, mret, M_ret in Hrun. injection Hrun as <- <-.
    cbn in *. destruct Ht as (H1 & H2 & H3 & H4 & H5 & _). cbn in H1, H2, H3, H4, H5.
    repeat split; try lia. exact H5.
Qed.

(** *** Commands that push nothing *)

Lemma syncBlog_reads dryRun : preserves writesOf (syncBlog api env scanBlog dryRun).
Proof. unfold syncBlog. quiet. apply findRootParent_reads. Qed.

Lemma findRootParent_local {B} (proj : World S -> B) `{!Local proj} config :
  preserves proj (findRootParent api config).
Proof. unfold findRootParent, getRootPage, findPageByTitle. local. Qed.

Lemma syncBlog_local {B} (proj : World S -> B) `{!Local proj} dryRun :
  (forall p w, proj (set_pages p w) = proj w) ->
  preserves proj (syncBlog api env scanBlog dryRun).
Proof.
  intros Hp. unfold syncBlog, stateManager_init, testConnection. local.
  - by apply preserves_modify.
  - by apply findRootParent_local.
Qed.

Lemma syncBlog_summary dryRun w summary :
  (syncBlog api env scanBlog dryRun w).2 = Ok summary ->
  sum_processed summary = 0%nat /\ sum_created summary = Some 0%nat /\
  sum_updated summary = 0%nat /\
  exists s s' posts, scanBlog s = (s', Ok posts) /\ sum_skipped summary = length posts.
Proof.
  unfold syncBlog. rewrite bind_run. unfold lift at 1.
  destruct (loadConfig env (server w)) as [s0 [config|e]]; [|done].
  rewrite bind_run.
  destruct (stateManager_init env (set_server s0 w)) as [w1 [[]|e]]; [|done].
  rewrite bind_run. unfold lift at 1.
  destruct (detectProject env (server w1)) as [s2 [[]|e]]; [|done].
  rewrite bind_run. unfold lift at 1. cbn [server set_server].
  destruct (scanBlog s2) as [s3 [posts|e]] eqn:Hscan; [|done].
  destruct (length posts =? 0)%nat eqn:Hlen.
  - intros [= <-]. cbn. apply Nat.eqb_eq in Hlen. repeat split. by exists s2, s3, posts.
  - rewrite bind_run, testConnection_run. cbn [fst snd].
    destruct (answer (api_space api _).2 (fun _ => true) false); cbn [negb]; [|done].
    rewrite bind_run.
    match goal with |- context [findRootParent api config ?x] =>
      destruct (findRootParent api config x) as [w4 [root|e]] end; [|done].
    intros [= <-]. cbn. repeat split. by exists s2, s3, posts.
Qed.

(** X13: [syncBlog] pushes nothing: it sends no write to the wiki and writes
    no local file, a dry run or not (the flag changes nothing); when it
    returns, its summary counts nothing as processed, created or updated and
    every post found as skipped. *)
Theorem syncBlog_pushes_nothing (dryRun : bool) (w : World S) :
  let run := syncBlog api env scanBlog dryRun w in
  List.filter isWrite (calls run.1) = List.filter isWrite (calls w) /\
  files run.1 = files w /\
  writes run.1 = writes w /\
  run = syncBlog api env scanBlog (negb dryRun) w /\
  forall summary,
    run.2 = Ok summary ->
    sum_processed summary = 0%nat /\ sum_created summary = Some 0%nat /\
    sum_updated summary = 0%nat /\
    exists s s' posts, scanBlog s = (s', Ok posts) /\ sum_skipped summary = length posts.
Proof.
  intros run. subst run. split; [apply syncBlog_reads|].
  split; [by apply syncBlog_local|]. split; [by apply syncBlog_local|].
  split; [reflexivity|]. apply syncBlog_summary.
Qed.

Lemma syncFile_dry_reads file : preserves writesOf (syncFile api env file true).
Proof. unfold syncFile. quiet; first [apply testConnection_reads | apply findRootParent_reads]. Qed.

Lemma syncFile_dry_local {B} (proj : World S -> B) `{!Local proj} file :
  (forall p w, proj (set_pages p w) = proj w) ->
  preserves proj (syncFile api env file true).
Proof.
  intros Hp. unfold syncFile, stateManager_init, testConnection, pathExists. local.
  - by apply preserves_modify.
  - by apply findRootParent_local.
Qed.

(** X14: a dry run of [syncFile] sends no write to the wiki and writes no
    local file; when it returns, its result is the preview, with no page
    id. *)
Theorem syncFile_dry_run_pushes_nothing (file : string) (w : World S) :
  let run := syncFile api env file true w in
  List.filter isWrite (calls run.1) = List.filter isWrite (calls w) /\
  files run.1 = files w /\
  writes run.1 = writes w /\
  forall outcome, run.2 = Ok outcome -> action outcome = "preview" /\ res_pageId outcome = None.
Proof.
  intros run. subst run. split; [apply syncFile_dry_reads|].
  split; [by apply syncFile_dry_local|]. split; [by apply syncFile_dry_local|].
  intros outcome. unfold syncFile. rewrite bind_run. unfold lift at 1.
  destruct (loadConfig env (server w)) as [s0 [config|e]]; [|done].
  rewrite bind_run. unfold pathExists, gets. cbn [files set_server].
  case_bool_decide; cbn [negb]; [|done].
  destruct (endsWith_md file); cbn [negb]; [|done].
  rewrite bind_run.
  destruct (stateManager_init env (set_server s0 w)) as [w1 [[]|e]]; [|done].
  rewrite bind_run. unfold lift at 1.
  destruct (parseFile env _ _ (server w1)) as [s2 [parsed|e]]; [|done].
  rewrite bind_run, testConnection_run. cbn [fst snd].
  destruct (answer (api_space api _).2 (fun _ => true) false); cbn [negb]; [|done].
  rewrite bind_run.
  match goal with |- context [findRootParent api config ?x] =>
    destruct (findRootParent api config x) as [w4 [root|e]] end; [|done].
  by intros [= <-].
Qed.

(** X15: [syncFile] rejects a path that names no file, or a file whose name
    does not end in [.md], before it loads the sync state or sends a
    request: with the configuration loaded, it throws the error of the path
    (the missing file first), and the log of requests, the sync state and the
    local files are as they were. *)
Theorem syncFile_rejects_bad_path (file : string) (dryRun : bool) (w : World S) :
  let absolutePath := path_resolve env (projectRoot env) file in
  files w !! absolutePath = None \/ endsWith_md file = false ->
  let run := syncFile api env file dryRun w in
  calls run.1 = calls w /\ pages run.1 = pages w /\
  files run.1 = files w /\ writes run.1 = writes w /\
  run.2 = match (loadConfig env (server w)).2 with
          | Throw message => Throw message
          | Ok _ =>
              Throw (if bool_decide (is_Some (files w !! absolutePath))
                     then "File phải có extension .md: " +:+ file
                     else "File không tồn tại: " +:+ file)
          end.
Proof.
  intros absolutePath Hbad run.
  assert (Hrun : run =
    (set_server (loadConfig env (server w)).1 w,
     match (loadConfig env (server w)).2 with
     | Throw message => Throw message
     | Ok _ =>
         Throw (if bool_decide (is_Some (files w !! absolutePath))
                then "File phải có extension .md: " +:+ file
                else "File không tồn tại: " +:+ file)
     end)).
  { subst run. unfold syncFile. rewrite bind_run. unfold lift at 1.
    destruct (loadConfig env (server w)) as [s0 [config|e]]; [|done].
    rewrite bind_run. unfold pathExists, gets. cbn [files set_server fst snd].
    fold absolutePath. case_bool_decide as Hfile; cbn [negb]; [|done].
    destruct Hbad as [Hnone|Hmd]; [rewrite Hnone in Hfile; by destruct Hfile|].
    by rewrite Hmd. }
  by rewrite Hrun.
Qed.

(** X16: when the scanner finds no document, [syncDocs] sends no request,
    not even the test of the connection, and writes no local file; when it
    returns, its summary counts nothing. *)
Theorem syncDocs_without_documents (dryRun : bool) (w : World S) :
  (forall s, exists s', scanDocs env s = (s', Ok [])) ->
  let run := syncDocs api env dryRun w in
  calls run.1 = calls w /\ files run.1 = files w /\ writes run.1 = writes w /\
  forall summary,
    run.2 = Ok summary ->
    summary = {| success := true; sum_processed := 0; sum_created := Some 0%nat;
                 sum_updated := 0; sum_skipped := 0; sum_failed := None |}.
Proof.
  intros Hscan run.
  assert (Hrun : exists w1 r, run = (w1, r) /\
                 calls w1 = calls w /\ files w1 = files w /\ writes w1 = writes w /\
                 (r = Ok {| success := true; sum_processed := 0; sum_created := Some 0%nat;
                            sum_updated := 0; sum_skipped := 0; sum_failed := None |} \/
                  exists e, r = Throw e)).
  { subst run. unfold syncDocs. rewrite bind_run. unfold lift at 1.
    destruct (loadConfig env (server w)) as [s0 [config|e]];
      [|eexists _, _; split; [reflexivity|]; cbn; repeat split; eauto].
    rewrite bind_run. unfold stateManager_init. rewrite bind_run. unfold lift at 1.
    cbn [server set_server].
    destruct (loadState env s0) as [s1 [tracked|e]];
      [|eexists _, _; split; [reflexivity|]; cbn; repeat split; eauto].
    unfold modify at 1. rewrite bind_run. unfold lift at 1. cbn [server set_server set_pages].
    destruct (detectProject env s1) as [s2 [[]|e]];
      [|eexists _, _; split; [reflexivity|]; cbn; repeat split; eauto].
    rewrite bind_run. unfold lift at 1. cbn [server set_server set_pages].
    destruct (Hscan s2) as [s3 ->].
    eexists _, _; split; [reflexivity|]; cbn; repeat split; eauto. }
  destruct Hrun as (w1 & r & -> & Hc & Hf & Hw & Hr). repeat split; try done.
  intros summary Hok. cbn in Hok. destruct Hr as [Hr|[e Hr]]; rewrite Hr in Hok;
    [by injection Hok | done].
Qed.

(** *** Without a connection *)

(** A command that stopped at the test of the connection, or before it:
    no local file was written, and the only request it may have sent is the
    test itself, followed by the error of the connection. *)
Definition stopped {A} (w : World S) (run : World S * result A) : Prop :=
  files run.1 = files w /\ writes run.1 = writes w /\
  (calls run.1 = calls w \/
   (calls run.1 = calls w ++ [GET_space] /\ run.2 = Throw "Failed to connect to Confluence")).

Lemma stopped_at {A} (w w1 : World S) (r : result A) :
  files w1 = files w -> writes w1 = writes w ->
  calls w1 = calls w \/ (calls w1 = calls w ++ [GET_space] /\
                          r = Throw "Failed to connect to Confluence") ->
  stopped w (w1, r).
Proof. by intros; repeat split. Qed.

(** A command that stopped there with an error. *)
Definition failedThere {A} (w : World S) (run : World S * result A) : Prop :=
  stopped w run /\ exists message, run.2 = Throw message.

Lemma failed_at {A} (w w1 : World S) (message : string) :
  files w1 = files w -> writes w1 = writes w ->
  calls w1 = calls w \/ (calls w1 = calls w ++ [GET_space] /\
                          message = "Failed to connect to Confluence") ->
  failedThere (A := A) w (w1, Throw message).
Proof.
  intros Hf Hw Hc. split; [|by eexists]. apply stopped_at; [done | done |].
  destruct Hc as [Hc|[Hc ->]]; [by left | by right].
Qed.

Section Down.

Hypothesis down : forall s, exists s' message, api_space api s = (s', Throw message).

Lemma testConnection_down (w : World S) :
  exists s', testConnection api w = (sent GET_space s' w, Ok false).
Proof.
  rewrite testConnection_run. destruct (down (server w)) as (s' & message & ->).
  by exists s'.
Qed.

Lemma syncDocs_down dryRun w : stopped w (syncDocs api env dryRun w).
Proof.
  unfold syncDocs. rewrite bind_run. unfold lift at 1.
  destruct (loadConfig env (server w)) as [s0 [config|e]]; [|apply stopped_at; cbn; auto].
  rewrite bind_run. unfold stateManager_init. rewrite bind_run. unfold lift at 1.
  cbn [server set_server].
  destruct (loadState env s0) as [s1 [tracked|e]]; [|apply stopped_at; cbn; auto].
  unfold modify at 1. rewrite bind_run. unfold lift at 1. cbn [server set_server set_pages].
  destruct (detectProject env s1) as [s2 [[]|e]]; [|apply stopped_at; cbn; auto].
  rewrite bind_run. unfold lift at 1. cbn [server set_server set_pages].
  destruct (scanDocs env s2) as [s3 [documents|e]]; [|apply stopped_at; cbn; auto].
  destruct (length documents =? 0)%nat; [apply stopped_at; cbn; auto|].
  rewrite bind_run.
  match goal with |- context [testConnection api ?x] =>
    destruct (testConnection_down x) as [s4 ->] end.
  apply stopped_at; cbn; auto.
Qed.

Lemma syncBlog_down dryRun w : stopped w (syncBlog api env scanBlog dryRun w).
Proof.
  unfold syncBlog. rewrite bind_run. unfold lift at 1.
  destruct (loadConfig env (server w)) as [s0 [config|e]]; [|apply stopped_at; cbn; auto].
  rewrite bind_run. unfold stateManager_init. rewrite bind_run. unfold lift at 1.
  cbn [server set_server].
  destruct (loadState env s0) as [s1 [tracked|e]]; [|apply stopped_at; cbn; auto].
  unfold modify at 1. rewrite bind_run. unfold lift at 1. cbn [server set_server set_pages].
  destruct (detectProject env s1) as [s2 [[]|e]]; [|apply stopped_at; cbn; auto].
  rewrite bind_run. unfold lift at 1. cbn [server set_server set_pages].
  destruct (scanBlog s2) as [s3 [posts|e]]; [|apply stopped_at; cbn; auto].
  destruct (length posts =? 0)%nat; [apply stopped_at; cbn; auto|].
  rewrite bind_run.
  match goal with |- context [testConnection api ?x] =>
    destruct (testConnection_down x) as [s4 ->] end.
  apply stopped_at; cbn; auto.
Qed.

Lemma syncReverse_down dryRun w : failedThere w (syncReverse api env dryRun w).
Proof.
  unfold syncReverse. rewrite bind_run. unfold lift at 1.
  destruct (loadConfig env (server w)) as [s0 [config|e]];
    [|apply failed_at; cbn; auto].
  rewrite bind_run. unfold stateManager_init. rewrite bind_run. unfold lift at 1.
  cbn [server set_server].
  destruct (loadState env s0) as [s1 [tracked|e]];
    [|apply failed_at; cbn; auto].
  unfold modify at 1. rewrite bind_run.
  match goal with |- context [testConnection api ?x] =>
    destruct (testConnection_down x) as [s4 ->] end.
  apply failed_at; cbn; auto.
Qed.

Lemma syncFile_down file dryRun w : failedThere w (syncFile api env file dryRun w).
Proof.
  unfold syncFile. rewrite bind_run. unfold lift at 1.
  destruct (loadConfig env (server w)) as [s0 [config|e]];
    [|apply failed_at; cbn; auto].
  rewrite bind_run. unfold pathExists, gets. cbn [files set_server].
  case_bool_decide; cbn [negb]; [|apply failed_at; cbn; auto].
  destruct (endsWith_md file); cbn [negb];
    [|apply failed_at; cbn; auto].
  rewrite bind_run. unfold stateManager_init. rewrite bind_run. unfold lift at 1.
  cbn [server set_server].
  destruct (loadState env s0) as [s1 [tracked|e]];
    [|apply failed_at; cbn; auto].
  unfold modify at 1. rewrite bind_run. unfold lift at 1. cbn [server set_server set_pages].
  destruct (parseFile env _ _ s1) as [s2 [parsed|e]];
    [|apply failed_at; cbn; auto].
  rewrite bind_run.
  match goal with |- context [testConnection api ?x] =>
    destruct (testConnection_down x) as [s4 ->] end.
  apply failed_at; cbn; auto.
Qed.

(** X17: when the request for the space fails, no command goes past the
    test of the connection: [syncDocs], [syncBlog], [syncFile] and
    [syncReverse] write no local file and send at most that one request, which
    they follow with the error [Failed to connect to Confluence]; [syncFile]
    and [syncReverse] always end with an error. *)
Theorem no_connection_no_sync (dryRun : bool) (w : World S) :
  stopped w (syncDocs api env dryRun w) /\
  stopped w (syncBlog api env scanBlog dryRun w) /\
  (forall file, failedThere w (syncFile api env file dryRun w)) /\
  failedThere w (syncReverse api env dryRun w).
Proof.
  split; [apply syncDocs_down|]. split; [apply syncBlog_down|].
  split; [intros; apply syncFile_down | apply syncReverse_down].
Qed.

End Down.

(** *** What the loop of [syncDocs] records and counts *)

(** The record that [syncDocs] stores for a document it pushed to the page
    [pageId]. *)
Definition pushedRecord (config : Config) (rootParent : option string)
    (hierarchyMap : gmap string (option string)) (document : Document)
    (pageId modified : string) : PageInfo :=
  {| confluenceId := Some pageId;
     title := doc_title document;
     category := Some (doc_category document);
     slug := doc_slug document;
     lastModified := modified;
     version := None;
     parentId := documentParent hierarchyMap rootParent document;
     spaceKey := Some (cfg_spaceKey config) |}.

(** The outcome of a computation on the sync state and the counters: an
    error leaves both as they were. *)
Definition outcome {A} (Q : World S -> World S -> Prop) (m : M S A) : Prop :=
  forall w,
    match m w with
    | (w', Throw _) => pages w' = pages w /\ stats w' = stats w
    | (w', Ok _) => Q w w'
    end.

Lemma outcome_bind {A C} (Q : World S -> World S -> Prop) (m : M S A) (f : A -> M S C) :
  preserves pages m -> preserves stats m ->
  (forall w w1 w2, pages w1 = pages w -> stats w1 = stats w -> Q w1 w2 -> Q w w2) ->
  (forall a, outcome Q (f a)) -> outcome Q (m ≫= f).
Proof.
  intros Hp Hs HQ Hf w. rewrite bind_run. specialize (Hp w). specialize (Hs w).
  destruct (m w) as [w1 [a|e]]; cbn [fst] in *; [|done].
  specialize (Hf a w1). destruct (f a w1) as [w2 [c|e]].
  - by apply (HQ w w1 w2).
  - destruct Hf as [Hf1 Hf2]. by rewrite Hf1, Hf2.
Qed.

(** What a turn of the loop that ends normally did. *)
Definition pushed (dryRun : bool) (config : Config) (rootParent : option string)
    (hierarchyMap : gmap string (option string)) (document : Document) (w w' : World S) : Prop :=
  if dryRun
  then pages w' = pages w /\ stats w' = incr "processed" (stats w)
  else
    (pages w' = pages w /\ stats w' = incr "skipped" (stats w)) \/
    exists pageId modified,
      doc_lastModified document = Some modified /\
      pages w' = <[relativePath document :=
                     upsert (pages w !! relativePath document)
                       (pushedRecord config rootParent hierarchyMap document pageId
                          (toISO env modified))]>
                   (pages w) /\
      (stats w' = incr "processed" (incr "created" (stats w)) \/
       stats w' = incr "processed" (incr "updated" (stats w))).

Lemma pushed_from dryRun config root hierarchyMap document (w w1 w2 : World S) :
  pages w1 = pages w -> stats w1 = stats w ->
  pushed dryRun config root hierarchyMap document w1 w2 ->
  pushed dryRun config root hierarchyMap document w w2.
Proof. unfold pushed. intros -> ->. done. Qed.

Lemma documentBody_outcome dryRun config root hierarchyMap document :
  outcome (pushed dryRun config root hierarchyMap document)
    (documentBody api env dryRun config root hierarchyMap document).
Proof.
  unfold documentBody. destruct dryRun; cbn [negb andb].
  - intros w. rewrite bind_run. unfold mret at 1, M_ret at 1. cbv iota beta.
    rewrite bind_run. destruct (doc_lastModified document); cbn; done.
  - apply outcome_bind; [apply preserves_gets | apply preserves_gets | apply pushed_from|].
    intros needs. destruct needs; cbn [negb].
    + apply outcome_bind; [local | local | apply pushed_from|]. intros parsedContent.
      apply outcome_bind;
        [by apply createOrUpdatePage_preserves; apply _
        |by apply createOrUpdatePage_preserves; apply _
        |apply pushed_from|].
      intros result.
      apply outcome_bind; [| |apply pushed_from|].
      { destruct (hasImages document || hasMermaid document);
          [by apply processMedia_preserves; apply _ | local]. }
      { destruct (hasImages document || hasMermaid document);
          [by apply processMedia_preserves; apply _ | local]. }
      intros _. apply outcome_bind; [local | local | apply pushed_from|]. intros _.
      intros w. rewrite bind_run.
      destruct (doc_lastModified document) as [modified|] eqn:Hdate; cbn [toISOString];
        [|by split].
      unfold mret at 1, M_ret at 1. cbv beta iota.
      destruct (bool_decide (page_version result = Some 1));
        unfold pushed, setPageState, stats_incr, updateStats, modify, mbind, M_bind; cbn;
        right; exists (page_id result), modified; (split; [exact Hdate|]);
        (split; [reflexivity|]); [by left | by right].
    + intros w. unfold pushed, stats_incr, updateStats, modify, mbind, M_bind. cbn. by left.
Qed.

(** A turn of the loop with its [catch]. *)
Definition turned (dryRun : bool) (config : Config) (rootParent : option string)
    (hierarchyMap : gmap string (option string)) (document : Document) (w w' : World S) : Prop :=
  pushed dryRun config rootParent hierarchyMap document w w' \/
  (pages w' = pages w /\ stats w' = incr "failed" (stats w)).

Lemma processDocument_outcome dryRun config root hierarchyMap document w :
  turned dryRun config root hierarchyMap document w
    (processDocument api env dryRun config root hierarchyMap document w).1.
Proof.
  unfold processDocument. rewrite try_catch_run.
  pose proof (documentBody_outcome dryRun config root hierarchyMap document w) as H.
  destruct (documentBody api env dryRun config root hierarchyMap document w) as [w1 [[]|e]].
  - by left.
  - right. destruct H as [Hp Hs].
    unfold mbind, M_bind, stats_incr, updateStats, modify. cbn. by rewrite Hs.
Qed.


Lemma processDocuments_balanced dryRun config root hierarchyMap documents w :
  let s' := stats (processDocuments api env dryRun config root hierarchyMap documents w).1 in
  (if dryRun
   then created s' = created (stats w) /\ updated s' = updated (stats w) /\
        skipped s' = skipped (stats w)
   else (processed s' + created (stats w) + updated (stats w)
         = processed (stats w) + created s' + updated s')%nat) /\
  (created (stats w) <= created s')%nat /\ (updated (stats w) <= updated s')%nat.
Proof.
  revert w. induction documents as [|document rest IH]; intros w.
  - cbn. destruct dryRun; repeat split; lia.
  - cbn [processDocuments]. rewrite bind_run.
    pose proof (processDocument_outcome dryRun config root hierarchyMap document w) as Hturn.
    pose proof (processDocument_ok api env dryRun config root hierarchyMap document w) as Hok.
    destruct (processDocument api env dryRun config root hierarchyMap document w) as [w1 r].
    cbn [fst snd] in *. subst r. specialize (IH w1). cbn zeta in *.
    set (s' := stats (processDocuments api env dryRun config root hierarchyMap rest w1).1) in *.
    assert (Hstep :
      (if dryRun
       then created (stats w1) = created (stats w) /\ updated (stats w1) = updated (stats w) /\
            skipped (stats w1) = skipped (stats w)
       else (processed (stats w1) + created (stats w) + updated (stats w)
             = processed (stats w) + created (stats w1) + updated (stats w1))%nat) /\
      (created (stats w) <= created (stats w1))%nat /\
      (updated (stats w) <= updated (stats w1))%nat).
    { destruct Hturn as [Hpushed|[_ ->]].
      - unfold pushed in Hpushed. destruct dryRun.
        + destruct Hpushed as [_ ->]. cbn. repeat split; lia.
        + destruct Hpushed as [[_ ->]|(pageId & modified & _ & _ & [-> | ->])];
            cbn; repeat split; lia.
      - destruct dryRun; cbn; repeat split; lia. }
    destruct dryRun.
    + destruct IH as ((I1 & I2 & I3) & I4 & I5), Hstep as ((H1 & H2 & H3) & H4 & H5).
      repeat split; lia.
    + destruct IH as (I1 & I4 & I5), Hstep as (H1 & H4 & H5). repeat split; lia.
Qed.

(** X19: in the summary that [syncDocs] returns after its loop, every
    document is counted once, as processed, skipped or failed; the processed
    documents of a real run are the created and the updated ones; a dry run
    counts nothing as created, updated or skipped. *)
Theorem syncDocs_summary_balance dryRun config root hierarchyMap documents (w w' : World S)
    (summary : Summary) :
  syncDocuments api env dryRun config root hierarchyMap documents w = (w', Ok summary) ->
  exists nCreated nFailed,
    sum_created summary = Some nCreated /\ sum_failed summary = Some nFailed /\
    (sum_processed summary + sum_skipped summary + nFailed = length documents)%nat /\
    if dryRun
    then nCreated = 0%nat /\ sum_updated summary = 0%nat /\ sum_skipped summary = 0%nat
    else sum_processed summary = (nCreated + sum_updated summary)%nat.
Proof.
  intros Hrun.
  pose proof (syncDocuments_summary api env dryRun config root hierarchyMap documents w) as Hsum.
  cbn zeta in Hsum. rewrite Hrun in Hsum. destruct Hsum as [-> Hhandled].
  pose proof (processDocuments_balanced dryRun config root hierarchyMap documents
                (set_stats Stats_zero w)) as Hb.
  cbn zeta in Hb.
  set (s' := stats (processDocuments api env dryRun config root hierarchyMap documents
                      (set_stats Stats_zero w)).1) in *.
  exists (created s'), (failed s'). unfold summaryOf. cbn.
  split; [done|]. split; [done|]. unfold handled in Hhandled. split; [lia|].
  destruct dryRun.
  - destruct Hb as ((H1 & H2 & H3) & _). cbn in H1, H2, H3. by rewrite H1, H2, H3.
  - destruct Hb as (H1 & _). cbn in H1. lia.
Qed.

(** *** The command line *)

Lemma syncAction_run (options : Options) (w : World S) :
  let chosen : option (World S * result unit) :=
    if opt_reverse options
    then Some ((_ ← syncReverse api env (opt_dryRun options); mret tt) w)
    else if Js.truthy_opt (opt_file options)
    then Some ((_ ← syncFile api env (Js.or_else (opt_file options) "") (opt_dryRun options);
                mret tt) w)
    else if opt_docs options
    then Some ((_ ← syncDocs api env (opt_dryRun options); mret tt) w)
    else if opt_blog options
    then Some ((_ ← syncBlog api env scanBlog (opt_dryRun options); mret tt) w)
    else None in
  syncAction api env scanBlog options w =
  match chosen with
  | Some (w', Ok _) => (w', Ok Done)
  | Some (w', Throw _) => (w', Ok (Exit 1))
  | None => (w, Ok (Exit 1))
  end.
Proof.
  unfold syncAction. rewrite try_catch_run.
  destruct (opt_reverse options).
  { rewrite !bind_run. by destruct (syncReverse api env (opt_dryRun options) w) as [w1 [r|e]]. }
  destruct (Js.truthy_opt (opt_file options)).
  { rewrite !bind_run.
    by destruct (syncFile api env (Js.or_else (opt_file options) "") (opt_dryRun options) w)
      as [w1 [r|e]]. }
  destruct (opt_docs options).
  { rewrite !bind_run. by destruct (syncDocs api env (opt_dryRun options) w) as [w1 [r|e]]. }
  destruct (opt_blog options); [|reflexivity].
  rewrite !bind_run.
  by destruct (syncBlog api env scanBlog (opt_dryRun options) w) as [w1 [r|e]].
Qed.

(** X20: the action of [docflu sync] runs one command, the first that is
    asked for among [--reverse], [--file], [--docs] and [--blog], and never
    throws: it ends normally when the command returns and exits with code 1
    when the command throws; with none of the four options it runs nothing
    and exits with code 1.  With [--reverse] no write is sent to the wiki,
    whatever the other options are. *)
Theorem syncAction_runs_one_command (options : Options) (w : World S) :
  let run := syncAction api env scanBlog options w in
  let dryRun := opt_dryRun options in
  (run.2 = Ok Done \/ run.2 = Ok (Exit 1)) /\
  (opt_reverse options = true ->
   run.1 = (syncReverse api env dryRun w).1 /\
   (run.2 = Ok Done <-> exists summary, (syncReverse api env dryRun w).2 = Ok summary) /\
   List.filter isWrite (calls run.1) = List.filter isWrite (calls w)) /\
  (opt_reverse options = false -> Js.truthy_opt (opt_file options) = true ->
   run.1 = (syncFile api env (Js.or_else (opt_file options) "") dryRun w).1 /\
   (run.2 = Ok Done <->
    exists outcome,
      (syncFile api env (Js.or_else (opt_file options) "") dryRun w).2 = Ok outcome)) /\
  (opt_reverse options = false -> Js.truthy_opt (opt_file options) = false ->
   opt_docs options = true ->
   run.1 = (syncDocs api env dryRun w).1 /\
   (run.2 = Ok Done <-> exists summary, (syncDocs api env dryRun w).2 = Ok summary)) /\
  (opt_reverse options = false -> Js.truthy_opt (opt_file options) = false ->
   opt_docs options = false -> opt_blog options = true ->
   run.1 = (syncBlog api env scanBlog dryRun w).1 /\
   (run.2 = Ok Done <-> exists summary, (syncBlog api env scanBlog dryRun w).2 = Ok summary)) /\
  (opt_reverse options = false -> Js.truthy_opt (opt_file options) = false ->
   opt_docs options = false -> opt_blog options = false ->
   run = (w, Ok (Exit 1))).
Proof.
  intros run dryRun. subst run dryRun. rewrite syncAction_run. cbv zeta.
  split; [|split; [|split; [|split; [|split]]]].
  - destruct (opt_reverse options); [|destruct (Js.truthy_opt (opt_file options));
      [|destruct (opt_docs options); [|destruct (opt_blog options)]]];
      rewrite ?bind_run;
      repeat match goal with
             | |- context [syncReverse ?a ?e ?d ?x] => destruct (syncReverse a e d x) as [? [?|?]]
             | |- context [syncFile ?a ?e ?f ?d ?x] => destruct (syncFile a e f d x) as [? [?|?]]
             | |- context [syncDocs ?a ?e ?d ?x] => destruct (syncDocs a e d x) as [? [?|?]]
             | |- context [syncBlog ?a ?e ?b ?d ?x] => destruct (syncBlog a e b d x) as [? [?|?]]
             end; cbn; auto.
  - intros ->. rewrite bind_run.
    pose proof (syncReverse_reads (opt_dryRun options) w) as Hreads. unfold writesOf in Hreads.
    destruct (syncReverse api env (opt_dryRun options) w) as [w1 [summary|e]]; cbn in *.
    + split; [done|]. split; [|done]. split; [by eexists | done].
    + split; [done|]. split; [|done]. split; [done | by intros [? ?]].
  - intros -> ->. rewrite bind_run.
    destruct (syncFile api env (Js.or_else (opt_file options) "") (opt_dryRun options) w)
      as [w1 [outcome|e]]; cbn.
    + split; [done|]. split; [by eexists | done].
    + split; [done|]. split; [done | by intros [? ?]].
  - intros -> -> ->. rewrite bind_run.
    destruct (syncDocs api env (opt_dryRun options) w) as [w1 [summary|e]]; cbn.
    + split; [done|]. split; [by eexists | done].
    + split; [done|]. split; [done | by intros [? ?]].
  - intros -> -> -> ->. rewrite bind_run.
    destruct (syncBlog api env scanBlog (opt_dryRun options) w) as [w1 [summary|e]]; cbn.
    + split; [done|]. split; [by eexists | done].
    + split; [done|]. split; [done | by intros [? ?]].
  - by intros -> -> -> ->.
Qed.

(** *** The dry run of [syncDocs] *)

(** One call of [findOrCreateParentPage] for each category of the list, in
    order; the parents are kept under the categories. *)
Fixpoint resolveEach (categories : list string) (rootParent : option string)
    (hierarchyMap : gmap string (option string)) : M S (gmap string (option string)) :=
  match categories with
  | [] => mret hierarchyMap
  | category :: rest =>
      categoryParentId ← findOrCreateParentPage api category rootParent;
      resolveEach rest rootParent (<[category := categoryParentId]> hierarchyMap)
  end.

Lemma buildHierarchy_resolveEach categories root hierarchyMap w :
  List.NoDup categories ->
  (forall category, In category categories -> hierarchyMap !! category = None) ->
  buildHierarchy api categories root hierarchyMap w = resolveEach categories root hierarchyMap w.
Proof.
  revert hierarchyMap w.
  induction categories as [|category rest IH]; intros hierarchyMap w Hnodup Hfresh; [done|].
  cbn [buildHierarchy resolveEach].
  rewrite bool_decide_eq_false_2
    by (rewrite (Hfresh category (or_introl eq_refl)); by intros [? ?]).
  rewrite !bind_run.
  destruct (findOrCreateParentPage api category root w) as [w1 [parent|e]]; [|done].
  inversion Hnodup as [|? ? Hnotin Hrest]; subst.
  apply IH; [exact Hrest|].
  intros other Hin. rewrite lookup_insert_ne; [apply Hfresh; by right|].
  intros ->. by apply Hnotin.
Qed.

(** Steps 1 to 7 of [syncDocs]: what the command does before the hierarchy
    step; [None] when the scan found no document. *)
Definition beforeHierarchy : M S (option (Config * list Document * option string)) :=
  confluenceConfig ← lift (loadConfig env);
  _ ← stateManager_init env;
  _ ← lift (detectProject env);
  documents ← lift (scanDocs env);
  if (length documents =? 0)%nat
  then mret None
  else
    connected ← testConnection api;
    if negb connected then throw "Failed to connect to Confluence"
    else
      rootParent ← findRootParent api confluenceConfig;
      _ ← resetStats;
      mret (Some (confluenceConfig, documents, rootParent)).

(** Steps 8 to 11 of [syncDocs], from what the steps before them found. *)
Definition fromHierarchy (dryRun : bool)
    (prepared : option (Config * list Document * option string)) : M S Summary :=
  match prepared with
  | None =>
      mret {| success := true; sum_processed := 0; sum_created := Some 0%nat;
              sum_updated := 0; sum_skipped := 0; sum_failed := None |}
  | Some (config, documents, rootParent) =>
      hierarchyMap ← buildHierarchy api (categoriesOf documents) rootParent ∅;
      syncDocuments api env dryRun config rootParent hierarchyMap documents
  end.

Lemma bind_assoc_run {A B C} (m : M S A) (f : A -> M S B) (g : B -> M S C) (w : World S) :
  ((m ≫= f) ≫= g) w = (m ≫= (fun a => f a ≫= g)) w.
Proof. rewrite !bind_run. by destruct (m w) as [w1 [a|e]]. Qed.

Lemma bind_ext_run {A B} (m : M S A) (f g : A -> M S B) (w : World S) :
  (forall a w1, f a w1 = g a w1) -> (m ≫= f) w = (m ≫= g) w.
Proof. intros Hfg. rewrite !bind_run. by destruct (m w) as [w1 [a|e]]. Qed.

Lemma syncDocs_steps (dryRun : bool) (w : World S) :
  syncDocs api env dryRun w = (beforeHierarchy ≫= fromHierarchy dryRun) w.
Proof.
  unfold syncDocs, beforeHierarchy.
  rewrite bind_assoc_run. apply bind_ext_run. intros config w1.
  rewrite bind_assoc_run. apply bind_ext_run. intros _ w2.
  rewrite bind_assoc_run. apply bind_ext_run. intros _ w3.
  rewrite bind_assoc_run. apply bind_ext_run. intros documents w4.
  destruct (length documents =? 0)%nat; [reflexivity|].
  rewrite bind_assoc_run. apply bind_ext_run. intros connected w5.
  destruct connected; cbn [negb]; [|reflexivity].
  rewrite bind_assoc_run. apply bind_ext_run. intros root w6.
  rewrite bind_assoc_run. apply bind_ext_run. intros _ w7.
  reflexivity.
Qed.

Lemma beforeHierarchy_reads : preserves writesOf beforeHierarchy.
Proof.
  unfold beforeHierarchy, resetStats. quiet;
    first [apply testConnection_reads | apply findRootParent_reads].
Qed.

(** What a run sends when only its hierarchy step may write to the wiki:
    the steps before it send no write and lead to a world [w1]; the run ends
    there, or the documents were scanned and the wiki and the log of
    requests are, at the end of the run, as the hierarchy step over the
    categories of the documents left them. *)
Definition hierarchyOnly (w : World S) (run : World S * result Summary) : Prop :=
  exists w1,
    writesOf w1 = writesOf w /\
    (run.1 = w1 \/
     exists s s' documents root,
       scanDocs env s = (s', Ok documents) /\
       let built := buildHierarchy api (categoriesOf documents) root ∅ w1 in
       calls run.1 = calls built.1 /\ server run.1 = server built.1).

Lemma hierarchyOnly_bind {A} (m : M S A) (f : A -> M S Summary) (w : World S) :
  preserves writesOf m ->
  (forall a w1, hierarchyOnly w1 (f a w1)) ->
  hierarchyOnly w ((m ≫= f) w).
Proof.
  intros Hm Hf. rewrite bind_run. specialize (Hm w).
  destruct (m w) as [w1 [a|e]]; cbn [fst] in Hm.
  - destruct (Hf a w1) as (w2 & Hw2 & Hrun). exists w2. split; [by rewrite Hw2|exact Hrun].
  - exists w1. split; [exact Hm | by left].
Qed.

Lemma hierarchyOnly_from (w w' : World S) (run : World S * result Summary) :
  writesOf w' = writesOf w -> hierarchyOnly w' run -> hierarchyOnly w run.
Proof. intros Hw (w1 & Hw1 & Hrun). exists w1. split; [by rewrite Hw1 | exact Hrun]. Qed.

Lemma syncDocs_hierarchyOnly (w : World S) : hierarchyOnly w (syncDocs api env true w).
Proof.
  unfold syncDocs.
  apply hierarchyOnly_bind; [apply quiet_lift; apply _|]. intros config w1.
  apply hierarchyOnly_bind; [apply quiet_stateManager_init; apply _|]. intros _ w2.
  apply hierarchyOnly_bind; [apply quiet_lift; apply _|]. intros _ w3.
  rewrite bind_run. unfold lift at 1.
  destruct (scanDocs env (server w3)) as [s' [documents|e]] eqn:Hscan;
    [|exists (set_server s' w3); split; [done | by left]].
  destruct (length documents =? 0)%nat;
    [exists (set_server s' w3); split; [done | by left]|].
  apply (hierarchyOnly_from w3 (set_server s' w3)); [done|].
  apply hierarchyOnly_bind; [apply testConnection_reads|]. intros connected w4.
  destruct connected; cbn [negb]; [|exists w4; split; [done | by left]].
  apply hierarchyOnly_bind; [apply findRootParent_reads|]. intros root w5.
  apply hierarchyOnly_bind; [apply quiet_modify; [apply _ | reflexivity]|]. intros _ w6.
  exists w6. split; [done|]. right.
  exists (server w3), s', documents, root. split; [exact Hscan|].
  cbn zeta. rewrite bind_run.
  destruct (buildHierarchy api (categoriesOf documents) root ∅ w6) as [w7 [hierarchyMap|e]];
    [|done].
  cbn [fst].
  by destruct (syncDocuments_dry api env config root hierarchyMap documents w7) as (-> & -> & _).
Qed.

(** C10: in a dry run of [syncDocs] the loop over the documents sends no
    request and changes neither the wiki nor the sync state; the hierarchy
    step, which takes no [dryRun], calls [findOrCreateParentPage] once for
    every distinct category of the documents, in order; and the command,
    dry run or not, is its steps 1 to 7, which send no write, followed,
    when they end normally and found documents, by the hierarchy step over
    the categories of the documents and then by the loop: what a dry run
    leaves on the wiki and in the log of requests is what the hierarchy step
    left there.  In the example, a dry run over documents of the categories
    [guide] and [api/rest] creates the container pages [Guide], [Api] and
    [Rest] and no page for a document. *)
Theorem C10_dry_run_builds_hierarchy :
  (forall config root hierarchyMap documents w,
     let w' := (syncDocuments api env true config root hierarchyMap documents w).1 in
     calls w' = calls w /\ server w' = server w /\ pages w' = pages w) /\
  (forall documents root w,
     buildHierarchy api (categoriesOf documents) root ∅ w
     = resolveEach (categoriesOf documents) root ∅ w) /\
  (forall dryRun w,
     syncDocs api env dryRun w = (beforeHierarchy ≫= fromHierarchy dryRun) w /\
     List.filter isWrite (calls (beforeHierarchy w).1) = List.filter isWrite (calls w)) /\
  (forall w, hierarchyOnly w (syncDocs api env true w)) /\
  (let documents := [MemWiki.exampleDocument "guide/x.md" "guide" "text";
                     MemWiki.exampleDocument "api/rest/y.md" "api/rest" "text";
                     MemWiki.exampleDocument "guide/z.md" "guide" "text"] in
   let run := syncDocs MemWiki.api (MemWiki.exampleEnv documents ∅) true (MemWiki.emptyWorld []) in
   run.2 = Ok {| success := true; sum_processed := 3; sum_created := Some 0%nat;
                 sum_updated := 0; sum_skipped := 0; sum_failed := Some 0%nat |} /\
   List.filter isWrite (calls run.1) =
     [POST_content "Guide" (containerContent "Guide" "guide") None;
      POST_content "Api" (containerContent "Api" "api") None;
      POST_content "Rest" (containerContent "Rest" "api/rest") (Some "p1")] /\
   map (fun e => page_title (MemWiki.entry_page e)) (server run.1) = ["Guide"; "Api"; "Rest"]).
Proof.
  split; [|split; [|split; [|split]]].
  - intros. apply syncDocuments_dry.
  - intros documents root w. apply buildHierarchy_resolveEach.
    + apply TextFacts.new_Set_NoDup.
    + intros category _. apply lookup_empty.
  - intros dryRun w. split; [apply syncDocs_steps | apply beforeHierarchy_reads].
  - apply syncDocs_hierarchyOnly.
  - by vm_compute.
Qed.

End Facts.

(** *** Examples on the in-memory wiki *)

(** A wiki that cannot be reached: the request for the space fails. *)
Definition unreachable : Api MemWiki.Wiki :=
  {| api_space := fun wiki => (wiki, Throw "connect ECONNREFUSED");
     api_search := api_search MemWiki.api;
     api_children := api_children MemWiki.api;
     api_get := api_get MemWiki.api;
     api_post := api_post MemWiki.api;
     api_put := api_put MemWiki.api;
     api_download := api_download MemWiki.api |}.




Lemma syncReverse_counts_witness :
  exists summary,
    PullFacts.dryPull.2 = Ok summary /\
    (sum_updated summary + sum_skipped summary = 1)%nat /\
    sum_updated summary = 0%nat.
Proof.
  destruct PullFacts.dryPull as [w' [summary|e]] eqn:Hrun; [|by vm_compute in Hrun].
  exists summary. split; [done|].
  destruct (syncReverse_counts MemWiki.api _ true _ _ _ Hrun)
    as (_ & s & s' & tracked & Hload & Hsum & _ & Hdry).
  cbn in Hload. injection Hload as _ <-. split; [exact Hsum | by apply Hdry].
Defined.

Lemma syncFile_rejects_bad_path_witness :
  (syncFile MemWiki.api (MemWiki.exampleEnv [] ∅) "docs/missing.md" false
     (PullFacts.projectWorld [])).2
  = Throw ("File không tồn tại: " +:+ "docs/missing.md").
Proof.
  destruct (syncFile_rejects_bad_path MemWiki.api (MemWiki.exampleEnv [] ∅) "docs/missing.md"
              false (PullFacts.projectWorld [])) as (_ & _ & _ & _ & ->);
    [left; by vm_compute | by vm_compute].
Defined.

Lemma syncDocs_without_documents_witness :
  calls (syncDocs MemWiki.api (MemWiki.exampleEnv [] ∅) false (MemWiki.emptyWorld [])).1 = [].
Proof.
  by destruct (syncDocs_without_documents MemWiki.api (MemWiki.exampleEnv [] ∅) false
                 (MemWiki.emptyWorld [])) as (-> & _); [intros s; by exists s|].
Defined.

Lemma no_connection_no_sync_witness :
  failedThere (MemWiki.emptyWorld [])
    (syncReverse unreachable (MemWiki.exampleEnv [] ∅) false (MemWiki.emptyWorld [])).
Proof.
  assert (down : forall s, exists s' message, api_space unreachable s = (s', Throw message))
    by (intros s; by exists s, "connect ECONNREFUSED").
  by destruct (no_connection_no_sync unreachable (MemWiki.exampleEnv [] ∅)
                 (fun wiki => (wiki, Ok [])) down false (MemWiki.emptyWorld []))
    as (_ & _ & _ & Hreverse).
Defined.

Lemma syncDocs_summary_balance_witness :
  let documents := [MemWiki.exampleDocument "docs/a.md" "" "text";
                    MemWiki.exampleDocument "docs/b.md" "" "BROKEN"] in
  exists summary nFailed,
    (syncDocuments MemWiki.api (MemWiki.exampleEnv documents ∅) false MemWiki.exampleConfig
       None ∅ documents (MemWiki.emptyWorld [])).2 = Ok summary /\
    sum_failed summary = Some nFailed /\
    (sum_processed summary + sum_skipped summary + nFailed = 2)%nat.
Proof.
  intros documents.
  destruct (syncDocuments MemWiki.api (MemWiki.exampleEnv documents ∅) false
              MemWiki.exampleConfig None ∅ documents (MemWiki.emptyWorld []))
    as [w' [summary|e]] eqn:Hrun; [|by vm_compute in Hrun].
  destruct (syncDocs_summary_balance _ _ _ _ _ _ _ _ _ _ Hrun)
    as (nCreated & nFailed & _ & Hfailed & Hsum & _).
  by exists summary, nFailed.
Defined.

End CommandFacts.

(** ** The conversion of a page *)

Module ParserFacts.
Import Sync SyncFacts Parser.

Section Facts.

Context {S : Type} (env : Env S).
Variable ensureDir : string -> Ext S unit.
Variable mkdirp : string -> Ext S unit.
Variable path_dirname : string -> string.
Variable path_extname : string -> string.
Variable toLowerCase : string -> string.
Variable processConfluenceAttachmentReferences :
  string -> gmap string Attachment -> string -> M S string.
Variable processAttachmentImages : string -> string -> string -> M S string.
Variable processEmbeddedImages : string -> string -> string -> M S string.
Variable processContentImages : string -> string -> string -> string -> M S string.
Variable preprocessConfluenceHtml : string -> string.
Variable turndown : string -> result string.
Variable postprocessMarkdown : string -> string.

Abbreviation processImages :=
  (processImages env ensureDir mkdirp path_dirname processAttachmentImages
     processEmbeddedImages processContentImages).
Abbreviation processImagesWithAttachments :=
  (processImagesWithAttachments env ensureDir mkdirp path_dirname path_extname toLowerCase
     processConfluenceAttachmentReferences processAttachmentImages processEmbeddedImages
     processContentImages).
Abbreviation convertToMarkdown :=
  (convertToMarkdown env ensureDir mkdirp path_dirname path_extname toLowerCase
     processConfluenceAttachmentReferences processAttachmentImages processEmbeddedImages
     processContentImages preprocessConfluenceHtml turndown postprocessMarkdown).
Abbreviation isImageFile := (isImageFile path_extname toLowerCase).
Abbreviation attachmentMapOf := (attachmentMapOf path_extname toLowerCase).
Abbreviation addAttachment := (addAttachment path_extname toLowerCase).

(** *** Errors of the image passes *)

Lemma processImages_returns (html pageId targetFilePath : string) (w : World S) :
  exists w' out,
    processImages html pageId targetFilePath w = (w', Ok out) /\
    (out = html \/
     exists processedHtml w0,
       processContentImages processedHtml
         (path_join env (path_dirname targetFilePath) "images")
         (path_dirname targetFilePath) pageId w0 = (w', Ok out)).
Proof.
  unfold Parser.processImages. rewrite try_catch_run.
  set (imagesDir := path_join env (path_dirname targetFilePath) "images").
  rewrite bind_run.
  destruct (ensureImagesDir ensureDir mkdirp imagesDir w) as [w1 [[]|e]];
    [|by eexists _, _; split; [reflexivity | left]].
  rewrite bind_run.
  destruct (checkWritable env imagesDir w1) as [w2 [[]|e]];
    [|by eexists _, _; split; [reflexivity | left]].
  rewrite bind_run.
  destruct (processAttachmentImages html imagesDir (path_dirname targetFilePath) w2)
    as [w3 [html3|e]]; [|by eexists _, _; split; [reflexivity | left]].
  rewrite bind_run.
  destruct (processEmbeddedImages html3 imagesDir (path_dirname targetFilePath) w3)
    as [w4 [html4|e]]; [|by eexists _, _; split; [reflexivity | left]].
  destruct (processContentImages html4 imagesDir (path_dirname targetFilePath) pageId w4)
    as [w5 [html5|e]] eqn:Hlast; [|by eexists _, _; split; [reflexivity | left]].
  eexists _, _. split; [reflexivity|]. right. by exists html4, w4.
Qed.

Lemma processImagesWithAttachments_returns (html pageId targetFilePath : string)
    (attachments : list Attachment) (w : World S) :
  exists w' out, processImagesWithAttachments html pageId targetFilePath attachments w = (w', Ok out).
Proof.
  unfold Parser.processImagesWithAttachments. rewrite try_catch_run.
  match goal with |- context [match ?run with _ => _ end] => destruct run as [w1 [out|e]] end.
  - by eexists _, _.
  - destruct (processImages_returns html pageId targetFilePath w1) as (w' & out & Hrun & _).
    by exists w', out.
Qed.

(** X21: the processing of the images never fails the conversion of a page.
    [processImages] never throws: it returns the HTML of its last pass, or,
    when a step fails, the HTML it was given; [processImagesWithAttachments]
    never throws either, since it falls back on [processImages]; so
    [convertToMarkdown] throws only the error of Turndown, and what it
    returns is the postprocessed output of Turndown. *)
Theorem image_errors_are_contained (html pageId targetFilePath : string)
    (attachments : list Attachment) (w : World S) :
  (exists w' out,
     processImages html pageId targetFilePath w = (w', Ok out) /\
     (out = html \/
      exists processedHtml w0,
        processContentImages processedHtml
          (path_join env (path_dirname targetFilePath) "images")
          (path_dirname targetFilePath) pageId w0 = (w', Ok out))) /\
  (exists w' out,
     processImagesWithAttachments html pageId targetFilePath attachments w = (w', Ok out)) /\
  exists w' processedHtml,
    convertToMarkdown html pageId targetFilePath attachments w
    = (w', match turndown processedHtml with
           | Ok markdown => Ok (postprocessMarkdown markdown)
           | Throw message => Throw message
           end).
Proof.
  split; [apply processImages_returns|]. split; [apply processImagesWithAttachments_returns|].
  unfold Parser.convertToMarkdown. rewrite try_catch_run, bind_run.
  destruct (processImagesWithAttachments_returns (preprocessConfluenceHtml html) pageId
              targetFilePath attachments w) as (w1 & out & ->).
  exists w1, out. rewrite bind_run. by destruct (turndown out).
Qed.

(** X22: when the images directory cannot be created, the page is converted
    all the same, from the preprocessed HTML with its images as they are,
    and no local file is written. *)
Theorem conversion_without_images_directory (html pageId targetFilePath : string)
    (attachments : list Attachment) (w : World S) :
  (forall dir s, exists s' message, ensureDir dir s = (s', Throw message)) ->
  (forall dir s, exists s' message, mkdirp dir s = (s', Throw message)) ->
  exists w',
    convertToMarkdown html pageId targetFilePath attachments w
    = (w', match turndown (preprocessConfluenceHtml html) with
           | Ok markdown => Ok (postprocessMarkdown markdown)
           | Throw message => Throw message
           end) /\
    files w' = files w /\ writes w' = writes w /\ calls w' = calls w.
Proof.
  intros Hensure Hmkdirp.
  unfold Parser.convertToMarkdown. rewrite try_catch_run, bind_run.
  unfold Parser.processImagesWithAttachments. rewrite try_catch_run, bind_run.
  unfold lift at 1.
  destruct (Hensure (path_join env (path_dirname targetFilePath) "images") (server w))
    as (s1 & e1 & ->).
  unfold Parser.processImages. rewrite try_catch_run, bind_run.
  unfold ensureImagesDir. rewrite !try_catch_run. unfold lift. cbn [server set_server].
  destruct (Hensure (path_join env (path_dirname targetFilePath) "images") s1)
    as (s2 & e2 & ->).
  rewrite try_catch_run. cbv beta. cbn [server set_server].
  destruct (Hmkdirp (path_join env (path_dirname targetFilePath) "images") s2)
    as (s3 & e3 & ->).
  unfold throw at 1, mret at 1, M_ret at 1. rewrite bind_run.
  exists (set_server s3 (set_server s2 (set_server s1 w))). split; [|done].
  unfold fromResult. by destruct (turndown (preprocessConfluenceHtml html)).
Qed.

(** *** The map of the image attachments *)

(** An attachment that [forEach] stores: it has a title, and the title is
    the name of an image file. *)
Definition isImageAttachment (attachment : Attachment) : bool :=
  match att_title attachment with
  | Some title => Js.truthy title && isImageFile title
  | None => false
  end.

(** An attachment that [forEach] stores under [key]: by its title, or by
    its id when it has one. *)
Definition storedUnder (key : string) (attachment : Attachment) : bool :=
  isImageAttachment attachment &&
  (bool_decide (att_title attachment = Some key) ||
   (bool_decide (att_id attachment = Some key) && Js.truthy key)).

Lemma addAttachment_lookup (attachmentMap : gmap string Attachment) (attachment : Attachment)
    (key : string) :
  addAttachment attachmentMap attachment !! key
  = if storedUnder key attachment then Some attachment else attachmentMap !! key.
Proof.
  unfold Parser.addAttachment, storedUnder, isImageAttachment.
  destruct (att_title attachment) as [title|]; [|reflexivity].
  destruct (Js.truthy title && isImageFile title); [|reflexivity]. cbn [andb].
  destruct (att_id attachment) as [id|].
  - destruct (Js.truthy id) eqn:Hid.
    + destruct (decide (id = key)) as [->|Hne].
      * rewrite lookup_insert_eq, Hid.
        rewrite (bool_decide_eq_true_2 (Some key = Some key)) by done.
        by rewrite orb_true_r.
      * rewrite lookup_insert_ne by done.
        rewrite (bool_decide_eq_false_2 (Some id = Some key)) by congruence.
        rewrite orb_false_r. case_bool_decide as Ht.
        -- injection Ht as ->. by rewrite lookup_insert_eq.
        -- rewrite lookup_insert_ne; [done | congruence].
    + case_bool_decide as Ht.
      * injection Ht as ->. by rewrite lookup_insert_eq.
      * rewrite lookup_insert_ne by congruence. cbn [orb].
        case_bool_decide as Hk; [|done]. injection Hk as ->. by rewrite Hid.
  - rewrite (bool_decide_eq_false_2 (None = Some key)) by done. rewrite orb_false_r.
    case_bool_decide as Ht.
    + injection Ht as ->. by rewrite lookup_insert_eq.
    + rewrite lookup_insert_ne; [done | congruence].
Qed.

Lemma find_snoc {A} (P : A -> bool) (l : list A) (a : A) :
  List.find P (l ++ [a])
  = match List.find P l with
    | Some x => Some x
    | None => if P a then Some a else None
    end.
Proof. induction l as [|x l IH]; cbn; [done|]. by destruct (P x). Qed.

Lemma fold_addAttachment_lookup (attachments : list Attachment)
    (attachmentMap : gmap string Attachment) (key : string) :
  fold_left addAttachment attachments attachmentMap !! key
  = match List.find (storedUnder key) (rev attachments) with
    | Some attachment => Some attachment
    | None => attachmentMap !! key
    end.
Proof.
  revert attachmentMap. induction attachments as [|a rest IH]; intros attachmentMap; [done|].
  cbn [fold_left rev]. rewrite IH, find_snoc, addAttachment_lookup.
  destruct (List.find (storedUnder key) (rev rest)); [done|].
  by destruct (storedUnder key a).
Qed.

(** X23: the map of the attachments holds, under a key, the last attachment
    of the list that is an image (by the extension of its title) and has the
    key as its title or as its non-empty id; so an entry of the map is always
    an image attachment of the list with the key as its title or its id, the
    title of every image attachment of the list is a key of the map, and the
    map of no attachment is empty. *)
Theorem attachmentMap_entries (attachments : list Attachment) :
  (forall key,
     attachmentMapOf attachments !! key = List.find (storedUnder key) (rev attachments)) /\
  (forall key attachment,
     attachmentMapOf attachments !! key = Some attachment ->
     In attachment attachments /\ isImageAttachment attachment = true /\
     (att_title attachment = Some key \/ att_id attachment = Some key)) /\
  (forall attachment title,
     In attachment attachments -> att_title attachment = Some title ->
     isImageAttachment attachment = true ->
     is_Some (attachmentMapOf attachments !! title)) /\
  attachmentMapOf [] = ∅.
Proof.
  assert (Hlookup : forall key,
            attachmentMapOf attachments !! key
            = List.find (storedUnder key) (rev attachments)).
  { intros key. unfold Parser.attachmentMapOf. rewrite fold_addAttachment_lookup.
    rewrite lookup_empty. by destruct (List.find (storedUnder key) (rev attachments)). }
  split; [exact Hlookup|]. split; [|split; [|reflexivity]].
  - intros key attachment. rewrite Hlookup. intros Hfind.
    apply find_some in Hfind as [Hin Hstored]. apply in_rev in Hin. split; [exact Hin|].
    unfold storedUnder in Hstored. apply andb_prop in Hstored as [Himage Hkey].
    split; [exact Himage|]. apply orb_prop in Hkey as [Hk|Hk].
    + left. by apply bool_decide_eq_true_1 in Hk.
    + right. apply andb_prop in Hk as [Hk _]. by apply bool_decide_eq_true_1 in Hk.
  - intros attachment title Hin Htitle Himage. rewrite Hlookup.
    destruct (List.find (storedUnder title) (rev attachments)) eqn:Hfind; [by eexists|].
    exfalso. apply in_rev in Hin.
    pose proof (find_none _ _ Hfind attachment Hin) as Hno.
    unfold storedUnder in Hno. rewrite Himage in Hno.
    by rewrite (bool_decide_eq_true_2 _ Htitle) in Hno.
Qed.

End Facts.

(** A project in which no directory can be created. *)
Lemma conversion_without_images_directory_witness :
  let denied : string -> Ext MemWiki.Wiki unit :=
    fun _ wiki => (wiki, Throw "EACCES: permission denied") in
  let pass : string -> string -> string -> M MemWiki.Wiki string := fun html _ _ => mret html in
  exists w',
    Parser.convertToMarkdown (MemWiki.exampleEnv [] ∅) denied denied id id id
      (fun html _ _ => mret html) pass pass (fun html _ _ _ => mret html)
      id Ok id "<p>text</p>" "p0" "/site/docs/a.md" [] (MemWiki.emptyWorld [])
    = (w', Ok "<p>text</p>") /\
    files w' = ∅.
Proof.
  intros denied pass.
  destruct (conversion_without_images_directory (MemWiki.exampleEnv [] ∅) denied denied id id id
              (fun html _ _ => mret html) pass pass (fun html _ _ _ => mret html)
              id Ok id "<p>text</p>" "p0" "/site/docs/a.md" [] (MemWiki.emptyWorld []))
    as (w' & Hrun & Hfiles & _).
  - intros dir s. by exists s, "EACCES: permission denied".
  - intros dir s. by exists s, "EACCES: permission denied".
  - exists w'. by rewrite Hrun, Hfiles.
Defined.

End ParserFacts.

(** ** The rules of the images and of the macros *)

Module RuleFacts.
Import Dom Reverse ReverseFacts.

(** *** Splitting a string *)

Lemma split_acc_cur (c : ascii) (cur s : string) :
  Js.split_acc c cur s
  = match Js.split_acc c EmptyString s with
    | piece :: pieces => (cur +:+ piece) :: pieces
    | [] => [cur]
    end.
Proof.
  revert cur. induction s as [|a s IH]; intros cur; cbn [Js.split_acc].
  - by rewrite append_empty_r.
  - destruct (Ascii.eqb a c); [by rewrite append_empty_r|].
    rewrite (IH (cur +:+ String a EmptyString)), (IH (EmptyString +:+ String a EmptyString)).
    destruct (Js.split_acc c EmptyString s); [done|].
    by rewrite append_assoc.
Qed.

Lemma split_cons (c a : ascii) (s : string) :
  Js.split c (String a s)
  = if Ascii.eqb a c then EmptyString :: Js.split c s
    else match Js.split c s with
         | piece :: pieces => String a piece :: pieces
         | [] => [String a EmptyString]
         end.
Proof.
  unfold Js.split. cbn [Js.split_acc]. destruct (Ascii.eqb a c); [reflexivity|].
  by rewrite split_acc_cur.
Qed.

Lemma split_nonempty (c : ascii) (s : string) : Js.split c s <> [].
Proof.
  destruct s as [|a s]; [done|]. rewrite split_cons.
  destruct (Ascii.eqb a c); [done|]. by destruct (Js.split c s).
Qed.

Definition char (c : ascii) : string := String c EmptyString.

Lemma includes_char_cons (c a : ascii) (s : string) :
  Js.includes (char c) (String a s) = Ascii.eqb c a || Js.includes (char c) s.
Proof. cbn. by rewrite andb_true_r. Qed.

Lemma includes_char_app (c : ascii) (x y : string) :
  Js.includes (char c) (x +:+ y) = Js.includes (char c) x || Js.includes (char c) y.
Proof.
  induction x as [|a x IH]; [by destruct y|].
  change (String a x +:+ y) with (String a (x +:+ y)).
  by rewrite !includes_char_cons, IH, orb_assoc.
Qed.

Lemma includes_first_char (c : ascii) (p s : string) :
  Js.includes (String c p) s = true -> Js.includes (char c) s = true.
Proof.
  induction s as [|a s IH]; [done|]. rewrite includes_char_cons.
  cbn [Js.includes Js.startsWith]. intros [H|H]%orb_prop.
  - apply andb_prop in H as [-> _]. done.
  - rewrite (IH H). apply orb_true_r.
Qed.

Lemma concat_cons_cons (sep x y : string) (l : list string) :
  String.concat sep (x :: y :: l) = x +:+ sep +:+ String.concat sep (y :: l).
Proof. reflexivity. Qed.

(** Joining the pieces with the separator gives the string back. *)
Lemma join_split (c : ascii) (s : string) : Js.join (char c) (Js.split c s) = s.
Proof.
  unfold Js.join. induction s as [|a s IH]; [reflexivity|]. rewrite split_cons.
  pose proof (split_nonempty c s) as Hne.
  destruct (Js.split c s) as [|piece pieces]; [done|].
  destruct (Ascii.eqb a c) eqn:Ea.
  - apply Ascii.eqb_eq in Ea. subst a. rewrite concat_cons_cons, IH. reflexivity.
  - destruct pieces as [|piece' pieces'].
    + cbn in *. by rewrite IH.
    + rewrite concat_cons_cons in *. change (String a piece +:+ ?x) with (String a (piece +:+ x)).
      by rewrite IH.
Qed.

(** No piece holds the separator. *)
Lemma split_pieces (c : ascii) (s : string) :
  Forall (fun piece => Js.includes (char c) piece = false) (Js.split c s).
Proof.
  induction s as [|a s IH]; [by repeat constructor|]. rewrite split_cons.
  destruct (Ascii.eqb a c) eqn:Ea; [by constructor|].
  pose proof (split_nonempty c s) as Hne.
  destruct (Js.split c s) as [|piece pieces]; [done|].
  inversion IH as [|? ? Hpiece Hpieces]; subst. constructor; [|exact Hpieces].
  by rewrite includes_char_cons, Ascii.eqb_sym, Ea, Hpiece.
Qed.

Lemma concat_snoc (sep x : string) (l : list string) :
  l <> [] -> String.concat sep (l ++ [x]) = String.concat sep l +:+ sep +:+ x.
Proof.
  induction l as [|y l IH]; [done|]. intros _. destruct l as [|z l].
  - reflexivity.
  - change ((y :: z :: l) ++ [x]) with (y :: z :: (l ++ [x])).
    rewrite !concat_cons_cons. change (z :: l ++ [x]) with ((z :: l) ++ [x]).
    rewrite IH by done. by rewrite !append_assoc.
Qed.

(** The text after the last separator: it holds no separator, and the
    string is that text, or a text, a separator and that text. *)
Lemma split_last (c : ascii) (s : string) :
  let piece := List.last (Js.split c s) EmptyString in
  Js.includes (char c) piece = false /\
  (s = piece \/ exists before, s = before +:+ char c +:+ piece).
Proof.
  intros piece. pose proof (split_nonempty c s) as Hne.
  pose proof (app_removelast_last EmptyString Hne) as Hsplit. fold piece in Hsplit.
  set (init := removelast (Js.split c s)) in Hsplit.
  pose proof (join_split c s) as Hjoin. pose proof (split_pieces c s) as Hall.
  unfold Js.join in Hjoin. rewrite Hsplit in Hjoin, Hall.
  apply Forall_app in Hall as [_ Hlast]. split; [by inversion Hlast|].
  destruct init as [|x l]; [by left|].
  right. exists (String.concat (char c) (x :: l)). by rewrite concat_snoc in Hjoin.
Qed.

Lemma startsWith_app (p x : string) : Js.startsWith p (p +:+ x) = true.
Proof.
  induction p as [|a p IH]; [by destruct x|].
  change (String a p +:+ x) with (String a (p +:+ x)). cbn. by rewrite Ascii.eqb_refl.
Qed.

(** The text before the first separator: it holds no separator, and the
    string is that text, or that text, a separator and a text. *)
Lemma split_head (c : ascii) (s : string) :
  let piece := List.hd EmptyString (Js.split c s) in
  Js.includes (char c) piece = false /\
  exists after, s = piece +:+ after /\
                (after = EmptyString \/ Js.startsWith (char c) after = true).
Proof.
  intros piece. pose proof (split_nonempty c s) as Hne.
  pose proof (split_pieces c s) as Hall. pose proof (join_split c s) as Hjoin.
  subst piece. destruct (Js.split c s) as [|piece pieces]; [done|]. cbn [List.hd].
  apply Forall_cons in Hall as [Hpiece _]. split; [exact Hpiece|].
  unfold Js.join in Hjoin. destruct pieces as [|piece' pieces'].
  - exists EmptyString. cbn in Hjoin. rewrite append_empty_r. by split; [|left].
  - rewrite concat_cons_cons in Hjoin.
    exists (char c +:+ String.concat (char c) (piece' :: pieces')).
    split; [done|]. right. apply startsWith_app.
Qed.

(** *** The rule of the images *)

Lemma or_else_empty (s : string) : Js.or_else (Some s) "" = s.
Proof.
  unfold Js.or_else, Js.truthy. destruct (String.eqb s "") eqn:E; [|reflexivity].
  apply String.eqb_eq in E. by subst s.
Qed.

Section Rules.

Variables turndown turndown_innerHTML : Node -> string.

(** The Markdown of an image. *)
Definition imageMarkdown (alt target : string) : string :=
  "![" +:+ alt +:+ "](" +:+ target +:+ ")".

Lemma attachment_file_name (src : string) :
  Js.includes "/download/attachments/" src = true ->
  let target := List.hd "" (Js.split "?" (List.last (Js.split "/" src) "")) in
  Js.includes "/" target = false /\ Js.includes "?" target = false /\
  exists directory query,
    src = directory +:+ "/" +:+ target +:+ query /\
    Js.includes "/" query = false /\
    (query = "" \/ Js.startsWith "?" query = true).
Proof.
  intros Hsrc target.
  destruct (split_last "/" src) as [Hlast Hsplit].
  destruct (split_head "?" (List.last (Js.split "/" src) "")) as [Hhead (query & Hq & Hquery)].
  fold target in Hhead, Hq.
  rewrite Hq in Hlast. change (char "/") with "/" in *. change (char "?") with "?" in *.
  rewrite (includes_char_app "/") in Hlast. apply orb_false_elim in Hlast as [Ht Hqs].
  split; [exact Ht|]. split; [exact Hhead|].
  destruct Hsplit as [Hs|[directory Hs]].
  - exfalso. apply (includes_first_char "/" "download/attachments/") in Hsrc.
    rewrite Hs, Hq in Hsrc. change (char "/") with "/" in Hsrc.
    rewrite (includes_char_app "/"), Ht, Hqs in Hsrc. discriminate.
  - exists directory, query. rewrite Hq in Hs. by split.
Qed.

(** X24: an image that is not the picture of a diagram is converted by the
    rule of the images into [![alt](target)], with an empty text for a
    missing [alt] or [src].  The target is the [src] as it is, unless the
    [src] starts with [http] or [data:] and holds [/download/attachments/]:
    the target is then the file name alone, the text of the [src] after its
    last slash and up to the first question mark after it. *)
Theorem image_rule_target (content : string) (node : Node) :
  nodeName node = "IMG" ->
  mermaidDiagrams_filter node = false ->
  let alt := Js.or_else (getAttribute "alt" node) "" in
  let src := Js.or_else (getAttribute "src" node) "" in
  exists target,
    customReplacement turndown turndown_innerHTML content node
      = Some (imageMarkdown alt target) /\
    if (Js.startsWith "http" src || Js.startsWith "data:" src)
       && Js.includes "/download/attachments/" src
    then Js.includes "/" target = false /\ Js.includes "?" target = false /\
         exists directory query,
           src = directory +:+ "/" +:+ target +:+ query /\
           Js.includes "/" query = false /\
           (query = "" \/ Js.startsWith "?" query = true)
    else target = src.
Proof.
  intros Hname Hdiagram alt src.
  assert (Hrule : forNode node = Some confluenceImages).
  { unfold forNode. rewrite (image_not_blank node Hname).
    cbn [rules_array addRule_calls rev app List.find rule_filter].
    unfold confluenceLinks_filter, confluenceImages_filter. by rewrite Hdiagram, Hname. }
  unfold customReplacement. rewrite Hrule. cbn [fmap option_fmap option_map rule_replacement].
  unfold confluenceImages_replacement. fold alt src. fold (imageMarkdown alt).
  destruct (Js.startsWith "http" src) eqn:Hhttp; cbn [negb andb orb].
  - destruct (Js.includes "/download/attachments/" src) eqn:Hatt.
    + eexists. split; [reflexivity|]. by apply attachment_file_name.
    + by eexists.
  - destruct (Js.startsWith "data:" src) eqn:Hdata; cbn [negb andb orb].
    + destruct (Js.includes "/download/attachments/" src) eqn:Hatt.
      * eexists. split; [reflexivity|]. by apply attachment_file_name.
      * by eexists.
    + by eexists.
Qed.

(** *** Macros and their rules *)

(** The HTML parser behind Turndown. *)
Variable readFragment : string -> string -> list Node.
Variable readAttribute : string -> string.

(** X25: a [code] macro becomes a fenced code block, when the HTML parser
    reads its language and its code as plain text (no markup, no entity) and
    the code is not white space only: the [div] that the preprocessing makes
    of it is not blank for Turndown, and the rule of the code blocks
    converts it into a fence with the language of the macro, the code and
    the closing fence. *)
Theorem code_macro_becomes_fenced_block (content : string) (m : Macro) :
  macroName m = "code" ->
  readAttribute (language m) = language m ->
  readFragment "PRE" (code m) = [Text (code m)] ->
  Js.is_blank (code m) = false ->
  exists node,
    preprocessMacro readFragment readAttribute m = Some node /\
    forNode node = Some confluenceCodeBlock /\
    customReplacement turndown turndown_innerHTML content node
      = Some (Js.nl +:+ "```" +:+ language m +:+ Js.nl +:+ code m +:+ Js.nl +:+ "```"
              +:+ Js.nl +:+ Js.nl).
Proof.
  intros Hname Hlanguage Hcode Hblank.
  exists (codeMacroHtml readFragment readAttribute m).
  assert (Hrule : forNode (codeMacroHtml readFragment readAttribute m)
                  = Some confluenceCodeBlock).
  { unfold forNode, isBlank, codeMacroHtml. rewrite Hcode, Hlanguage.
    cbn [textContent]. rewrite !append_empty_r, Hblank. reflexivity. }
  split; [unfold preprocessMacro; by rewrite Hname|]. split; [exact Hrule|].
  unfold customReplacement. rewrite Hrule. cbn [fmap option_fmap option_map rule_replacement].
  unfold confluenceCodeBlock_replacement, codeMacroHtml. rewrite Hcode, Hlanguage.
  change (getAttribute "data-language" _) with (Some (language m)).
  rewrite or_else_empty.
  change (from_option textContent "" (querySelector "PRE" _)) with (code m +:+ "").
  by rewrite append_empty_r.
Qed.

(** X26: a [note] or [warning] macro with a title becomes an admonition of
    its type with the title on the opening line, whatever its body is, when
    the HTML parser reads the title as plain text (no markup, no entity, no
    white space to collapse) and the [div] that the preprocessing makes of
    the macro is not blank for Turndown; the text between the opening and
    the closing line is Turndown's conversion of the body element. *)
Theorem titled_macro_becomes_admonition (content : string) (m : Macro) :
  macroName m = "note" \/ macroName m = "warning" ->
  Js.truthy (title m) = true ->
  readFragment "DIV" (title m) = [Text (title m)] ->
  isBlank (admonitionMacroHtml readFragment m) = false ->
  exists node,
    preprocessMacro readFragment readAttribute m = Some node /\
    forNode node = Some confluenceAdmonitions /\
    customReplacement turndown turndown_innerHTML content node
      = Some (Js.nl +:+ ":::" +:+ macroName m +:+ " " +:+ title m +:+ Js.nl +:+
              turndown (Element "DIV" [("class", "confluence-information-macro-body")] (body m))
              +:+ Js.nl +:+ ":::" +:+ Js.nl +:+ Js.nl).
Proof.
  intros Hname Htitle Hread Hblank. exists (admonitionMacroHtml readFragment m).
  assert (Hrule : forNode (admonitionMacroHtml readFragment m) = Some confluenceAdmonitions).
  { unfold forNode. rewrite Hblank. unfold admonitionMacroHtml.
    by destruct Hname as [-> | ->]. }
  split; [unfold preprocessMacro; by destruct Hname as [-> | ->]|]. split; [exact Hrule|].
  unfold customReplacement. rewrite Hrule. cbn [fmap option_fmap option_map rule_replacement].
  unfold confluenceAdmonitions_replacement, admonitionMacroHtml. rewrite Htitle, Hread.
  assert (Htext : from_option textContent ""
            (querySelector_class "confluence-information-macro-title"
               (Element "DIV" [("class", "confluence-" +:+ macroName m +:+ "-macro")]
                  ([Text (Js.nl +:+ "          ")] ++
                   [Element "DIV" [("class", "confluence-information-macro-title")]
                      [Text (title m)]] ++
                   [Text (Js.nl +:+ "          ");
                    Element "DIV" [("class", "confluence-information-macro-body")] (body m);
                    Text (Js.nl +:+ "        ")]))) = title m).
  { change (from_option textContent "" _) with (title m +:+ ""). apply append_empty_r. }
  rewrite Htext, Htitle.
  by destruct Hname as [-> | ->].
Qed.

(** A [code] macro whose code is white space only is blank for Turndown:
    no rule of the parser sees it. *)
Lemma blank_code_macro_is_dropped :
  forNode (codeMacroHtml plainFragment plainAttribute
             {| macroName := "code"; language := "js"; code := "  ";
                title := ""; body := [] |}) = None.
Proof. reflexivity. Qed.

End Rules.

(** *** Examples *)

Lemma image_rule_target_witness :
  let node :=
    Element "IMG"
      [("alt", "Logo");
       ("src", "https://example.atlassian.net/download/attachments/123/logo.png?version=1")]
      [] in
  exists target,
    customReplacement (fun _ => "") (fun _ => "") "" node = Some (imageMarkdown "Logo" target) /\
    Js.includes "/" target = false.
Proof.
  intros node.
  destruct (image_rule_target (fun _ => "") (fun _ => "") "" node eq_refl eq_refl)
    as (target & Hrun & Hshape).
  exists target. split; [exact Hrun|]. exact (proj1 Hshape).
Defined.

Lemma code_macro_becomes_fenced_block_witness :
  let m := {| macroName := "code"; language := "js"; code := "let x = 1;";
              title := ""; body := [] |} in
  exists node,
    preprocessMacro plainFragment plainAttribute m = Some node /\
    forNode node = Some confluenceCodeBlock /\
    customReplacement (fun _ => "") (fun _ => "") "" node
      = Some (Js.nl +:+ "```" +:+ "js" +:+ Js.nl +:+ "let x = 1;" +:+ Js.nl +:+ "```"
              +:+ Js.nl +:+ Js.nl).
Proof.
  intros m.
  exact (code_macro_becomes_fenced_block (fun _ => "") (fun _ => "") plainFragment plainAttribute
           "" m eq_refl eq_refl eq_refl eq_refl).
Defined.

Lemma titled_macro_becomes_admonition_witness :
  let m := {| macroName := "warning"; language := ""; code := "";
              title := "Careful"; body := [Text "Back up first."] |} in
  exists node,
    preprocessMacro plainFragment plainAttribute m = Some node /\
    customReplacement (fun _ => "Back up first.") (fun _ => "") "" node
      = Some (Js.nl +:+ ":::warning Careful" +:+ Js.nl +:+ "Back up first." +:+ Js.nl +:+ ":::"
              +:+ Js.nl +:+ Js.nl).
Proof.
  intros m.
  destruct (titled_macro_becomes_admonition (fun _ => "Back up first.") (fun _ => "")
              plainFragment plainAttribute "" m (or_intror eq_refl) eq_refl eq_refl eq_refl)
    as (node & Hnode & _ & Hrun).
  exists node. split; [exact Hnode | exact Hrun].
Defined.

End RuleFacts.

(** ** Pushing twice to the in-memory wiki *)

Module WikiFacts.
Import Sync MemWiki SyncFacts MemWikiFacts ClientFacts.

(** No page of the wiki has the id [i]. *)
Definition noId (i : string) (wiki : Wiki) : bool :=
  forallb (fun e => negb (hasId i e)) wiki.

(** The wiki after the page [i] was updated. *)
Definition updated_wiki (i t body : string) (v : Z) (wiki : Wiki) : Wiki :=
  map (fun e => if hasId i e
                then {| entry_page := {| page_id := i; page_title := t;
                                         page_version := Some v; page_body := Some body |};
                        entry_parent := entry_parent e |}
                else e) wiki.

Lemma updated_wiki_noId (i t body : string) (v : Z) (wiki : Wiki) :
  noId i wiki = true -> updated_wiki i t body v wiki = wiki.
Proof.
  unfold noId, updated_wiki. induction wiki as [|e rest IH]; [done|]. cbn.
  intros [He Hrest]%andb_prop. apply negb_true_iff in He. rewrite He. by rewrite IH.
Qed.

Lemma updated_wiki_app (i t body : string) (v : Z) (old new : Wiki) :
  updated_wiki i t body v (old ++ new)
  = updated_wiki i t body v old ++ updated_wiki i t body v new.
Proof. apply map_app. Qed.

Lemma find_hasId_entry (t : string) (wiki : Wiki) (e : Entry) :
  List.find (hasTitle t) wiki = Some e ->
  exists e', List.find (hasId (page_id (entry_page e))) wiki = Some e'.
Proof.
  intros Hfound. apply find_some in Hfound as [Hin _].
  destruct (List.find (hasId (page_id (entry_page e))) wiki) as [e'|] eqn:Hfind; [by eexists|].
  pose proof (find_none _ _ Hfind e Hin) as Hno. unfold hasId in Hno.
  by rewrite String.eqb_refl in Hno.
Qed.

Section Client.

Variables (wiki : Wiki) (log : list Call) (w : World Wiki).

(** [createOrUpdatePage] for a title that a page of the wiki has. *)
Lemma createOrUpdatePage_existing (t body : string) (parent : option string) (e : Entry) :
  List.find (hasTitle t) wiki = Some e ->
  let i := page_id (entry_page e) in
  let v := Js.or1 (page_version (entry_page e)) + 1 in
  createOrUpdatePage api t body parent (at_remote wiki log w)
  = (at_remote (updated_wiki i t body v wiki)
               (log ++ [GET_content_search t; PUT_content i t body v]) w,
     Ok {| page_id := i; page_title := t; page_version := Some v; page_body := Some body |}).
Proof.
  intros Hfound i v. destruct (find_hasId_entry t wiki e Hfound) as [e' Hid]. fold i in Hid.
  unfold createOrUpdatePage, try_catch, mbind, M_bind.
  rewrite findPageByTitle_mem, Hfound. cbn [fmap option_fmap option_map].
  unfold updatePage, request. cbn [server at_remote set_server set_calls api api_put put].
  fold i v. unfold put. rewrite Hid.
  unfold at_remote. cbn. by rewrite <- app_assoc.
Qed.

End Client.

(** X27: on the in-memory wiki, when no page has the title and no page has
    the next id, pushing a page a second time updates the page that the first
    push created: after the search, the creation, the search and the update,
    the wiki holds the page once more than before, at version 2, with the
    content of the second push and under the parent of the first push; the
    parent given to the second push is not used. *)
Theorem second_push_updates (wiki : Wiki) (log : list Call) (w : World Wiki)
    (t body body' : string) (parent parent' : option string) :
  noTitle t wiki = true ->
  noId (nextId wiki) wiki = true ->
  let first := createOrUpdatePage api t body parent (at_remote wiki log w) in
  let second := createOrUpdatePage api t body' parent' first.1 in
  let ancestors := if Js.truthy_opt parent then parent else None in
  let page := {| page_id := nextId wiki; page_title := t;
                 page_version := Some 2; page_body := Some body' |} in
  server second.1 = wiki ++ [{| entry_page := page; entry_parent := ancestors |}] /\
  calls second.1 = log ++ [GET_content_search t; POST_content t body ancestors;
                           GET_content_search t; PUT_content (nextId wiki) t body' 2] /\
  second.2 = Ok page.
Proof.
  intros Htitle Hid first second ancestors page. subst first second.
  rewrite createOrUpdatePage_new by by apply noTitle_find. cbn [fst].
  rewrite (createOrUpdatePage_existing _ _ _ _ _ _ (newEntry wiki t body parent)).
  - cbn [fst snd newEntry entry_page page_id page_version Js.or1 Z.eqb Z.add Pos.add].
    unfold at_remote. cbn [server calls set_server set_calls].
    split; [|split; [by rewrite <- app_assoc | done]].
    rewrite updated_wiki_app, updated_wiki_noId by done.
    unfold updated_wiki, newEntry, hasId. cbn. by rewrite String.eqb_refl.
  - rewrite find_hasTitle_app by done. cbn. unfold hasTitle. cbn. by rewrite String.eqb_refl.
Qed.

Lemma second_push_updates_witness :
  let run :=
    (_ ← createOrUpdatePage api "Intro" "first" (Some "p7");
     createOrUpdatePage api "Intro" "second" None) (emptyWorld []) in
  map (fun e => (page_version (entry_page e), page_body (entry_page e), entry_parent e))
      (server run.1)
  = [(Some 2, Some "second", Some "p7")].
Proof.
  destruct (second_push_updates [] [] (emptyWorld []) "Intro" "first" "second" (Some "p7") None)
    as (Hserver & _ & _); [reflexivity | reflexivity |].
  intros run. subst run. rewrite bind_run.
  change (emptyWorld []) with (at_remote [] [] (emptyWorld [])).
  destruct (createOrUpdatePage api "Intro" "first" (Some "p7") (at_remote [] [] (emptyWorld [])))
    as [w1 [page|e]] eqn:Hfirst; [|discriminate Hfirst].
  cbn [fst] in Hserver. by rewrite Hserver.
Defined.

(** A segment whose title a page has elsewhere in the wiki. *)
Lemma walkSegments_taken (wiki : Wiki) (log : list Call) (w : World Wiki)
    (segment : string) (rest : list string) (parent : option string) (path : string)
    (e : Entry) :
  let t := formatCategoryTitle segment in
  let path' := if Js.truthy path then path +:+ "/" +:+ segment else segment in
  let i := page_id (entry_page e) in
  let v := Js.or1 (page_version (entry_page e)) + 1 in
  List.find (matches t parent) wiki = None ->
  List.find (hasTitle t) wiki = Some e ->
  walkSegments api (segment :: rest) parent path (at_remote wiki log w)
  = walkSegments api rest (Some i) path'
      (at_remote (updated_wiki i t (containerContent t path') v wiki)
                 (log ++ lookupCalls t parent ++
                  [GET_content_search t; PUT_content i t (containerContent t path') v]) w).
Proof.
  intros t path' i v Hlookup Hfound. cbn [walkSegments]. rewrite bind_run.
  fold t. rewrite findPageByTitleAndParent_mem, Hlookup. cbn [fmap option_fmap option_map].
  rewrite bind_run. fold path'.
  rewrite (createOrUpdatePage_existing _ _ _ _ _ _ e) by done.
  fold i v. unfold mret, M_ret. cbn [page_id]. by rewrite <- app_assoc.
Qed.

(** X28: on the in-memory wiki, when the page of a segment is not under the
    current parent while a page of the wiki has the title of the segment,
    the walk creates no container: it updates that page, replacing its
    content by the placeholder of the category and raising its version, and
    goes on with that page as the parent, wherever the page is. *)
Theorem container_title_taken (wiki : Wiki) (log : list Call) (w : World Wiki)
    (segment : string) (rest : list string) (parent : option string) (path : string)
    (e : Entry) :
  let t := formatCategoryTitle segment in
  let path' := if Js.truthy path then path +:+ "/" +:+ segment else segment in
  let i := page_id (entry_page e) in
  let v := Js.or1 (page_version (entry_page e)) + 1 in
  List.find (matches t parent) wiki = None ->
  List.find (hasTitle t) wiki = Some e ->
  walkSegments api (segment :: rest) parent path (at_remote wiki log w)
  = walkSegments api rest (Some i) path'
      (at_remote (updated_wiki i t (containerContent t path') v wiki)
                 (log ++ lookupCalls t parent ++
                  [GET_content_search t; PUT_content i t (containerContent t path') v]) w).
Proof. apply walkSegments_taken. Qed.

Lemma container_title_taken_witness :
  let notes := {| entry_page := {| page_id := "p0"; page_title := "Guide";
                                   page_version := Some 3; page_body := Some "my notes" |};
                  entry_parent := None |} in
  let run := findOrCreateParentPage api "guide" (Some "r1") (emptyWorld [notes]) in
  run.2 = Ok (Some "p0") /\
  map (fun e => (page_version (entry_page e), page_body (entry_page e))) (server run.1)
  = [(Some 4, Some (containerContent "Guide" "guide"))].
Proof.
  intros notes run.
  pose proof (container_title_taken [notes] [] (emptyWorld [notes]) "guide" [] (Some "r1") ""
                notes eq_refl eq_refl) as Hstep.
  change run with (walkSegments api ["guide"] (Some "r1") ""
                     (at_remote [notes] [] (emptyWorld [notes]))).
  rewrite Hstep. by vm_compute.
Defined.

End WikiFacts.

(** ** Walking a hierarchy twice *)

Module RerunFacts.
Import Sync MemWiki SyncFacts MemWikiFacts ClientFacts WikiFacts.

(** What the lookups read of a page: its id, its title and its parent. *)
Definition Core : Type := string * string * option string.

Definition coreOf (e : Entry) : Core :=
  (page_id (entry_page e), page_title (entry_page e), entry_parent e).

Definition cores (wiki : Wiki) : list Core := map coreOf wiki.

(** The id of the page created [k]-th. *)
Definition idOf (k : nat) : string :=
  String "p" (NilZero.string_of_uint (Nat.to_uint k)).

(** A wiki whose pages were all created through [post]: the page at
    position [k] has the id [idOf k]. *)
Definition wellFormed (wiki : Wiki) : Prop :=
  forall k e, wiki !! k = Some e -> page_id (entry_page e) = idOf k.

Lemma to_uint_nonnil (n : nat) : Nat.to_uint n <> Decimal.Nil.
Proof.
  pose proof (Unsigned.to_of (Nat.to_uint n)) as H. rewrite Unsigned.of_to in H.
  rewrite H. apply unorm_nonnil.
Qed.

Lemma idOf_inj (j k : nat) : idOf j = idOf k -> j = k.
Proof.
  unfold idOf. intros [= H]. apply (f_equal NilZero.uint_of_string) in H.
  rewrite !NilZero.usu in H by apply to_uint_nonnil. injection H as H.
  by apply Unsigned.to_uint_inj.
Qed.

Lemma cores_lookup (wiki : Wiki) (k : nat) : cores wiki !! k = coreOf <$> wiki !! k.
Proof. apply (list_lookup_fmap coreOf). Qed.

Lemma wellFormed_cores (wiki wiki' : Wiki) :
  cores wiki = cores wiki' -> wellFormed wiki -> wellFormed wiki'.
Proof.
  intros Hc Hwf k e' He'.
  assert (Hk : cores wiki' !! k = Some (coreOf e')) by by rewrite cores_lookup, He'.
  rewrite <- Hc, cores_lookup in Hk.
  destruct (wiki !! k) as [e|] eqn:He; [|done]. injection Hk as Hk.
  rewrite <- Hk. by apply Hwf.
Qed.

Lemma wellFormed_new (wiki : Wiki) (t body : string) (parent : option string) :
  wellFormed wiki -> wellFormed (wiki ++ [newEntry wiki t body parent]).
Proof.
  intros Hwf k e He. apply lookup_app_Some in He as [He|[Hlen He]]; [by apply Hwf|].
  apply list_lookup_singleton_Some in He as [Hk <-].
  assert (k = length wiki) as -> by lia. reflexivity.
Qed.

Lemma wellFormed_unique (wiki : Wiki) (e e' : Entry) :
  wellFormed wiki -> In e wiki -> In e' wiki ->
  page_id (entry_page e) = page_id (entry_page e') -> e = e'.
Proof.
  intros Hwf [j Hj]%list_elem_of_In%list_elem_of_lookup_1
         [k Hk]%list_elem_of_In%list_elem_of_lookup_1 Hid.
  rewrite (Hwf j e Hj), (Hwf k e' Hk) in Hid. apply idOf_inj in Hid. subst k. congruence.
Qed.

(** An update of a page found by its title changes nothing of what the
    lookups read. *)
Lemma cores_updated (wiki : Wiki) (t body : string) (v : Z) (e : Entry) :
  wellFormed wiki -> In e wiki -> hasTitle t e = true ->
  cores (updated_wiki (page_id (entry_page e)) t body v wiki) = cores wiki.
Proof.
  intros Hwf Hin Ht. unfold cores, updated_wiki. rewrite map_map. apply map_ext_in.
  intros e' Hin'. unfold hasId. destruct (String.eqb _ _) eqn:Hid; [|reflexivity].
  apply String.eqb_eq in Hid. assert (e' = e) as -> by by apply (wellFormed_unique wiki).
  unfold coreOf. cbn. unfold hasTitle in Ht. apply String.eqb_eq in Ht. by rewrite Ht.
Qed.

(** The lookups on the cores. *)
Definition hasTitleC (t : string) (c : Core) : bool := String.eqb c.1.2 t.

Definition matchesC (t : string) (parent : option string) (c : Core) : bool :=
  hasTitleC t c &&
  (if Js.truthy_opt parent
   then match c.2 with
        | Some p => String.eqb p (Js.or_else parent "")
        | None => false
        end
   else true).

Lemma find_cores (f : Entry -> bool) (fC : Core -> bool) (wiki : Wiki) :
  (forall e, f e = fC (coreOf e)) ->
  coreOf <$> List.find f wiki = List.find fC (cores wiki).
Proof.
  intros Hf. induction wiki as [|e rest IH]; [done|]. cbn. rewrite <- Hf.
  by destruct (f e).
Qed.

Lemma find_matches_cores (t : string) (parent : option string) (wiki : Wiki) :
  coreOf <$> List.find (matches t parent) wiki = List.find (matchesC t parent) (cores wiki).
Proof. by apply find_cores. Qed.

Lemma find_hasTitle_cores (t : string) (wiki : Wiki) :
  coreOf <$> List.find (hasTitle t) wiki = List.find (hasTitleC t) (cores wiki).
Proof. by apply find_cores. Qed.

Lemma find_by_core (t : string) (parent : option string) (wiki : Wiki) (c : Core) :
  List.find (matchesC t parent) (cores wiki) = Some c ->
  exists e, List.find (matches t parent) wiki = Some e /\ coreOf e = c.
Proof.
  rewrite <- find_matches_cores. destruct (List.find _ wiki) as [e|]; [|done].
  intros [= <-]. by exists e.
Qed.

Lemma find_title_by_core (t : string) (wiki : Wiki) (c : Core) :
  List.find (hasTitleC t) (cores wiki) = Some c ->
  exists e, List.find (hasTitle t) wiki = Some e /\ coreOf e = c.
Proof.
  rewrite <- find_hasTitle_cores. destruct (List.find _ wiki) as [e|]; [|done].
  intros [= <-]. by exists e.
Qed.

Lemma find_none_by_core (t : string) (parent : option string) (wiki : Wiki) :
  List.find (matchesC t parent) (cores wiki) = None ->
  List.find (matches t parent) wiki = None.
Proof. rewrite <- find_matches_cores. by destruct (List.find _ wiki). Qed.

Lemma find_core_of (t : string) (parent : option string) (wiki : Wiki) (e : Entry) :
  List.find (matches t parent) wiki = Some e ->
  List.find (matchesC t parent) (cores wiki) = Some (coreOf e).
Proof. intros H. by rewrite <- find_matches_cores, H. Qed.

Lemma find_core_none (t : string) (parent : option string) (wiki : Wiki) :
  List.find (matches t parent) wiki = None ->
  List.find (matchesC t parent) (cores wiki) = None.
Proof. intros H. by rewrite <- find_matches_cores, H. Qed.

Lemma find_title_core_of (t : string) (wiki : Wiki) (e : Entry) :
  List.find (hasTitle t) wiki = Some e ->
  List.find (hasTitleC t) (cores wiki) = Some (coreOf e).
Proof. intros H. by rewrite <- find_hasTitle_cores, H. Qed.

Lemma find_title_core_none (t : string) (wiki : Wiki) :
  List.find (hasTitle t) wiki = None ->
  List.find (hasTitleC t) (cores wiki) = None.
Proof. intros H. by rewrite <- find_hasTitle_cores, H. Qed.

Lemma find_app_Some {A} (f : A -> bool) (l l' : list A) (x : A) :
  List.find f l = Some x -> List.find f (l ++ l') = Some x.
Proof. induction l as [|y l IH]; [done|]. cbn. by destruct (f y). Qed.

Lemma find_app_None {A} (f : A -> bool) (l l' : list A) :
  List.find f l = None -> List.find f (l ++ l') = List.find f l'.
Proof. induction l as [|y l IH]; [done|]. cbn. by destruct (f y). Qed.

Lemma find_app_None_l {A} (f : A -> bool) (l l' : list A) :
  List.find f (l ++ l') = None -> List.find f l = None.
Proof. induction l as [|y l IH]; [done|]. cbn. by destruct (f y). Qed.

(** The pages that a walk adds have titles that no page had before. *)
Definition fresh (old added : list Core) : Prop :=
  Forall (fun c => List.find (hasTitleC c.1.2) old = None) added.

Lemma fresh_find (t : string) (f : Core -> bool) (old added : list Core) (c : Core) :
  fresh old added -> List.find (hasTitleC t) old = Some c ->
  List.find (fun c => hasTitleC t c && f c) added = None.
Proof.
  intros Hfresh Hold. induction Hfresh as [|a added Ha _ IH]; [done|]. cbn.
  destruct (hasTitleC t a) eqn:Hta; [|exact IH].
  unfold hasTitleC in Hta. apply String.eqb_eq in Hta. rewrite Hta in Ha. congruence.
Qed.

Lemma isPOST_lookupCalls (t : string) (parent : option string) :
  List.filter isPOST (lookupCalls t parent) = [].
Proof. unfold lookupCalls. by destruct (Js.truthy_opt parent). Qed.

(** A walk on a well-formed wiki, and the same walk once more: the first
    walk returns and adds pages of fresh titles only, one for each creation
    it sends; a second walk, on a wiki of which the lookups read what they
    read of the wiki the first walk left, returns the same parent, sends no
    creation and leaves what the lookups read as it is. *)
Lemma walk_twice (segments : list string) (parent : option string) (path : string)
    (wiki : Wiki) (log : list Call) (w : World Wiki) :
  wellFormed wiki ->
  exists wiki' sent parentId added,
    walkSegments api segments parent path (at_remote wiki log w)
      = (at_remote wiki' (log ++ sent) w, Ok parentId) /\
    wellFormed wiki' /\
    cores wiki' = cores wiki ++ added /\
    fresh (cores wiki) added /\
    length (List.filter isPOST sent) = length added /\
    forall wiki2 log2 w2,
      cores wiki2 = cores wiki' ->
      exists wiki3 sent2,
        walkSegments api segments parent path (at_remote wiki2 log2 w2)
          = (at_remote wiki3 (log2 ++ sent2) w2, Ok parentId) /\
        cores wiki3 = cores wiki2 /\
        List.filter isPOST sent2 = [].
Proof.
  revert parent path wiki log w.
  induction segments as [|segment rest IH]; intros parent path wiki log w Hwf.
  - exists wiki, [], parent, []. cbn [walkSegments]. rewrite !app_nil_r.
    repeat split; try done; [constructor|].
    intros wiki2 log2 w2 Hc. exists wiki2, []. by rewrite app_nil_r.
  - set (t := formatCategoryTitle segment).
    set (path' := if Js.truthy path then path +:+ "/" +:+ segment else segment).
    destruct (List.find (matches t parent) wiki) as [e|] eqn:Hlookup.
    + (* the page is under the parent *)
      destruct (IH (Some (page_id (entry_page e))) path' wiki (log ++ lookupCalls t parent) w Hwf)
        as (wiki' & sent & parentId & added & Hrun & Hwf' & Hc & Hfresh & Hposts & Hagain).
      exists wiki', (lookupCalls t parent ++ sent), parentId, added.
      rewrite (walkSegments_found _ _ _ segment rest parent path e) by exact Hlookup.
      fold t path'. rewrite Hrun, <- app_assoc.
      split; [done|]. split; [done|]. split; [done|]. split; [done|].
      split; [by rewrite List.filter_app, isPOST_lookupCalls|].
      intros wiki2 log2 w2 Hc2.
      destruct (find_by_core t parent wiki2 (coreOf e)) as (e2 & Hlookup2 & Hcore).
      { rewrite Hc2, Hc. by apply find_app_Some, find_core_of. }
      destruct (Hagain wiki2 (log2 ++ lookupCalls t parent) w2 Hc2)
        as (wiki3 & sent2 & Hrun2 & Hc3 & Hposts2).
      exists wiki3, (lookupCalls t parent ++ sent2).
      rewrite (walkSegments_found _ _ _ segment rest parent path e2) by exact Hlookup2.
      fold t path'. assert (page_id (entry_page e2) = page_id (entry_page e)) as ->
        by (unfold coreOf in Hcore; by injection Hcore).
      rewrite Hrun2, <- app_assoc. split; [done|]. split; [done|].
      by rewrite List.filter_app, isPOST_lookupCalls, Hposts2.
    + destruct (List.find (hasTitle t) wiki) as [e|] eqn:Htitle.
      * (* a page of the wiki has the title *)
        pose proof (find_some _ _ Htitle) as [Hin He].
        set (i := page_id (entry_page e)).
        set (v := Js.or1 (page_version (entry_page e)) + 1).
        set (wiki1 := updated_wiki i t (containerContent t path') v wiki).
        assert (Hc1 : cores wiki1 = cores wiki) by by apply cores_updated.
        assert (Hwf1 : wellFormed wiki1) by by apply (wellFormed_cores wiki).
        destruct (IH (Some i) path' wiki1
                    (log ++ lookupCalls t parent ++
                     [GET_content_search t; PUT_content i t (containerContent t path') v]) w Hwf1)
          as (wiki' & sent & parentId & added & Hrun & Hwf' & Hc & Hfresh & Hposts & Hagain).
        exists wiki', (lookupCalls t parent ++
                       [GET_content_search t; PUT_content i t (containerContent t path') v] ++ sent),
               parentId, added.
        rewrite (walkSegments_taken _ _ _ segment rest parent path e) by done.
        fold t path' i v wiki1. rewrite Hrun, <- !app_assoc.
        split; [done|]. split; [done|]. split; [by rewrite Hc, Hc1|].
        split; [by rewrite <- Hc1|].
        split; [rewrite !List.filter_app, isPOST_lookupCalls; exact Hposts|].
        intros wiki2 log2 w2 Hc2.
        assert (Hwf2 : wellFormed wiki2) by (apply (wellFormed_cores wiki'); done).
        assert (Hlookup2 : List.find (matches t parent) wiki2 = None).
        { apply find_none_by_core. rewrite Hc2, Hc, Hc1.
          rewrite find_app_None by by apply find_core_none.
          apply (fresh_find t _ (cores wiki) added (coreOf e));
            [by rewrite <- Hc1 | by apply find_title_core_of]. }
        destruct (find_title_by_core t wiki2 (coreOf e)) as (e2 & Htitle2 & Hcore).
        { rewrite Hc2, Hc, Hc1. by apply find_app_Some, find_title_core_of. }
        pose proof (find_some _ _ Htitle2) as [Hin2 He2].
        assert (Hi : page_id (entry_page e2) = i)
          by (unfold coreOf in Hcore; by injection Hcore).
        set (v2 := Js.or1 (page_version (entry_page e2)) + 1).
        set (wiki2' := updated_wiki i t (containerContent t path') v2 wiki2).
        assert (Hc2' : cores wiki2' = cores wiki2).
        { subst wiki2'. rewrite <- Hi. by apply cores_updated. }
        destruct (Hagain wiki2'
                    (log2 ++ lookupCalls t parent ++
                     [GET_content_search t; PUT_content i t (containerContent t path') v2]) w2)
          as (wiki3 & sent2 & Hrun2 & Hc3 & Hposts2); [by rewrite Hc2'|].
        exists wiki3, (lookupCalls t parent ++
                       [GET_content_search t; PUT_content i t (containerContent t path') v2]
                       ++ sent2).
        rewrite (walkSegments_taken _ _ _ segment rest parent path e2) by done.
        fold t path' v2. rewrite Hi. fold wiki2'. rewrite Hrun2, <- !app_assoc.
        split; [done|]. split; [by rewrite Hc3|].
        by rewrite !List.filter_app, isPOST_lookupCalls, Hposts2.
      * (* no page has the title: the container is created *)
        set (n := container wiki t path' parent).
        assert (Hwf1 : wellFormed (wiki ++ [n])) by by apply wellFormed_new.
        destruct (IH (Some (nextId wiki)) path' (wiki ++ [n])
                    (log ++ lookupCalls t parent ++ createCalls t path' parent) w Hwf1)
          as (wiki' & sent & parentId & added & Hrun & Hwf' & Hc & Hfresh & Hposts & Hagain).
        exists wiki', (lookupCalls t parent ++ createCalls t path' parent ++ sent),
               parentId, (coreOf n :: added).
        rewrite walkSegments_create by done.
        fold t path' n. rewrite Hrun, <- !app_assoc.
        split; [done|]. split; [done|].
        split; [rewrite Hc; unfold cores; by rewrite map_app, <- app_assoc|].
        split.
        { constructor.
          - rewrite <- find_hasTitle_cores. cbn. by rewrite Htitle.
          - eapply Forall_impl; [exact Hfresh|]. intros c Hnone.
            unfold cores in Hnone. rewrite map_app in Hnone. by apply find_app_None_l in Hnone. }
        split; [rewrite !List.filter_app, isPOST_lookupCalls; cbn; by rewrite Hposts|].
        intros wiki2 log2 w2 Hc2.
        destruct (find_by_core t parent wiki2 (coreOf n)) as (e2 & Hlookup2 & Hcore).
        { rewrite Hc2, Hc. unfold cores at 1. rewrite map_app, <- app_assoc.
          rewrite find_app_None by by apply find_core_none.
          cbn [map app List.find].
          assert (Hn : matchesC t parent (coreOf n) = true)
            by (change (matches t parent n = true); apply matches_new).
          by rewrite Hn. }
        destruct (Hagain wiki2 (log2 ++ lookupCalls t parent) w2 Hc2)
          as (wiki3 & sent2 & Hrun2 & Hc3 & Hposts2).
        exists wiki3, (lookupCalls t parent ++ sent2).
        rewrite (walkSegments_found _ _ _ segment rest parent path e2) by exact Hlookup2.
        fold t path'. assert (page_id (entry_page e2) = nextId wiki) as ->
          by (unfold coreOf in Hcore; by injection Hcore).
        rewrite Hrun2, <- app_assoc. split; [done|]. split; [done|].
        by rewrite List.filter_app, isPOST_lookupCalls, Hposts2.
Qed.

(** X29: on the in-memory wiki, with pages that were all created through
    the client, running [findOrCreateParentPage] a second time for the same
    category path and root returns the parent that the first run returned and
    creates no page: the second run sends no creation request, and the ids,
    titles and parents of the pages are those the first run left. *)
Theorem findOrCreateParentPage_rerun (wiki : Wiki) (log : list Call) (w : World Wiki)
    (categoryPath : string) (root : option string) :
  wellFormed wiki ->
  let first := findOrCreateParentPage api categoryPath root (at_remote wiki log w) in
  let second := findOrCreateParentPage api categoryPath root first.1 in
  exists parentId sent,
    first.2 = Ok parentId /\ second.2 = Ok parentId /\
    calls second.1 = calls first.1 ++ sent /\
    List.filter isPOST sent = [] /\
    cores (server second.1) = cores (server first.1) /\
    length (server second.1) = length (server first.1).
Proof.
  intros Hwf first second. subst first second. unfold findOrCreateParentPage.
  destruct (Js.truthy categoryPath); cbn [negb].
  - destruct (walk_twice (Js.filter_Boolean (Js.split "/" categoryPath)) root "" wiki log w Hwf)
      as (wiki' & sent & parentId & added & Hrun & _ & _ & _ & _ & Hagain).
    rewrite Hrun. cbn [fst snd].
    destruct (Hagain wiki' (log ++ sent) w eq_refl) as (wiki3 & sent2 & Hrun2 & Hc3 & Hposts2).
    rewrite Hrun2. exists parentId, sent2. cbn [fst snd].
    unfold at_remote. cbn [server calls set_server set_calls].
    repeat split; try done.
    apply (f_equal (@length Core)) in Hc3. unfold cores in Hc3. by rewrite !length_map in Hc3.
  - exists root, []. cbn. by rewrite app_nil_r.
Qed.

Lemma findOrCreateParentPage_rerun_witness :
  let first := findOrCreateParentPage api "guides/getting-started" None (emptyWorld []) in
  let second := findOrCreateParentPage api "guides/getting-started" None first.1 in
  first.2 = Ok (Some "p1") /\ second.2 = Ok (Some "p1") /\
  length (server second.1) = 2%nat.
Proof.
  destruct (findOrCreateParentPage_rerun [] [] (emptyWorld []) "guides/getting-started" None)
    as (parentId & sent & H1 & H2 & _ & _ & _ & Hlen); [by intros k e H|].
  change (at_remote [] [] (emptyWorld [])) with (emptyWorld []) in *.
  cbn zeta in *.
  split; [reflexivity|]. rewrite H2, <- H1. split; [reflexivity|]. by rewrite Hlen.
Defined.

End RerunFacts.
